(** * Reminder: a shallow embedding of the note/tag data engine

    The development follows the Go sources of the reminder tool:
    - [Int64]     : Go's [int64] arithmetic, with its wrap-around written out;
    - [GoTime]    : the parts of Go's [time], [fmt] and [path] packages the
                    program calls ([time.Parse] for the two layouts in use,
                    [Time.Date], [Time.Unix], [%v] of an integer, [path.Ext]);
    - [GoStrings] : [strings.TrimSpace], on the bytes of a string;
    - [GoRegexp]  : [regexp.MatchString] for the pattern of dates;
    - [Utils]     : package [utils] (timestamps, recurrence window, slices);
    - [Models]    : package [models] (notes, tags, the reminder aggregate,
                    the due-date selection, tag registration, backups, and
                    the file system they write to).

    A Go string is the sequence of its bytes. The wall clock is read through
    [CurrentUnixTimestamp] only; every function that reads it takes the
    reading [now] as an argument, one reading for the duration of a call.
    Messages printed on the terminal are left out: they change no state.

    The definitions come first; the properties follow, the numbered ones
    (C1 to C10) each with the statement it settles, and after them further
    properties of the code (X1 onwards). *)

From Stdlib Require Import ZArith List Bool Lia Ascii String.
From stdpp Require Import gmap strings.

Local Open Scope string_scope.
Local Open Scope Z_scope.

(* ================================================================= *)
(** ** 64-bit signed integers *)

Module Int64.

Definition min_int : Z := - 2 ^ 63.
Definition max_int : Z := 2 ^ 63 - 1.

Definition in_range (z : Z) : Prop := min_int <= z <= max_int.

(** Two's complement reduction of a mathematical integer. *)
Definition wrap (z : Z) : Z := (z + 2 ^ 63) mod 2 ^ 64 - 2 ^ 63.

Definition add (a b : Z) : Z := wrap (a + b).
Definition sub (a b : Z) : Z := wrap (a - b).
Definition mul (a b : Z) : Z := wrap (a * b).

End Int64.

(* ================================================================= *)
(** ** The Go standard library functions the program calls *)

Module GoTime.

(** A [time.Time] in UTC with a zero sub-second part is represented by its
    Unix time in seconds. *)
Definition Time := Z.

Definition secondsPerDay : Z := 86400.

(** Days from January 1 of year 1 to January 1 of year 1970. *)
Definition unixEpochDays : Z := 719162.

Definition isLeap (year : Z) : bool :=
  (year mod 4 =? 0) && (negb (year mod 100 =? 0) || (year mod 400 =? 0)).

(** [daysBefore[m]] counts the days in a non-leap year before month [m+1]. *)
Definition daysBefore_table : list Z :=
  [0; 31; 59; 90; 120; 151; 181; 212; 243; 273; 304; 334; 365].

Definition daysBefore (m : Z) : Z :=
  if m <? 0 then 0 else nth (Z.to_nat m) daysBefore_table 0.

Definition daysIn (m year : Z) : Z :=
  if (m =? 2) && isLeap year then 29
  else daysBefore m - daysBefore (m - 1).

(** [daysSinceEpoch], counted from year 1 (Go counts from a year that is
    1 modulo 400, so the cycles are the same). *)
Definition daysSinceYear1 (year : Z) : Z :=
  let y := year - 1 in
  let n400 := y / 400 in
  let y := y - 400 * n400 in
  let d := 146097 * n400 in
  let n100 := y / 100 in
  let y := y - 100 * n100 in
  let d := d + 36524 * n100 in
  let n4 := y / 4 in
  let y := y - 4 * n4 in
  let d := d + 1461 * n4 in
  d + 365 * y.

(** [time.Date(year, month, day, 0, 0, 0, 0, time.UTC).Unix()] for a month
    in 1..12 (the only way the parser calls it). *)
Definition unixDate (year month day : Z) : Time :=
  let d := daysSinceYear1 year + daysBefore (month - 1) in
  let d := if isLeap year && (3 <=? month) then d + 1 else d in
  let d := d + (day - 1) in
  (d - unixEpochDays) * secondsPerDay.

(** The zero [time.Time] is January 1, year 1, 00:00:00 UTC. *)
Definition zeroTime : Time := unixDate 1 1 1.

(** [Time.Date()]: year, month and day of a time, as in [absDate], with the
    days counted from year 1 (for the times Go's 64-bit count of absolute
    seconds represents without wrapping, which are all but the outer
    billions of years). *)
Definition Date (t : Time) : Z * Z * Z :=
  let d := t / secondsPerDay + unixEpochDays in
  let n := d / 146097 in
  let y := 400 * n in
  let d := d - 146097 * n in
  let n := d / 36524 in
  let n := n - Z.shiftr n 2 in
  let y := y + 100 * n in
  let d := d - 36524 * n in
  let n := d / 1461 in
  let y := y + 4 * n in
  let d := d - 1461 * n in
  let n := d / 365 in
  let n := n - Z.shiftr n 2 in
  let y := y + n in
  let d := d - 365 * n in
  let year := y + 1 in
  let yday := d in
  let leapFeb := isLeap year && (yday =? 31 + 29 - 1) in
  if leapFeb then (year, 2, 29)
  else
    let day := if isLeap year && (31 + 29 - 1 <? yday) then yday - 1 else yday in
    let month := day / 31 in
    let end_ := daysBefore (month + 1) in
    let '(month, begin) :=
      if end_ <=? day then (month + 1, end_) else (month, daysBefore month) in
    (year, month + 1, day - begin + 1).

(** *** Decimal digits *)

Definition isDigit (c : ascii) : bool :=
  let n := Z.of_N (N_of_ascii c) in (48 <=? n) && (n <=? 57).

Definition digitVal (c : ascii) : Z := Z.of_N (N_of_ascii c) - 48.

Definition digitChar (d : Z) : ascii := ascii_of_N (Z.to_N (48 + d)).

Fixpoint formatBits (fuel : nat) (n : Z) (acc : string) : string :=
  let acc' := String (digitChar (n mod 10)) acc in
  match fuel with
  | O => acc'
  | S fuel' => if n <? 10 then acc' else formatBits fuel' (n / 10) acc'
  end.

(** Decimal form of a non-negative integer. *)
Definition utoa (n : Z) : string := formatBits (Z.to_nat (Z.log2 n)) n "".

(** [fmt.Sprintf("%v", n)] and [strconv.FormatInt(n, 10)] for an integer. *)
Definition itoa (n : Z) : string :=
  if n <? 0 then String "-" (utoa (- n)) else utoa n.

(** *** [time.Parse] for the layouts "2006-1-2" and "2-1-2006" *)

Inductive Std := stdLongYear | stdNumMonth | stdDay.

(** A layout is a sequence of literal prefixes, each followed by a field. *)
Definition Layout := list (string * Std).

Definition layoutYMD : Layout :=        (* "2006-1-2" *)
  [("", stdLongYear); ("-", stdNumMonth); ("-", stdDay)].
Definition layoutDMY : Layout :=        (* "2-1-2006" *)
  [("", stdDay); ("-", stdNumMonth); ("-", stdLongYear)].

(** [skip]: the value must start with the literal prefix (no prefix in use
    holds a space). *)
Fixpoint skip (value prefix : string) {struct prefix} : option string :=
  match prefix with
  | EmptyString => Some value
  | String p prefix' =>
      match value with
      | String v value' => if Ascii.eqb v p then skip value' prefix' else None
      | EmptyString => None
      end
  end.

(** [getnum(s, false)]: one or two digits. *)
Definition getnum (s : string) : option (Z * string) :=
  match s with
  | String c0 r0 =>
      if isDigit c0 then
        match r0 with
        | String c1 r1 =>
            if isDigit c1 then Some (digitVal c0 * 10 + digitVal c1, r1)
            else Some (digitVal c0, r0)
        | EmptyString => Some (digitVal c0, r0)
        end
      else None
  | EmptyString => None
  end.

(** The [stdLongYear] case: exactly four digits. *)
Definition getyear (s : string) : option (Z * string) :=
  match s with
  | String c0 (String c1 (String c2 (String c3 r))) =>
      if isDigit c0 && isDigit c1 && isDigit c2 && isDigit c3 then
        Some (((digitVal c0 * 10 + digitVal c1) * 10 + digitVal c2) * 10
              + digitVal c3, r)
      else None
  | _ => None
  end.

Record Fields := { f_year : Z; f_month : Z; f_day : Z }.

(** Before any field is read: year 0, month and day not set (-1). *)
Definition noFields : Fields := {| f_year := 0; f_month := -1; f_day := -1 |}.

Fixpoint parseChunks (l : Layout) (value : string) (f : Fields)
  : option (Fields * string) :=
  match l with
  | [] => Some (f, value)
  | (prefix, std) :: l' =>
      match skip value prefix with
      | None => None
      | Some value =>
          match std with
          | stdLongYear =>
              match getyear value with
              | Some (y, value) =>
                  parseChunks l' value
                    {| f_year := y; f_month := f_month f; f_day := f_day f |}
              | None => None
              end
          | stdNumMonth =>
              match getnum value with
              | Some (m, value) =>
                  if (m <=? 0) || (12 <? m) then None
                  else parseChunks l' value
                    {| f_year := f_year f; f_month := m; f_day := f_day f |}
              | None => None
              end
          | stdDay =>
              match getnum value with
              | Some (d, value) =>
                  parseChunks l' value
                    {| f_year := f_year f; f_month := f_month f; f_day := d |}
              | None => None
              end
          end
      end
  end.

(** [time.Parse(layout, value)]: [None] is a parse error. *)
Definition Parse (l : Layout) (value : string) : option Time :=
  match parseChunks l value noFields with
  | Some (f, EmptyString) =>
      let month := if f_month f <? 0 then 1 else f_month f in
      let day := if f_day f <? 0 then 1 else f_day f in
      if (day <? 1) || (daysIn month (f_year f) <? day) then None
      else Some (unixDate (f_year f) month day)
  | _ => None
  end.

(** [timeValue, _ := time.Parse(...)]: with the error dropped, a failed
    parse leaves the zero time. *)
Definition ParseOrZero (l : Layout) (value : string) : Time :=
  match Parse l value with
  | Some t => t
  | None => zeroTime
  end.

(** [path.Ext]: the suffix from the last dot of the last path element. *)
Fixpoint Ext (p : string) : string :=
  match p with
  | EmptyString => EmptyString
  | String c p' =>
      match Ext p' with
      | EmptyString =>
          if existsb (Ascii.eqb "/") (list_ascii_of_string p') then EmptyString
          else if Ascii.eqb c "." then p else EmptyString
      | e => e
      end
  end.

End GoTime.

Import GoTime.


(* ================================================================= *)
(** ** [strings.TrimSpace] *)

Module GoStrings.

Definition byte (c : ascii) : Z := Z.of_N (N_of_ascii c).

(** The ASCII white space of [unicode.IsSpace]. *)
Definition asciiSpace (c : ascii) : bool :=
  let b := byte c in
  (b =? 9) || (b =? 10) || (b =? 11) || (b =? 12) || (b =? 13) || (b =? 32).

(** The third byte of a white-space rune encoded as E2 80 xx:
    U+2000..U+200A, U+2028, U+2029, U+202F. *)
Definition e280Space (b : Z) : bool :=
  ((128 <=? b) && (b <=? 138)) || (b =? 168) || (b =? 169) || (b =? 175).

(** Leading white space is dropped rune by rune. The white-space runes
    outside ASCII are U+0085 and U+00A0 (C2 85, C2 A0), U+1680 (E1 9A 80),
    the E2 80 xx runes above, U+205F (E2 81 9F) and U+3000 (E3 80 80);
    a byte that starts no valid encoding is not white space. *)
Fixpoint TrimLeft (s : string) : string :=
  match s with
  | EmptyString => EmptyString
  | String c0 r0 =>
      if asciiSpace c0 then TrimLeft r0
      else
        match r0 with
        | String c1 r1 =>
            if (byte c0 =? 194) && ((byte c1 =? 133) || (byte c1 =? 160))
            then TrimLeft r1
            else
              match r1 with
              | String c2 r2 =>
                  if ((byte c0 =? 225) && (byte c1 =? 154) && (byte c2 =? 128))
                     || ((byte c0 =? 226) && (byte c1 =? 128) && e280Space (byte c2))
                     || ((byte c0 =? 226) && (byte c1 =? 129) && (byte c2 =? 159))
                     || ((byte c0 =? 227) && (byte c1 =? 128) && (byte c2 =? 128))
                  then TrimLeft r2
                  else s
              | EmptyString => s
              end
        | EmptyString => s
        end
  end.

(** Trailing white space, read on the reversed bytes (last byte first). *)
Fixpoint TrimLeftRev (s : string) : string :=
  match s with
  | EmptyString => EmptyString
  | String c0 r0 =>
      if asciiSpace c0 then TrimLeftRev r0
      else
        match r0 with
        | String c1 r1 =>
            if (byte c1 =? 194) && ((byte c0 =? 133) || (byte c0 =? 160))
            then TrimLeftRev r1
            else
              match r1 with
              | String c2 r2 =>
                  if ((byte c2 =? 225) && (byte c1 =? 154) && (byte c0 =? 128))
                     || ((byte c2 =? 226) && (byte c1 =? 128) && e280Space (byte c0))
                     || ((byte c2 =? 226) && (byte c1 =? 129) && (byte c0 =? 159))
                     || ((byte c2 =? 227) && (byte c1 =? 128) && (byte c0 =? 128))
                  then TrimLeftRev r2
                  else s
              | EmptyString => s
              end
        | EmptyString => s
        end
  end.

Definition reverse (s : string) : string :=
  string_of_list_ascii (rev (list_ascii_of_string s)).

Definition TrimRight (s : string) : string :=
  reverse (TrimLeftRev (reverse s)).

Definition TrimSpace (s : string) : string := TrimRight (TrimLeft s).

End GoStrings.

(* ================================================================= *)
(** ** Package [regexp], as far as the pattern of dates needs it *)

Module GoRegexp.

(** The syntax tree of a pattern, with the operators of [regexp/syntax]
    that occur in the pattern of the code. A capture group matches what its
    body matches. Texts are matched byte by byte: the literals and classes
    in use are ASCII, so a byte of a longer rune matches none of them, as
    the rune itself does not. *)
Inductive Regexp :=
| NoMatch
| EmptyMatch
| Literal (c : ascii)
| CharClass (lo hi : ascii)
| Concat (r1 r2 : Regexp)
| Alternate (r1 r2 : Regexp)
| Quest (r : Regexp).

(** A literal text, one byte after the other. *)
Fixpoint literal (s : string) : Regexp :=
  match s with
  | EmptyString => EmptyMatch
  | String c s' => Concat (Literal c) (literal s')
  end.

(** The class [[lo-hi]]. *)
Definition inClass (lo hi c : ascii) : bool :=
  ((N_of_ascii lo <=? N_of_ascii c) && (N_of_ascii c <=? N_of_ascii hi))%N.

(** The pattern matches the empty text. *)
Fixpoint nullable (re : Regexp) : bool :=
  match re with
  | NoMatch => false
  | EmptyMatch => true
  | Literal _ => false
  | CharClass _ _ => false
  | Concat r1 r2 => nullable r1 && nullable r2
  | Alternate r1 r2 => nullable r1 || nullable r2
  | Quest _ => true
  end.

(** What is left of the pattern once the byte [c] is read. *)
Fixpoint derive (c : ascii) (re : Regexp) : Regexp :=
  match re with
  | NoMatch => NoMatch
  | EmptyMatch => NoMatch
  | Literal d => if Ascii.eqb c d then EmptyMatch else NoMatch
  | CharClass lo hi => if inClass lo hi c then EmptyMatch else NoMatch
  | Concat r1 r2 =>
      if nullable r1
      then Alternate (Concat (derive c r1) r2) (derive c r2)
      else Concat (derive c r1) r2
  | Alternate r1 r2 => Alternate (derive c r1) (derive c r2)
  | Quest r => derive c r
  end.

(** [re.MatchString(s)] for a pattern of the form [^(re)$]: without the
    flag [m], [^] and [$] match at the two ends of the text and nowhere
    else, so that the text matches when all of it matches [re]. *)
Fixpoint MatchString (re : Regexp) (s : string) : bool :=
  match s with
  | EmptyString => nullable re
  | String c s' => MatchString (derive c re) s'
  end.

End GoRegexp.



(* ================================================================= *)
(** ** Package [utils] *)

Module Utils.

(** [CurrentUnixTimestamp()] is the clock reading [now]. *)

Definition UnixTimestampToTime (unixTimestamp : Z) : Time := unixTimestamp.

(** [fmt.Sprintf("%v-%v-%v", a, b, c)] for three integers. *)
Definition Sprintf3 (a b c : Z) : string :=
  itoa a ++ "-" ++ itoa b ++ "-" ++ itoa c.

Definition UnixTimestampForCorrespondingCurrentYear (now month day : Z) : Z :=
  let '(currentYear, _, _) := Date now in
  ParseOrZero layoutYMD (Sprintf3 currentYear month day).

Definition UnixTimestampForCorrespondingCurrentYearMonth (now day : Z) : Z :=
  let '(currentYear, currentMonth, _) := Date now in
  ParseOrZero layoutYMD (Sprintf3 currentYear currentMonth day).

Fixpoint IntPresentInSlice (a : Z) (list : list Z) : bool :=
  match list with
  | [] => false
  | b :: list' => if b =? a then true else IntPresentInSlice a list'
  end.

(** The inner loop of [GetCommonMembersIntSlices]. *)
Fixpoint commonWith (e1 : Z) (arr2 arr : list Z) : list Z :=
  match arr2 with
  | [] => arr
  | e2 :: arr2' => commonWith e1 arr2' (if e1 =? e2 then (arr ++ [e1])%list else arr)
  end.

Fixpoint commonLoop (arr1 arr2 arr : list Z) : list Z :=
  match arr1 with
  | [] => arr
  | e1 :: arr1' => commonLoop arr1' arr2 (commonWith e1 arr2 arr)
  end.

Definition GetCommonMembersIntSlices (arr1 arr2 : list Z) : list Z :=
  commonLoop arr1 arr2 [].

Definition TrimString (str : string) : string := GoStrings.TrimSpace str.

Definition len {A} (l : list A) : Z := Z.of_nat (List.length l).
Definition strlen (s : string) : Z := Z.of_nat (String.length s).

Definition IsTimeForRepeatNote
  (now noteTimestampCurrent noteTimestampPrevious noteTimestampNext
     daysBefore daysAfter : Z) : bool :=
  let currentTimestamp := now in
  let daysSecs := 24 * 60 * 60 in
  let within (ts : Z) :=
    (Int64.sub ts (Int64.mul daysBefore daysSecs) <=? currentTimestamp)
    && (currentTimestamp <=? Int64.add ts (Int64.mul daysAfter daysSecs)) in
  within noteTimestampCurrent
  || within noteTimestampPrevious
  || within noteTimestampNext.

(** *** Texts cut to a width, input checks, time strings *)

(** One iteration of the loop of [ChopStrings]: [str[0:length-2] + ".."] for
    a string longer than [length]. *)
Definition chopOne (length : Z) (str : string) : string :=
  if strlen str <=? length then str
  else String.substring 0 (Z.to_nat (length - 2)) str ++ "..".

Fixpoint chopLoop (texts : list string) (length : Z)
  (choppedStrings : list string) : list string :=
  match texts with
  | [] => choppedStrings
  | str :: texts' =>
      chopLoop texts' length (choppedStrings ++ [chopOne length str])%list
  end.

Definition ChopStrings (texts : list string) (length : Z) : list string :=
  if length <=? 2 then texts else chopLoop texts length [].

(** [ValidateNonEmptyString]: [None] is [nil], [Some] carries the message. *)
Definition ValidateNonEmptyString (input : string) : option string :=
  let input := TrimString input in
  if 0 <? strlen input then None else Some "Empty input".

(** The pattern of [ValidateDateString],
    [^((0?[1-9]|[12][0-9]|3[01])-(0?[1-9]|1[012])-((19|20)\d\d)|(nil))$],
    between [^(] and [)$]: the alternative of a date and of "nil". *)
Definition dayPattern : GoRegexp.Regexp :=            (* 0?[1-9]|[12][0-9]|3[01] *)
  GoRegexp.Alternate
    (GoRegexp.Concat (GoRegexp.Quest (GoRegexp.Literal "0"))
       (GoRegexp.CharClass "1" "9"))
    (GoRegexp.Alternate
       (GoRegexp.Concat (GoRegexp.CharClass "1" "2") (GoRegexp.CharClass "0" "9"))
       (GoRegexp.Concat (GoRegexp.Literal "3") (GoRegexp.CharClass "0" "1"))).

Definition monthPattern : GoRegexp.Regexp :=          (* 0?[1-9]|1[012] *)
  GoRegexp.Alternate
    (GoRegexp.Concat (GoRegexp.Quest (GoRegexp.Literal "0"))
       (GoRegexp.CharClass "1" "9"))
    (GoRegexp.Concat (GoRegexp.Literal "1") (GoRegexp.CharClass "0" "2")).

Definition yearPattern : GoRegexp.Regexp :=           (* (19|20)\d\d *)
  GoRegexp.Concat
    (GoRegexp.Alternate (GoRegexp.literal "19") (GoRegexp.literal "20"))
    (GoRegexp.Concat (GoRegexp.CharClass "0" "9") (GoRegexp.CharClass "0" "9")).

Definition datePattern : GoRegexp.Regexp :=
  GoRegexp.Alternate
    (GoRegexp.Concat dayPattern
       (GoRegexp.Concat (GoRegexp.Literal "-")
          (GoRegexp.Concat monthPattern
             (GoRegexp.Concat (GoRegexp.Literal "-") yearPattern))))
    (GoRegexp.literal "nil").

(** [ValidateDateString]: [None] is [nil], [Some] carries the message. *)
Definition ValidateDateString (input : string) : option string :=
  let input := TrimString input in
  if GoRegexp.MatchString datePattern input then None
  else Some "Invalid input".

Section TimeStrings.

(** [Time.Format], of which nothing is used here but that it is a function. *)
Variable Format : Time -> string -> string.

Definition UnixTimestampToTimeStr (unixTimestamp : Z) (timeFormat : string)
  : string :=
  if 0 <? unixTimestamp
  then Format (UnixTimestampToTime unixTimestamp) timeFormat
  else "nil".

Definition UnixTimestampToShortTimeStr (unixTimestamp : Z) : string :=
  UnixTimestampToTimeStr unixTimestamp "02-Jan-06".

End TimeStrings.

End Utils.

Import Utils.


(* ================================================================= *)
(** ** Package [models] *)

Module Models.

(** A Go [error] value is represented by its message; [None] is [nil]. *)
Definition error := string.

Record Comment := { CommentText : string; CommentCreatedAt : Z }.

(** [BaseStruct] is embedded in [Note], [Tag] and [ReminderData]; its
    [UpdatedAt] field appears here as a field of each record. *)
Record Note := {
  Text : string;
  Comments : list Comment;
  Status : string;
  TagIds : list Z;
  CompleteBy : Z;
  CreatedAt : Z;
  UpdatedAt : Z
}.

Record Tag := {
  Id : Z;
  Slug : string;
  Group : string;
  TagCreatedAt : Z;
  TagUpdatedAt : Z
}.

Record User := { Name : string; EmailId : string }.

Record ReminderData := {
  DataUser : User;
  Notes : list Note;
  Tags : list Tag;
  DataFile : string;
  LastBackupAt : Z;
  DataUpdatedAt : Z
}.

(** *** Notes *)

Definition UpdateCompleteBy (now : Z) (note : Note) (text : string)
  : Note * option error :=
  if strlen (TrimString text) =? 0 then
    (note, Some "Note's due date is empty")
  else if String.eqb text "nil" then
    ({| Text := Text note; Comments := Comments note; Status := Status note;
        TagIds := TagIds note; CompleteBy := 0;
        CreatedAt := CreatedAt note; UpdatedAt := now |}, None)
  else
    let timeValue := ParseOrZero layoutDMY text in
    ({| Text := Text note; Comments := Comments note; Status := Status note;
        TagIds := TagIds note; CompleteBy := timeValue;
        CreatedAt := CreatedAt note; UpdatedAt := now |}, None).

Definition UpdateStatus (now : Z) (note : Note) (status : string)
  (repeatTagIDs : list Z) : Note * option error :=
  let noteIDsWithRepeat := GetCommonMembersIntSlices (TagIds note) repeatTagIDs in
  if negb (len noteIDsWithRepeat =? 0) then
    (note, None)
  else if negb (String.eqb (Status note) status) then
    ({| Text := Text note; Comments := Comments note; Status := status;
        TagIds := TagIds note; CompleteBy := CompleteBy note;
        CreatedAt := CreatedAt note; UpdatedAt := now |}, None)
  else
    (note, None).

Fixpoint WithStatus (status : string) (notes : list Note) : list Note :=
  match notes with
  | [] => []
  | note :: notes' =>
      if String.eqb (Status note) status
      then note :: WithStatus status notes'
      else WithStatus status notes'
  end.

(** *** Tags *)

(** Modelled from the spec: the method [Tags.FromSlug] is not among the
    sources. "[lookupBySlug(slug) -> Tag?]: exact match, [nil] if absent";
    the first tag of the registry with the slug is returned. *)
Fixpoint FromSlug (tags : list Tag) (slug : string) : option Tag :=
  match tags with
  | [] => None
  | tag :: tags' =>
      if String.eqb (Slug tag) slug then Some tag else FromSlug tags' slug
  end.

(** Modelled from the spec: the method [Tags.IdsForGroup] is not among the
    sources. "[idsForGroup(group)]: all tag ids whose group equals the
    argument", in registry order. *)
Fixpoint IdsForGroup (tags : list Tag) (group : string) : list Z :=
  match tags with
  | [] => []
  | tag :: tags' =>
      if String.eqb (Group tag) group
      then Id tag :: IdsForGroup tags' group
      else IdsForGroup tags' group
  end.

Definition TagFromSlug (reminderData : ReminderData) (slug : string) : option Tag :=
  FromSlug (Tags reminderData) slug.

Definition TagIdsForGroup (reminderData : ReminderData) (group : string) : list Z :=
  IdsForGroup (Tags reminderData) group.

(** [BasicTags()], created at time [now]. *)
Definition basicTagsMap : list (string * string) :=
  [("current", ""); ("priority-urgent", "priority");
   ("priority-medium", "priority"); ("priority-low", "priority");
   ("repeat-annually", "repeat"); ("repeat-monthly", "repeat");
   ("tips", "tips")].

Fixpoint basicTagsFrom (now index : Z) (l : list (string * string)) : list Tag :=
  match l with
  | [] => []
  | (slug, group) :: l' =>
      {| Id := index; Slug := slug; Group := group;
         TagCreatedAt := now; TagUpdatedAt := now |}
      :: basicTagsFrom now (index + 1) l'
  end.

Definition BasicTags (now : Z) : list Tag := basicTagsFrom now 0 basicTagsMap.

(** *** The due-date selection *)

(** The annual check in the body of the loop of [NotesApprachingDueDate]. *)
Definition annualCheck (now : Z) (note : Note) : bool :=
  let '(_, noteMonth, noteDay) := Date (UnixTimestampToTime (CompleteBy note)) in
  let noteTimestampCurrent :=
    UnixTimestampForCorrespondingCurrentYear now noteMonth noteDay in
  let noteTimestampPrevious := Int64.sub noteTimestampCurrent (365 * 24 * 60 * 60) in
  let noteTimestampNext := Int64.add noteTimestampCurrent (365 * 24 * 60 * 60) in
  let daysBefore := 3 in
  let daysAfter := 7 in
  IsTimeForRepeatNote now noteTimestampCurrent noteTimestampPrevious
    noteTimestampNext daysBefore daysAfter.

(** The monthly check in the body of the loop. *)
Definition monthlyCheck (now : Z) (note : Note) : bool :=
  let '(_, _, noteDay) := Date (UnixTimestampToTime (CompleteBy note)) in
  let noteTimestampCurrent :=
    UnixTimestampForCorrespondingCurrentYearMonth now noteDay in
  let noteTimestampPrevious := Int64.sub noteTimestampCurrent (30 * 24 * 60 * 60) in
  let noteTimestampNext := Int64.add noteTimestampCurrent (30 * 24 * 60 * 60) in
  let daysBefore := 1 in
  let daysAfter := 3 in
  IsTimeForRepeatNote now noteTimestampCurrent noteTimestampPrevious
    noteTimestampNext daysBefore daysAfter.

(** One iteration of the loop over the pending notes: [currentNotes] is
    the slice built so far. *)
Definition dueDateStep (now : Z) (reminderData : ReminderData)
  (repeatTagIDs : list Z) (currentNotes : list Note) (note : Note) : list Note :=
  let noteIDsWithRepeat := GetCommonMembersIntSlices (TagIds note) repeatTagIDs in
  let minDay := Int64.sub (CompleteBy note) (7 * 24 * 60 * 60) in
  let currentTimestamp := now in
  let currentNotes :=
    if (len noteIDsWithRepeat =? 0) && negb (CompleteBy note =? 0)
       && (minDay <=? currentTimestamp)
    then (currentNotes ++ [note])%list else currentNotes in
  if (0 <? len noteIDsWithRepeat) && negb (CompleteBy note =? 0) then
    let repeatAnnuallyTag := TagFromSlug reminderData "repeat-annually" in
    let repeatMonthlyTag := TagFromSlug reminderData "repeat-monthly" in
    let currentNotes :=
      match repeatAnnuallyTag with
      | Some tag =>
          if IntPresentInSlice (Id tag) (TagIds note) then
            if annualCheck now note
            then (currentNotes ++ [note])%list else currentNotes
          else currentNotes
      | None => currentNotes
      end in
    match repeatMonthlyTag with
    | Some tag =>
        if IntPresentInSlice (Id tag) (TagIds note) then
          if monthlyCheck now note
          then (currentNotes ++ [note])%list else currentNotes
        else currentNotes
    | None => currentNotes
    end
  else currentNotes.

Definition NotesApprachingDueDate (now : Z) (reminderData : ReminderData)
  : list Note :=
  let allNotes := Notes reminderData in
  let pendingNotes := WithStatus "pending" allNotes in
  let repeatTagIDs := TagIdsForGroup reminderData "repeat" in
  fold_left (dueDateStep now reminderData repeatTagIDs) pendingNotes [].

(** *** The other mutators and filters of notes *)

Definition AddComment (now : Z) (note : Note) (text : string)
  : Note * option error :=
  if strlen (TrimString text) =? 0 then
    (note, Some "Note's comment text is empty")
  else
    let comment := {| CommentText := text; CommentCreatedAt := now |} in
    ({| Text := Text note; Comments := (Comments note ++ [comment])%list;
        Status := Status note; TagIds := TagIds note;
        CompleteBy := CompleteBy note; CreatedAt := CreatedAt note;
        UpdatedAt := now |}, None).

Definition UpdateText (now : Z) (note : Note) (text : string)
  : Note * option error :=
  if strlen (TrimString text) =? 0 then
    (note, Some "Note's text is empty")
  else
    ({| Text := text; Comments := Comments note; Status := Status note;
        TagIds := TagIds note; CompleteBy := CompleteBy note;
        CreatedAt := CreatedAt note; UpdatedAt := now |}, None).

Definition UpdateTags (now : Z) (note : Note) (tagIDs : list Z)
  : Note * option error :=
  ({| Text := Text note; Comments := Comments note; Status := Status note;
      TagIds := tagIDs; CompleteBy := CompleteBy note;
      CreatedAt := CreatedAt note; UpdatedAt := now |}, None).

(** The second loop of [WithTagIdAndStatus]. *)
Fixpoint withTagLoop (tagID : Z) (notes result : list Note) : list Note :=
  match notes with
  | [] => result
  | note :: notes' =>
      withTagLoop tagID notes'
        (if IntPresentInSlice tagID (TagIds note)
         then (result ++ [note])%list else result)
  end.

Definition WithTagIdAndStatus (tagID : Z) (status : string) (notes : list Note)
  : list Note :=
  let notesWithStatus := WithStatus status notes in
  withTagLoop tagID notesWithStatus [].

(** [Notes.Less]: the order of [sort.Sort], most recently updated first. *)
Definition Less (c : list Note) (i j : nat) : option bool :=
  match c !! i, c !! j with
  | Some a, Some b => Some (UpdatedAt b <? UpdatedAt a)
  | _, _ => None
  end.


(** *** The file system

    The data file, its backups and the "latest" alias live in the file
    system: a finite map from paths to nodes. A path in [denied] cannot be
    written (created, replaced or linked); reading fails on a path that
    holds nothing. A symbolic link is followed when read.

    A write is taken at the two ends of what [ioutil.WriteFile] can do: it
    is refused when the file is opened, and nothing has changed, or it goes
    through, and the path holds the bytes. A write that fails midway, which
    leaves a file cut short, and a write through a symbolic link are not
    modelled: no numbered property rests on what the data file or a backup
    holds after the write to it failed, and the paths written are taken to
    hold regular files or nothing. *)

Inductive Node := File (bytes : string) | Symlink (target : string).

Record World := { files : gmap string Node; denied : gset string }.

Definition ReadFile (w : World) (filename : string) : string + error :=
  match files w !! filename with
  | Some (File bytes) => inl bytes
  | Some (Symlink target) =>
      match files w !! target with
      | Some (File bytes) => inl bytes
      | _ => inr "no such file or directory"
      end
  | None => inr "no such file or directory"
  end.

Definition WriteFile (w : World) (filename data : string) : World * option error :=
  if bool_decide (filename ∈ denied w) then (w, Some "permission denied")
  else ({| files := <[filename := File data]> (files w); denied := denied w |},
        None).

(** [ln -sf target linkName], run as a command. *)
Definition SymlinkForce (w : World) (target linkName : string)
  : World * option error :=
  if bool_decide (linkName ∈ denied w) then (w, Some "exit status 1")
  else ({| files := <[linkName := Symlink target]> (files w);
           denied := denied w |}, None).

(** [strings.Contains] *)
Fixpoint Contains (s substr : string) : bool :=
  String.prefix substr s
  || match s with
     | EmptyString => false
     | String _ s' => Contains s' substr
     end.

(** *** The display texts of notes *)

(** The slice expression [s[lo:hi]] of a string: it panics ([None]) unless
    [0 <= lo <= hi <= len(s)]. *)
Definition slice (s : string) (lo hi : Z) : option string :=
  if (0 <=? lo) && (lo <=? hi) && (hi <=? strlen s)
  then Some (String.substring (Z.to_nat lo) (Z.to_nat (hi - lo)) s)
  else None.

Section Display.

(** [Time.Format] and [strings.ToUpper], and the call
    [fmt.Sprintf("%*v {C:%02d, S:%v, D:%v}", width, text, comments, status, due)]:
    nothing is used of them but that they are functions. *)
Variable Format : Time -> string -> string.
Variable ToUpper : string -> string.
Variable Sprintf : Z -> string -> Z -> string -> string -> string.

(** The text of the note as it is displayed: cut to [maxStrLen] bytes, the
    last three of them dots, when it is longer and [maxStrLen] is positive. *)
Definition shownText (maxStrLen : Z) (note : Note) : option string :=
  let noteText := Text note in
  if 0 <? maxStrLen then
    if maxStrLen <? strlen noteText then
      match slice noteText 0 (maxStrLen - 3) with
      | Some head => Some (head ++ "...")
      | None => None
      end
    else Some noteText
  else Some noteText.

(** The loop of [ExternalTexts]; [None] is a run-time panic. *)
Fixpoint externalTextsLoop (notes : list Note) (maxStrLen : Z)
  (allTexts : list string) : option (list string) :=
  match notes with
  | [] => Some allTexts
  | note :: notes' =>
      match shownText maxStrLen note with
      | None => None
      | Some noteText =>
          match slice (Status note) 0 1 with
          | None => None
          | Some initial =>
              let noteText :=
                Sprintf (- maxStrLen) noteText (len (Comments note))
                  (ToUpper initial)
                  (UnixTimestampToShortTimeStr Format (CompleteBy note)) in
              externalTextsLoop notes' maxStrLen (allTexts ++ [noteText])%list
          end
      end
  end.

Definition ExternalTexts (notes : list Note) (maxStrLen : Z)
  : option (list string) :=
  externalTextsLoop notes maxStrLen [].

End Display.

Section Aggregate.

(** [json.MarshalIndent] of the aggregate, and [strings.ToLower], are
    library functions of which nothing is used here but that they are
    functions. *)
Variable MarshalIndent : ReminderData -> string + error.
Variable ToLower : string -> string.

(** The wall clock reading of the call. *)
Variable now : Z.

Definition UpdateDataFile (reminderData : ReminderData) (msg : string)
  (w : World) : ReminderData * World * option error :=
  let reminderData :=
    {| DataUser := DataUser reminderData; Notes := Notes reminderData;
       Tags := Tags reminderData; DataFile := DataFile reminderData;
       LastBackupAt := LastBackupAt reminderData; DataUpdatedAt := now |} in
  match MarshalIndent reminderData with
  | inr err => (reminderData, w, Some err)
  | inl byteValue =>
      match WriteFile w (DataFile reminderData) byteValue with
      | (w, Some err) => (reminderData, w, Some err)
      | (w, None) => (reminderData, w, None)
      end
  end.

Definition nextPossibleTagId (reminderData : ReminderData) : Z :=
  let allTags := Tags reminderData in
  let allTagsLen := len allTags in
  allTagsLen.

(** The loop of [newTagAppend] over the existing tags. *)
Fixpoint isNewSlugLoop (tags : list Tag) (tag : Tag) (isNewSlug : bool) : bool :=
  match tags with
  | [] => isNewSlug
  | existingTag :: tags' =>
      isNewSlugLoop tags' tag
        (if String.eqb (Slug existingTag) (Slug tag) then false else isNewSlug)
  end.

Definition newTagAppend (reminderData : ReminderData) (tag : Tag) (w : World)
  : ReminderData * World * option error :=
  let isNewSlug := isNewSlugLoop (Tags reminderData) tag true in
  if negb isNewSlug then
    (reminderData, w, Some "Tag Already Exists")
  else
    let reminderData :=
      {| DataUser := DataUser reminderData; Notes := Notes reminderData;
         Tags := (Tags reminderData ++ [tag])%list;
         DataFile := DataFile reminderData;
         LastBackupAt := LastBackupAt reminderData;
         DataUpdatedAt := DataUpdatedAt reminderData |} in
    UpdateDataFile reminderData "" w.

(** [utils.GeneratePrompt(promptName, defaultText)] asks the user; the
    answers of one interaction are a function of the prompt name. *)
Definition Prompt := string -> string -> string * option error.

Definition NewTag (prompt : Prompt) (tagID : Z) (useSlug useGroup : string)
  : Tag * option error :=
  let tag := {| Id := tagID; Slug := ""; Group := "";
                TagCreatedAt := now; TagUpdatedAt := now |} in
  let '(tagSlug, err) :=
    if String.eqb useSlug "" then prompt "tag_slug" "" else (useSlug, None) in
  if String.eqb useSlug ""
     && (match err with Some _ => true | None => false end
         || Contains (Slug tag) "^C")
  then (tag, err)
  else
    let tag := {| Id := Id tag; Slug := GoStrings.TrimSpace tagSlug;
                  Group := Group tag; TagCreatedAt := TagCreatedAt tag;
                  TagUpdatedAt := TagUpdatedAt tag |} in
    let tag := {| Id := Id tag; Slug := ToLower (Slug tag);
                  Group := Group tag; TagCreatedAt := TagCreatedAt tag;
                  TagUpdatedAt := TagUpdatedAt tag |} in
    if strlen (GoStrings.TrimSpace (Slug tag)) =? 0 then
      (tag, Some "Tag's slug is empty")
    else
      let '(tagGroup, err) :=
        if String.eqb useGroup "" then prompt "tag_group" ""
        else (useGroup, None) in
      match err with
      | Some e => (tag, Some e)
      | None =>
          ({| Id := Id tag; Slug := Slug tag; Group := ToLower tagGroup;
              TagCreatedAt := TagCreatedAt tag;
              TagUpdatedAt := TagUpdatedAt tag |}, None)
      end.

Definition NewTagRegistration (prompt : Prompt) (reminderData : ReminderData)
  (w : World) : Z * option error * ReminderData * World :=
  let tagID := nextPossibleTagId reminderData in
  match NewTag prompt tagID "" "" with
  | (tag, Some err) => (0, Some err, reminderData, w)
  | (tag, None) =>
      let '(reminderData, w, err) := newTagAppend reminderData tag w in
      (tagID, err, reminderData, w)
  end.

(** The names of a backup and of the alias of the latest one. *)
Definition backupStem (reminderData : ReminderData) : string :=
  let ext := Ext (DataFile reminderData) in
  String.substring 0
    (String.length (DataFile reminderData) - String.length ext)%nat
    (DataFile reminderData).

Definition CreateBackup (reminderData : ReminderData) (w : World)
  : string * option error * World :=
  let ext := Ext (DataFile reminderData) in
  let dstFile := backupStem reminderData ++ "_backup_" ++ itoa now ++ ext in
  let lnFile := backupStem reminderData ++ "_backup_latest" ++ ext in
  match ReadFile w (DataFile reminderData) with
  | inr err => (dstFile, Some err, w)
  | inl byteValue =>
      match WriteFile w dstFile byteValue with
      | (w, Some err) => (dstFile, Some err, w)
      | (w, None) =>
          match SymlinkForce w dstFile lnFile with
          | (w, Some err) => (dstFile, Some err, w)
          | (w, None) => (dstFile, None, w)
          end
      end
  end.

Definition AutoBackup (reminderData : ReminderData) (gapSecs : Z) (w : World)
  : string * option error * ReminderData * World :=
  let currentTime := now in
  let lastBackup := LastBackupAt reminderData in
  let gap := Int64.sub currentTime lastBackup in
  if gap <? gapSecs then
    ("", None, reminderData, w)
  else
    let '(dstFile, _, w) := CreateBackup reminderData w in
    let reminderData :=
      {| DataUser := DataUser reminderData; Notes := Notes reminderData;
         Tags := Tags reminderData; DataFile := DataFile reminderData;
         LastBackupAt := currentTime;
         DataUpdatedAt := DataUpdatedAt reminderData |} in
    let '(reminderData, w, err) := UpdateDataFile reminderData "" w in
    (dstFile, err, reminderData, w).

(** *** Queries and mutators of the aggregate *)

Definition FindNotesByTagId (reminderData : ReminderData) (tagID : Z)
  (status : string) : list Note :=
  WithTagIdAndStatus tagID status (Notes reminderData).

Definition FindNotesByTagSlug (reminderData : ReminderData)
  (tagSlug status : string) : list Note :=
  match TagFromSlug reminderData tagSlug with
  | None => []
  | Some tag => FindNotesByTagId reminderData (Id tag) status
  end.

(** A [*Note] of the aggregate is the position of the note in [Notes]: the
    mutators change the note in place, and the aggregate with it. *)
Definition NoteRef := nat.

Definition storeNote (reminderData : ReminderData) (ref : NoteRef) (note : Note)
  : ReminderData :=
  {| DataUser := DataUser reminderData;
     Notes := <[ref := note]> (Notes reminderData);
     Tags := Tags reminderData; DataFile := DataFile reminderData;
     LastBackupAt := LastBackupAt reminderData;
     DataUpdatedAt := DataUpdatedAt reminderData |}.

(** What the five wrappers share: the mutator has run on the note in place;
    its error is returned, and the data file is written when there is none.
    A reference to no note of the aggregate has no counterpart in the
    program ([None]). *)
Definition thenPersist (reminderData : ReminderData) (ref : NoteRef)
  (mutate : Note -> Note * option error) (w : World)
  : option (ReminderData * World * option error) :=
  match Notes reminderData !! ref with
  | None => None
  | Some note =>
      match mutate note with
      | (note, Some err) => Some (storeNote reminderData ref note, w, Some err)
      | (note, None) =>
          Some (UpdateDataFile (storeNote reminderData ref note) "" w)
      end
  end.

Definition UpdateNoteText (reminderData : ReminderData) (note : NoteRef)
  (text : string) (w : World) :=
  thenPersist reminderData note (fun n => UpdateText now n text) w.

Definition UpdateNoteCompleteBy (reminderData : ReminderData) (note : NoteRef)
  (text : string) (w : World) :=
  thenPersist reminderData note (fun n => UpdateCompleteBy now n text) w.

Definition AddNoteComment (reminderData : ReminderData) (note : NoteRef)
  (text : string) (w : World) :=
  thenPersist reminderData note (fun n => AddComment now n text) w.

Definition UpdateNoteTags (reminderData : ReminderData) (note : NoteRef)
  (tagIDs : list Z) (w : World) :=
  thenPersist reminderData note (fun n => UpdateTags now n tagIDs) w.

Definition UpdateNoteStatus (reminderData : ReminderData) (note : NoteRef)
  (status : string) (w : World) :=
  let repeatTagIDs := TagIdsForGroup reminderData "repeat" in
  thenPersist reminderData note
    (fun n => UpdateStatus now n status repeatTagIDs) w.

(** [utils.Symbols["warning"]]: the bytes of U+26A0 U+FE0F and a space. *)
Definition warningSymbol : string :=
  string_of_list_ascii
    (map ascii_of_N [226; 154; 160; 239; 184; 143; 32]%N).

Definition newline : string := String (ascii_of_N 10) "".

Definition RegisterBasicTags (reminderData : ReminderData) (w : World)
  : ReminderData * World * option error :=
  if negb (len (Tags reminderData) =? 0) then
    (reminderData, w,
     Some (warningSymbol
           ++ " Skipped registering basic tags as tag list is not empty"
           ++ newline))
  else
    let basicTags := BasicTags now in
    let reminderData :=
      {| DataUser := DataUser reminderData; Notes := Notes reminderData;
         Tags := basicTags; DataFile := DataFile reminderData;
         LastBackupAt := LastBackupAt reminderData;
         DataUpdatedAt := DataUpdatedAt reminderData |} in
    UpdateDataFile reminderData "" w.

(** Modelled from the spec: the constant [NoteStatus_Pending] is declared
    outside the sources; "default status [pending]". *)
Definition NoteStatus_Pending : string := "pending".

Definition NewNote (prompt : Prompt) (tagIDs : list Z) (useText : string)
  : Note * option error :=
  let note := {| Text := ""; Comments := []; Status := NoteStatus_Pending;
                 TagIds := tagIDs; CompleteBy := 0;
                 CreatedAt := now; UpdatedAt := now |} in
  let '(noteText, err) :=
    if String.eqb useText "" then prompt "note_text" "" else (useText, None) in
  match (if String.eqb useText "" then err else None) with
  | Some e => (note, Some e)
  | None =>
      let note := {| Text := GoStrings.TrimSpace noteText;
                     Comments := Comments note; Status := Status note;
                     TagIds := TagIds note; CompleteBy := CompleteBy note;
                     CreatedAt := CreatedAt note; UpdatedAt := UpdatedAt note |} in
      if match err with Some _ => true | None => false end
         || Contains (Text note) "^C"
      then (note, err)
      else if strlen (GoStrings.TrimSpace (Text note)) =? 0
      then (note, Some "Note's text is empty")
      else (note, None)
  end.

Definition newNoteAppend (reminderData : ReminderData) (note : Note) (w : World)
  : ReminderData * World * option error :=
  let reminderData :=
    {| DataUser := DataUser reminderData;
       Notes := (Notes reminderData ++ [note])%list;
       Tags := Tags reminderData; DataFile := DataFile reminderData;
       LastBackupAt := LastBackupAt reminderData;
       DataUpdatedAt := DataUpdatedAt reminderData |} in
  UpdateDataFile reminderData "" w.

Definition NewNoteRegistration (prompt : Prompt) (reminderData : ReminderData)
  (tagIDs : list Z) (w : World) : Note * option error * ReminderData * World :=
  match NewNote prompt tagIDs "" with
  | (note, Some err) => (note, Some err, reminderData, w)
  | (note, None) =>
      match newNoteAppend reminderData note w with
      | (reminderData, w, Some err) => (note, Some err, reminderData, w)
      | (reminderData, w, None) => (note, None, reminderData, w)
      end
  end.

End Aggregate.

End Models.

Import Models.

(* ================================================================= *)
(** ** Vocabulary of the statements *)

(** The note carries a tag of the "repeat" group. *)
Definition hasRepeatTag (reminderData : ReminderData) (note : Note) : bool :=
  0 <? len (GetCommonMembersIntSlices (TagIds note)
              (TagIdsForGroup reminderData "repeat")).

(** The note carries the id of the tag registered under [slug]. *)
Definition carriesSlug (reminderData : ReminderData) (slug : string) (note : Note)
  : bool :=
  match TagFromSlug reminderData slug with
  | Some tag => IntPresentInSlice (Id tag) (TagIds note)
  | None => false
  end.

(** What one iteration of the loop appends for [note]. *)
Definition selectsNote (now : Z) (reminderData : ReminderData) (note : Note) : bool :=
  negb (CompleteBy note =? 0)
  && (if hasRepeatTag reminderData note
      then (carriesSlug reminderData "repeat-annually" note && annualCheck now note)
           || (carriesSlug reminderData "repeat-monthly" note && monthlyCheck now note)
      else Int64.sub (CompleteBy note) (7 * 24 * 60 * 60) <=? now).

(** Fields read so far by the parser: a four-digit year, and a month that
    is either not set or in 1..12. *)
Definition fieldsOk (f : Fields) : Prop :=
  0 <= f_year f <= 9999 /\ (f_month f = -1 \/ 1 <= f_month f <= 12).

(** [now] lies in the closed interval from [daysBefore] days before
    [occurrence] to [daysAfter] days after it. *)
Definition inWindow (now occurrence daysBefore daysAfter : Z) : Prop :=
  occurrence - daysBefore * 86400 <= now <= occurrence + daysAfter * 86400.

(** Month and day of month of the due date of a note, as the loop reads
    them with [UnixTimestampToTime(note.CompleteBy).Date()]. *)
Definition dueMonth (note : Note) : Z :=
  let '(_, month, _) := Date (UnixTimestampToTime (CompleteBy note)) in month.
Definition dueDay (note : Note) : Z :=
  let '(_, _, day) := Date (UnixTimestampToTime (CompleteBy note)) in day.

(** Year and month of the clock reading. *)
Definition currentYear (now : Z) : Z := let '(year, _, _) := Date now in year.
Definition currentMonth (now : Z) : Z := let '(_, month, _) := Date now in month.

(** The three occurrences each check compares the clock with. *)
Definition annualOccurrences (now : Z) (note : Note) : list Z :=
  let current :=
    UnixTimestampForCorrespondingCurrentYear now (dueMonth note) (dueDay note) in
  [current; current - 365 * 86400; current + 365 * 86400].

Definition monthlyOccurrences (now : Z) (note : Note) : list Z :=
  let current := UnixTimestampForCorrespondingCurrentYearMonth now (dueDay note) in
  [current; current - 30 * 86400; current + 30 * 86400].

(** The month and day of a due date projected onto a calendar year, as the
    specification words the annual occurrences: the projection of
    [UnixTimestampForCorrespondingCurrentYear], with the year given. *)
Definition occurrenceInYear (year month day : Z) : Z :=
  ParseOrZero layoutYMD (Sprintf3 year month day).

Definition calendarAnnualOccurrences (now : Z) (note : Note) : list Z :=
  [occurrenceInYear (currentYear now - 1) (dueMonth note) (dueDay note);
   occurrenceInYear (currentYear now) (dueMonth note) (dueDay note);
   occurrenceInYear (currentYear now + 1) (dueMonth note) (dueDay note)].

(** What follows a number is not a digit: the end of the text, or a
    character that is no digit. *)
Definition noDigitAhead (tail : string) : Prop :=
  match tail with
  | EmptyString => True
  | String c _ => isDigit c = false
  end.

(** A note with its due date and its time of update replaced. *)
Definition withDueDate (note : Note) (completeBy updatedAt : Z) : Note :=
  {| Text := Text note; Comments := Comments note; Status := Status note;
     TagIds := TagIds note; CompleteBy := completeBy;
     CreatedAt := CreatedAt note; UpdatedAt := updatedAt |}.

(** The paths [CreateBackup] writes: the backup of time [now] and the alias
    of the latest backup. *)
Definition backupFile (now : Z) (reminderData : ReminderData) : string :=
  backupStem reminderData ++ "_backup_" ++ itoa now
  ++ Ext (DataFile reminderData).
Definition latestFile (reminderData : ReminderData) : string :=
  backupStem reminderData ++ "_backup_latest" ++ Ext (DataFile reminderData).

(** The aggregate as [AutoBackup] persists it at time [now]. *)
Definition backedUpAt (now : Z) (reminderData : ReminderData) : ReminderData :=
  {| DataUser := DataUser reminderData; Notes := Notes reminderData;
     Tags := Tags reminderData; DataFile := DataFile reminderData;
     LastBackupAt := now; DataUpdatedAt := now |}.

(** The calls a caller can make on a note, and their effect in turn, each
    at its own clock reading. *)
Inductive NoteCall :=
| CallAddComment (text : string)
| CallUpdateText (text : string)
| CallUpdateCompleteBy (text : string)
| CallUpdateTags (tagIDs : list Z)
| CallUpdateStatus (status : string) (repeatTagIDs : list Z).

Definition callNote (now : Z) (call : NoteCall) (note : Note)
  : Note * option error :=
  match call with
  | CallAddComment text => AddComment now note text
  | CallUpdateText text => UpdateText now note text
  | CallUpdateCompleteBy text => UpdateCompleteBy now note text
  | CallUpdateTags tagIDs => UpdateTags now note tagIDs
  | CallUpdateStatus status repeatTagIDs =>
      UpdateStatus now note status repeatTagIDs
  end.

Fixpoint callsNote (calls : list (Z * NoteCall)) (note : Note) : Note :=
  match calls with
  | [] => note
  | (now, call) :: calls' => callsNote calls' (fst (callNote now call note))
  end.

(** The same calls made through the aggregate, on the note at a position of
    the store: the wrappers [AddNoteComment], [UpdateNoteText],
    [UpdateNoteCompleteBy], [UpdateNoteTags] and [UpdateNoteStatus] (which
    takes the ids of the "repeat" group from the registry itself). *)
Definition callAggregate (MarshalIndent : ReminderData -> string + error)
  (now : Z) (call : NoteCall) (reminderData : ReminderData) (ref : NoteRef)
  (w : World) : option (ReminderData * World * option error) :=
  match call with
  | CallAddComment text => AddNoteComment MarshalIndent now reminderData ref text w
  | CallUpdateText text => UpdateNoteText MarshalIndent now reminderData ref text w
  | CallUpdateCompleteBy text =>
      UpdateNoteCompleteBy MarshalIndent now reminderData ref text w
  | CallUpdateTags tagIDs => UpdateNoteTags MarshalIndent now reminderData ref tagIDs w
  | CallUpdateStatus status _ =>
      UpdateNoteStatus MarshalIndent now reminderData ref status w
  end.

(** The call as the wrapper makes it on the note. *)
Definition callOf (reminderData : ReminderData) (call : NoteCall) : NoteCall :=
  match call with
  | CallUpdateStatus status _ =>
      CallUpdateStatus status (TagIdsForGroup reminderData "repeat")
  | _ => call
  end.

(** The aggregate with its time of update set: what [UpdateDataFile] encodes. *)
Definition touched (now : Z) (reminderData : ReminderData) : ReminderData :=
  {| DataUser := DataUser reminderData; Notes := Notes reminderData;
     Tags := Tags reminderData; DataFile := DataFile reminderData;
     LastBackupAt := LastBackupAt reminderData; DataUpdatedAt := now |}.

(** A registry in good order: the ids are distinct and below the number of
    tags (so the number of tags is an id not in use), and the slugs are
    distinct and not empty once trimmed. *)
Definition registryOk (tags : list Tag) : Prop :=
  NoDup (map Id tags)
  /\ (forall tag, In tag tags -> 0 <= Id tag < len tags)
  /\ NoDup (map Slug tags)
  /\ (forall tag, In tag tags -> GoStrings.TrimSpace (Slug tag) <> "").

(** One operation on the aggregate and the file system, whatever it returns. *)
Inductive AggregateStep (MarshalIndent : ReminderData -> string + error)
  (ToLower : string -> string)
  : ReminderData * World -> ReminderData * World -> Prop :=
| StepRegisterBasicTags now rd w rd' w' err :
    RegisterBasicTags MarshalIndent now rd w = (rd', w', err) ->
    AggregateStep MarshalIndent ToLower (rd, w) (rd', w')
| StepNewTagRegistration now prompt rd w tagID err rd' w' :
    NewTagRegistration MarshalIndent ToLower now prompt rd w
    = (tagID, err, rd', w') ->
    AggregateStep MarshalIndent ToLower (rd, w) (rd', w')
| StepNewNoteRegistration now prompt tagIDs rd w note err rd' w' :
    NewNoteRegistration MarshalIndent now prompt rd tagIDs w
    = (note, err, rd', w') ->
    AggregateStep MarshalIndent ToLower (rd, w) (rd', w')
| StepNoteCall now call ref rd w rd' w' err :
    callAggregate MarshalIndent now call rd ref w = Some (rd', w', err) ->
    AggregateStep MarshalIndent ToLower (rd, w) (rd', w')
| StepAutoBackup now gapSecs rd w dstFile err rd' w' :
    AutoBackup MarshalIndent now rd gapSecs w = (dstFile, err, rd', w') ->
    AggregateStep MarshalIndent ToLower (rd, w) (rd', w').

(** The number a string of decimal digits stands for, read from the left
    with [acc] read so far. *)
Fixpoint readDigits (acc : Z) (s : string) : Z :=
  match s with
  | EmptyString => acc
  | String c s' => readDigits (acc * 10 + digitVal c) s'
  end.

(** The texts a pattern stands for. *)
Inductive Matches : GoRegexp.Regexp -> string -> Prop :=
| M_Empty : Matches GoRegexp.EmptyMatch ""
| M_Literal c : Matches (GoRegexp.Literal c) (String c "")
| M_Class lo hi c :
    GoRegexp.inClass lo hi c = true ->
    Matches (GoRegexp.CharClass lo hi) (String c "")
| M_Concat r1 r2 s1 s2 :
    Matches r1 s1 -> Matches r2 s2 -> Matches (GoRegexp.Concat r1 r2) (s1 ++ s2)
| M_Left r1 r2 s : Matches r1 s -> Matches (GoRegexp.Alternate r1 r2) s
| M_Right r1 r2 s : Matches r2 s -> Matches (GoRegexp.Alternate r1 r2) s
| M_None r : Matches (GoRegexp.Quest r) ""
| M_Some r s : Matches r s -> Matches (GoRegexp.Quest r) s.

(** The ways to write the day or the month [n] in a date: in decimal, and
    with a zero in front when it has one digit. *)
Definition numTexts (n : Z) : list string :=
  if n <? 10 then [itoa n; "0" ++ itoa n] else [itoa n].

(** What [getnum] reads from a text that goes on with a dash. *)
Definition readsNum (text : string) (n : Z) : Prop :=
  forall rest, getnum (text ++ String "-" rest) = Some (n, String "-" rest).

(* ================================================================= *)
(** ** Sample data *)

Module Sample.

Definition user : User := {| Name := "asha"; EmailId := "asha@example.org" |}.

Definition note (tagIds : list Z) (completeBy : Z) : Note :=
  {| Text := "Renew passport"; Comments := []; Status := "pending";
     TagIds := tagIds; CompleteBy := completeBy;
     CreatedAt := 1600000000; UpdatedAt := 1600000000 |}.

(** A store over the basic tags: "repeat-annually" has id 4 and
    "repeat-monthly" id 5, "current" id 0. *)
Definition data (notes : list Note) : ReminderData :=
  {| DataUser := user; Notes := notes; Tags := BasicTags 1600000000;
     DataFile := "/home/asha/reminder/data.json";
     LastBackupAt := 0; DataUpdatedAt := 1600000000 |}.

Definition annualTag : Tag :=
  {| Id := 4; Slug := "repeat-annually"; Group := "repeat";
     TagCreatedAt := 1600000000; TagUpdatedAt := 1600000000 |}.
Definition monthlyTag : Tag :=
  {| Id := 5; Slug := "repeat-monthly"; Group := "repeat";
     TagCreatedAt := 1600000000; TagUpdatedAt := 1600000000 |}.

(** A tag of the "repeat" group that is neither of the two recognised. *)
Definition weeklyTag : Tag :=
  {| Id := 7; Slug := "repeat-weekly"; Group := "repeat";
     TagCreatedAt := 1600000000; TagUpdatedAt := 1600000000 |}.

Definition dataWithWeekly (notes : list Note) : ReminderData :=
  {| DataUser := user; Notes := notes;
     Tags := (BasicTags 1600000000 ++ [weeklyTag])%list;
     DataFile := "/home/asha/reminder/data.json";
     LastBackupAt := 0; DataUpdatedAt := 1600000000 |}.


(** A stand-in for the JSON encoding, for the examples. *)
Definition marshal (reminderData : ReminderData) : string + error :=
  inl ("data_file=" ++ DataFile reminderData
       ++ ";last_backup_at=" ++ itoa (LastBackupAt reminderData)).

(** [strings.ToLower] on ASCII text, for the examples. *)
Definition lowerChar (c : ascii) : ascii :=
  let b := N_of_ascii c in
  if ((65 <=? b) && (b <=? 90))%N then ascii_of_N (b + 32) else c.

Fixpoint toLower (s : string) : string :=
  match s with
  | EmptyString => EmptyString
  | String c s' => String (lowerChar c) (toLower s')
  end.

(** A file system that holds the data file, and one in which the backup of
    time 1700000000 cannot be written. *)
Definition world : World :=
  {| files := {[ "/home/asha/reminder/data.json" := File "{}" ]};
     denied := ∅ |}.

Definition worldNoBackup : World :=
  {| files := {[ "/home/asha/reminder/data.json" := File "{}" ]};
     denied := {[ "/home/asha/reminder/data_backup_1700000000.json" ]} |}.

(** The user answers the slug prompt with [slug] and the group prompt with
    [group]. *)
Definition answers (slug group : string) : Prompt :=
  fun promptName _ =>
    if String.eqb promptName "tag_slug" then (slug, None) else (group, None).

End Sample.

(* ================================================================= *)
(** * Properties *)

(* ================================================================= *)
(** ** 64-bit arithmetic *)

Lemma wrap_id z : Int64.in_range z -> Int64.wrap z = z.
Proof.
  unfold Int64.in_range, Int64.wrap, Int64.min_int, Int64.max_int. intros H.
  rewrite Z.mod_small; lia.
Qed.

Lemma wrap_in_range z : Int64.in_range (Int64.wrap z).
Proof.
  unfold Int64.in_range, Int64.wrap, Int64.min_int, Int64.max_int.
  pose proof (Z.mod_pos_bound (z + 2 ^ 63) (2 ^ 64) ltac:(lia)). lia.
Qed.

(* ================================================================= *)
(** ** The library functions on sample inputs *)

Example zeroTime_unix : zeroTime = -62135596800.
Proof. reflexivity. Qed.
Example unixDate_2024_03_10 : unixDate 2024 3 10 = 1710028800.
Proof. reflexivity. Qed.
Example Date_1710028800 : Date 1710028800 = (2024, 3, 10).
Proof. reflexivity. Qed.
Example Date_leap_day : Date (unixDate 2024 2 29) = (2024, 2, 29).
Proof. reflexivity. Qed.
Example Date_dec31 : Date (unixDate 2023 12 31 + 86399) = (2023, 12, 31).
Proof. reflexivity. Qed.
Example Date_before_epoch : Date (-1) = (1969, 12, 31).
Proof. reflexivity. Qed.
Example itoa_neg : itoa (-42) = "-42".
Proof. reflexivity. Qed.
Example itoa_big : itoa 1710028800 = "1710028800".
Proof. reflexivity. Qed.
Example Parse_dmy : Parse layoutDMY "10-03-2024" = Some 1710028800.
Proof. reflexivity. Qed.
Example Parse_dmy_bad : Parse layoutDMY "31-02-2024" = None.
Proof. reflexivity. Qed.
Example Ext_json : Ext "/home/u/reminder/data.json" = ".json".
Proof. reflexivity. Qed.
Example Ext_none : Ext "/home/u.d/data" = "".
Proof. reflexivity. Qed.
Example TrimSpace_text : GoStrings.TrimSpace "  10-03-2024 " = "10-03-2024".
Proof. reflexivity. Qed.
Example TrimSpace_blank : GoStrings.TrimSpace "   " = "".
Proof. reflexivity. Qed.
Example current_year_projection :
  UnixTimestampForCorrespondingCurrentYear 1704412800 12 28 = unixDate 2024 12 28.
Proof. reflexivity. Qed.
Example current_month_projection :
  UnixTimestampForCorrespondingCurrentYearMonth 1710028800 15 = unixDate 2024 3 15.
Proof. reflexivity. Qed.
Example common_members : GetCommonMembersIntSlices [1; 4; 5] [5; 4; 4] = [4; 4; 5].
Proof. reflexivity. Qed.

(* ================================================================= *)
(** ** Slices and the selection loop *)

Section SliceFacts.

Lemma IntPresentInSlice_In a l : IntPresentInSlice a l = true <-> In a l.
Proof.
  induction l as [|b l IH]; simpl.
  - split; [discriminate | tauto].
  - destruct (Z.eqb_spec b a) as [->|Hne].
    + split; auto.
    + rewrite IH. split; [auto | intros [H|H]; [contradiction | exact H]].
Qed.

Lemma commonWith_In e1 arr2 : forall arr x,
  In x (commonWith e1 arr2 arr) <-> In x arr \/ (x = e1 /\ In e1 arr2).
Proof.
  induction arr2 as [|e2 arr2 IH]; intros arr x; simpl.
  - tauto.
  - rewrite IH. destruct (Z.eqb_spec e1 e2) as [->|Hne].
    + rewrite in_app_iff. simpl. intuition (subst; auto).
    + intuition (subst; auto). congruence.
Qed.

Lemma commonLoop_In arr2 : forall arr1 arr x,
  In x (commonLoop arr1 arr2 arr) <-> In x arr \/ (In x arr1 /\ In x arr2).
Proof.
  induction arr1 as [|e1 arr1 IH]; intros arr x; simpl.
  - tauto.
  - rewrite IH, commonWith_In. intuition (subst; auto).
Qed.

Lemma GetCommonMembersIntSlices_In arr1 arr2 x :
  In x (GetCommonMembersIntSlices arr1 arr2) <-> In x arr1 /\ In x arr2.
Proof.
  unfold GetCommonMembersIntSlices. rewrite commonLoop_In. simpl. tauto.
Qed.

Lemma len_zero {A} (l : list A) : (len l =? 0) = true <-> l = [].
Proof.
  unfold len. destruct l as [|a l].
  - split; reflexivity.
  - split; intros H; [apply Z.eqb_eq in H; simpl in H; lia | discriminate].
Qed.

Lemma len_pos {A} (l : list A) : (0 <? len l) = negb (len l =? 0).
Proof. unfold len. destruct l; reflexivity. Qed.

(** No common member: the two slices are disjoint. *)
Lemma GetCommonMembersIntSlices_nil arr1 arr2 :
  GetCommonMembersIntSlices arr1 arr2 = []
  <-> (forall x, In x arr1 -> ~ In x arr2).
Proof.
  split.
  - intros H x H1 H2.
    assert (Hx : In x (GetCommonMembersIntSlices arr1 arr2))
      by (apply GetCommonMembersIntSlices_In; auto).
    rewrite H in Hx. exact Hx.
  - intros H. destruct (GetCommonMembersIntSlices arr1 arr2) as [|x l] eqn:E;
      [reflexivity|].
    assert (Hx : In x (GetCommonMembersIntSlices arr1 arr2))
      by (rewrite E; left; reflexivity).
    apply GetCommonMembersIntSlices_In in Hx. destruct Hx as [H1 H2].
    destruct (H x H1 H2).
Qed.

Lemma WithStatus_In status notes n :
  In n (WithStatus status notes) <-> In n notes /\ Status n = status.
Proof.
  induction notes as [|m notes IH]; simpl.
  - tauto.
  - destruct (String.eqb_spec (Status m) status) as [E|E]; simpl; rewrite IH.
    + intuition (subst; auto).
    + intuition (subst; auto). contradiction.
Qed.

Lemma FromSlug_Some tags slug tag :
  FromSlug tags slug = Some tag -> In tag tags /\ Slug tag = slug.
Proof.
  induction tags as [|t tags IH]; simpl; [discriminate|].
  destruct (String.eqb_spec (Slug t) slug) as [E|E].
  - intros [= <-]. auto.
  - intros H. destruct (IH H). auto.
Qed.

Lemma IdsForGroup_In tags group i :
  In i (IdsForGroup tags group)
  <-> exists tag, In tag tags /\ Group tag = group /\ Id tag = i.
Proof.
  induction tags as [|t tags IH]; simpl.
  - split; [tauto | intros (tag & [] & _)].
  - destruct (String.eqb_spec (Group t) group) as [E|E]; simpl; rewrite IH.
    + split.
      * intros [H|(tag & H1 & H2 & H3)]; [exists t | exists tag]; auto.
      * intros (tag & [->|H1] & H2 & H3); [left | right; exists tag]; auto.
    + split.
      * intros (tag & H1 & H2 & H3). exists tag. auto.
      * intros (tag & [->|H1] & H2 & H3); [contradiction | exists tag; auto].
Qed.

End SliceFacts.

Section SelectionLoop.

Variable now : Z.
Variable reminderData : ReminderData.

Let step := dueDateStep now reminderData (TagIdsForGroup reminderData "repeat").

Lemma dueDateStep_In acc note n :
  In n (step acc note)
  <-> In n acc \/ (n = note /\ selectsNote now reminderData note = true).
Proof.
  unfold step, dueDateStep, selectsNote, hasRepeatTag, carriesSlug.
  rewrite len_pos.
  destruct (len _ =? 0); simpl;
    destruct (CompleteBy note =? 0); simpl;
    try destruct (TagFromSlug reminderData "repeat-annually") as [ta|];
    try destruct (TagFromSlug reminderData "repeat-monthly") as [tm|]; simpl;
    repeat match goal with
      | |- context [if ?b then _ else _] => destruct b; simpl
      end;
    repeat rewrite in_app_iff; simpl;
    intuition (subst; auto; try discriminate).
Qed.

Lemma dueDateLoop_In notes : forall acc n,
  In n (fold_left step notes acc)
  <-> In n acc
      \/ (In n notes /\ selectsNote now reminderData n = true).
Proof.
  induction notes as [|m notes IH]; intros acc n; simpl.
  - tauto.
  - rewrite IH, dueDateStep_In. intuition (subst; auto).
Qed.

(** A note is in the result exactly when it is a pending note of the
    store for which an iteration of the loop appends it. *)
Lemma NotesApprachingDueDate_In n :
  In n (NotesApprachingDueDate now reminderData)
  <-> In n (Notes reminderData) /\ Status n = "pending"
      /\ selectsNote now reminderData n = true.
Proof.
  unfold NotesApprachingDueDate. fold step.
  rewrite dueDateLoop_In, WithStatus_In. simpl. tauto.
Qed.

End SelectionLoop.

(* ================================================================= *)
(** ** Range of the parsed timestamps *)

Section ParseRange.

Lemma digitVal_range c : isDigit c = true -> 0 <= digitVal c <= 9.
Proof.
  unfold isDigit, digitVal. intros H.
  apply andb_true_iff in H. destruct H as [H1 H2].
  apply Z.leb_le in H1, H2. lia.
Qed.

Lemma getyear_range s y r : getyear s = Some (y, r) -> 0 <= y <= 9999.
Proof.
  unfold getyear.
  destruct s as [|c0 [|c1 [|c2 [|c3 s]]]]; try discriminate.
  destruct (isDigit c0) eqn:E0; [|discriminate].
  destruct (isDigit c1) eqn:E1; [|discriminate].
  destruct (isDigit c2) eqn:E2; [|discriminate].
  destruct (isDigit c3) eqn:E3; [|discriminate].
  simpl. intros [= <- _].
  pose proof (digitVal_range _ E0). pose proof (digitVal_range _ E1).
  pose proof (digitVal_range _ E2). pose proof (digitVal_range _ E3). lia.
Qed.

Lemma parseChunks_fieldsOk l : forall value f f' rest,
  fieldsOk f -> parseChunks l value f = Some (f', rest) -> fieldsOk f'.
Proof.
  induction l as [|[prefix std] l IH]; intros value f f' rest Hf; simpl.
  - intros [= <- _]. exact Hf.
  - destruct (skip value prefix) as [v|]; [|discriminate].
    destruct Hf as [Hy Hm]. destruct std.
    + destruct (getyear v) as [[y v']|] eqn:E; [|discriminate].
      apply IH. split; simpl; [eapply getyear_range; eauto | exact Hm].
    + destruct (getnum v) as [[m v']|]; [|discriminate].
      destruct ((m <=? 0) || (12 <? m)) eqn:E; [discriminate|].
      apply orb_false_iff in E. destruct E as [E1 E2].
      apply Z.leb_gt in E1. apply Z.ltb_ge in E2.
      apply IH. split; simpl; [exact Hy | right; lia].
    + destruct (getnum v) as [[d v']|]; [|discriminate].
      apply IH. split; simpl; assumption.
Qed.

Lemma daysBefore_month m :
  0 <= m <= 12 -> 0 <= daysBefore m <= 365.
Proof.
  intros H.
  assert (E : m = 0 \/ m = 1 \/ m = 2 \/ m = 3 \/ m = 4 \/ m = 5 \/ m = 6
              \/ m = 7 \/ m = 8 \/ m = 9 \/ m = 10 \/ m = 11 \/ m = 12) by lia.
  repeat (destruct E as [->|E]; [vm_compute; split; discriminate|]).
  subst; vm_compute; split; discriminate.
Qed.

Lemma daysIn_le_31 m year : 1 <= m <= 12 -> daysIn m year <= 31.
Proof.
  intros H. unfold daysIn.
  destruct ((m =? 2) && isLeap year); [lia|].
  assert (E : m = 1 \/ m = 2 \/ m = 3 \/ m = 4 \/ m = 5 \/ m = 6
              \/ m = 7 \/ m = 8 \/ m = 9 \/ m = 10 \/ m = 11 \/ m = 12) by lia.
  repeat (destruct E as [->|E]; [vm_compute; discriminate|]).
  subst; vm_compute; discriminate.
Qed.

Lemma daysSinceYear1_range year :
  0 <= year <= 9999 -> -366 <= daysSinceYear1 year <= 3651695.
Proof.
  intros H. unfold daysSinceYear1. cbv zeta.
  pose proof (Z.div_mod (year - 1) 400 ltac:(lia)).
  pose proof (Z.mod_pos_bound (year - 1) 400 ltac:(lia)).
  set (q1 := (year - 1) / 400) in *.
  pose proof (Z.div_mod (year - 1 - 400 * q1) 100 ltac:(lia)).
  pose proof (Z.mod_pos_bound (year - 1 - 400 * q1) 100 ltac:(lia)).
  set (q2 := (year - 1 - 400 * q1) / 100) in *.
  pose proof (Z.div_mod (year - 1 - 400 * q1 - 100 * q2) 4 ltac:(lia)).
  pose proof (Z.mod_pos_bound (year - 1 - 400 * q1 - 100 * q2) 4 ltac:(lia)).
  set (q3 := (year - 1 - 400 * q1 - 100 * q2) / 4) in *.
  lia.
Qed.

Lemma unixDate_range year month day :
  0 <= year <= 9999 -> 1 <= month <= 12 -> 1 <= day <= 31 ->
  -274877906944 <= unixDate year month day <= 274877906944.
Proof.
  intros Hy Hm Hd. unfold unixDate, unixEpochDays, secondsPerDay. cbv zeta.
  pose proof (daysSinceYear1_range year Hy).
  pose proof (daysBefore_month (month - 1) ltac:(lia)).
  assert (daysBefore (month - 1) <= 334).
  { assert (E : month = 1 \/ month = 2 \/ month = 3 \/ month = 4 \/ month = 5
                \/ month = 6 \/ month = 7 \/ month = 8 \/ month = 9
                \/ month = 10 \/ month = 11 \/ month = 12) by lia.
    repeat (destruct E as [->|E]; [vm_compute; discriminate|]).
    subst; vm_compute; discriminate. }
  destruct (isLeap year && (3 <=? month)); lia.
Qed.

Lemma Parse_range l value t :
  Parse l value = Some t -> -274877906944 <= t <= 274877906944.
Proof.
  unfold Parse.
  destruct (parseChunks l value noFields) as [[f rest]|] eqn:E; [|discriminate].
  destruct rest; [|discriminate].
  assert (Hf : fieldsOk f).
  { eapply parseChunks_fieldsOk; [|exact E].
    split; simpl; [lia | left; reflexivity]. }
  destruct Hf as [Hy Hm].
  set (month := if f_month f <? 0 then 1 else f_month f).
  assert (Hmonth : 1 <= month <= 12).
  { subst month. destruct (Z.ltb_spec (f_month f) 0); lia. }
  destruct ((_ <? 1) || _) eqn:Ed; [discriminate|].
  apply orb_false_iff in Ed. destruct Ed as [E1 E2].
  apply Z.ltb_ge in E1, E2.
  pose proof (daysIn_le_31 month (f_year f) Hmonth).
  intros [= <-]. apply unixDate_range; lia.
Qed.

Lemma ParseOrZero_range l value :
  -274877906944 <= ParseOrZero l value <= 274877906944.
Proof.
  unfold ParseOrZero. destruct (Parse l value) as [t|] eqn:E.
  - eapply Parse_range; eauto.
  - vm_compute. split; discriminate.
Qed.

End ParseRange.

(* ================================================================= *)
(** ** Recurrence windows *)

Section Windows.

Lemma current_year_range now month day :
  -274877906944
  <= UnixTimestampForCorrespondingCurrentYear now month day <= 274877906944.
Proof.
  unfold UnixTimestampForCorrespondingCurrentYear.
  destruct (Date now) as [[y m] d]. apply ParseOrZero_range.
Qed.

Lemma current_month_range now day :
  -274877906944
  <= UnixTimestampForCorrespondingCurrentYearMonth now day <= 274877906944.
Proof.
  unfold UnixTimestampForCorrespondingCurrentYearMonth.
  destruct (Date now) as [[y m] d]. apply ParseOrZero_range.
Qed.

Lemma int64_small z : -1099511627776 <= z <= 1099511627776 -> Int64.wrap z = z.
Proof.
  intros H. apply wrap_id.
  unfold Int64.in_range, Int64.min_int, Int64.max_int. lia.
Qed.

(** On timestamps of the size the parser produces, and windows of at most
    a year, the 64-bit arithmetic of [IsTimeForRepeatNote] is exact. *)
Lemma IsTimeForRepeatNote_spec now current previous next daysBefore daysAfter :
  -549755813888 <= current <= 549755813888 ->
  -549755813888 <= previous <= 549755813888 ->
  -549755813888 <= next <= 549755813888 ->
  0 <= daysBefore <= 366 -> 0 <= daysAfter <= 366 ->
  IsTimeForRepeatNote now current previous next daysBefore daysAfter = true
  <-> inWindow now current daysBefore daysAfter
      \/ inWindow now previous daysBefore daysAfter
      \/ inWindow now next daysBefore daysAfter.
Proof.
  intros Hc Hp Hn Hb Ha. unfold IsTimeForRepeatNote, inWindow.
  unfold Int64.sub, Int64.add, Int64.mul.
  change (24 * 60 * 60) with 86400.
  rewrite !(int64_small (daysBefore * 86400)) by lia.
  rewrite !(int64_small (daysAfter * 86400)) by lia.
  rewrite !int64_small by lia.
  rewrite !orb_true_iff, !andb_true_iff, !Z.leb_le. tauto.
Qed.

Lemma annualCheck_spec now note :
  annualCheck now note = true
  <-> exists occurrence,
        In occurrence (annualOccurrences now note)
        /\ inWindow now occurrence 3 7.
Proof.
  unfold annualCheck, annualOccurrences, dueMonth, dueDay.
  destruct (Date (UnixTimestampToTime (CompleteBy note))) as [[y m] d].
  pose proof (current_year_range now m d) as Hr.
  set (current := UnixTimestampForCorrespondingCurrentYear now m d) in *.
  unfold Int64.sub, Int64.add. change (365 * 24 * 60 * 60) with (365 * 86400).
  rewrite !int64_small by lia.
  rewrite IsTimeForRepeatNote_spec by lia.
  split.
  - intros [H|[H|H]]; eexists; (split; [|exact H]); simpl; auto.
  - intros (occ & [<-|[<-|[<-|[]]]] & H); auto.
Qed.

Lemma monthlyCheck_spec now note :
  monthlyCheck now note = true
  <-> exists occurrence,
        In occurrence (monthlyOccurrences now note)
        /\ inWindow now occurrence 1 3.
Proof.
  unfold monthlyCheck, monthlyOccurrences, dueDay.
  destruct (Date (UnixTimestampToTime (CompleteBy note))) as [[y m] d].
  pose proof (current_month_range now d) as Hr.
  set (current := UnixTimestampForCorrespondingCurrentYearMonth now d) in *.
  unfold Int64.sub, Int64.add. change (30 * 24 * 60 * 60) with (30 * 86400).
  rewrite !int64_small by lia.
  rewrite IsTimeForRepeatNote_spec by lia.
  split.
  - intros [H|[H|H]]; eexists; (split; [|exact H]); simpl; auto.
  - intros (occ & [<-|[<-|[<-|[]]]] & H); auto.
Qed.

(** A tag of the "repeat" group among the tags of the note. *)
Lemma hasRepeatTag_intro reminderData note tag :
  In tag (Tags reminderData) -> Group tag = "repeat" ->
  In (Id tag) (TagIds note) -> hasRepeatTag reminderData note = true.
Proof.
  intros Ht Hg Hi. unfold hasRepeatTag. rewrite len_pos.
  apply negb_true_iff. apply not_true_is_false. intros E.
  apply len_zero in E.
  apply (proj1 (GetCommonMembersIntSlices_nil _ _) E (Id tag) Hi).
  unfold TagIdsForGroup. apply IdsForGroup_In. exists tag. auto.
Qed.

Lemma hasRepeatTag_false reminderData note :
  hasRepeatTag reminderData note = false
  <-> (forall i, In i (TagIds note) ->
                 ~ In i (TagIdsForGroup reminderData "repeat")).
Proof.
  unfold hasRepeatTag. rewrite len_pos, negb_false_iff, len_zero.
  apply GetCommonMembersIntSlices_nil.
Qed.

Lemma carriesSlug_true reminderData slug note :
  carriesSlug reminderData slug note = true
  <-> exists tag, TagFromSlug reminderData slug = Some tag
                  /\ In (Id tag) (TagIds note).
Proof.
  unfold carriesSlug. destruct (TagFromSlug reminderData slug) as [t|].
  - rewrite IntPresentInSlice_In. split.
    + intros H. exists t. auto.
    + intros (t' & [= <-] & H). exact H.
  - split; [discriminate | intros (t' & [=] & _)].
Qed.

End Windows.

(* ================================================================= *)
(** ** The selection on sample data *)

Example basic_tags_annual :
  TagFromSlug (Sample.data []) "repeat-annually" = Some Sample.annualTag.
Proof. reflexivity. Qed.
Example basic_tags_repeat_ids : TagIdsForGroup (Sample.data []) "repeat" = [4; 5].
Proof. reflexivity. Qed.

(** The scenario of the specification: due March 10 of a past year, tagged
    "repeat-annually"; the window runs from March 7, 00:00:00 to March 17,
    00:00:00 of the current year. *)
Example annual_march_10 :
  let n := Sample.note [0; 4] (unixDate 2019 3 10) in
  let rd := Sample.data [n] in
  NotesApprachingDueDate (unixDate 2024 3 8) rd = [n]
  /\ NotesApprachingDueDate (unixDate 2024 3 17) rd = [n]
  /\ NotesApprachingDueDate (unixDate 2024 3 7) rd = [n]
  /\ NotesApprachingDueDate (unixDate 2024 3 7 - 1) rd = []
  /\ NotesApprachingDueDate (unixDate 2024 3 4) rd = []
  /\ NotesApprachingDueDate (unixDate 2024 3 17 + 1) rd = []
  /\ NotesApprachingDueDate (unixDate 2024 3 18) rd = [].
Proof. vm_compute. repeat split. Qed.

Example monthly_day_15 :
  let n := Sample.note [5] (unixDate 2019 3 15) in
  let rd := Sample.data [n] in
  NotesApprachingDueDate (unixDate 2024 6 14) rd = [n]
  /\ NotesApprachingDueDate (unixDate 2024 6 18) rd = [n]
  /\ NotesApprachingDueDate (unixDate 2024 6 10) rd = []
  /\ NotesApprachingDueDate (unixDate 2024 6 20) rd = [].
Proof. vm_compute. repeat split. Qed.

Example plain_due_date :
  let n := Sample.note [0] (unixDate 2024 3 10) in
  let rd := Sample.data [n] in
  NotesApprachingDueDate (unixDate 2024 3 3) rd = [n]
  /\ NotesApprachingDueDate (unixDate 2024 3 3 - 1) rd = []
  /\ NotesApprachingDueDate (unixDate 2024 3 10 + 1000 * 86400) rd = [n].
Proof. vm_compute. repeat split. Qed.

(** A note that passes both recurrence checks is appended twice. *)
Example both_checks_append_twice :
  let n := Sample.note [4; 5] (unixDate 2019 3 10) in
  NotesApprachingDueDate (unixDate 2024 3 10) (Sample.data [n]) = [n; n].
Proof. vm_compute. reflexivity. Qed.

(* ================================================================= *)
(** ** Annual recurrence *)

Lemma current_year_is_occurrence now month day :
  UnixTimestampForCorrespondingCurrentYear now month day
  = occurrenceInYear (currentYear now) month day.
Proof.
  unfold UnixTimestampForCorrespondingCurrentYear, occurrenceInYear, currentYear.
  destruct (Date now) as [[y m] d]. reflexivity.
Qed.

(** C1, as stated, fails: the previous and the next occurrence are the
    current one minus and plus 365 days, not the same month and day of the
    previous and the next calendar year. Due December 28, read on
    January 5, 2024, 00:00:00 UTC: the occurrence of 2024 is December 28,
    2024, and 365 days before it is December 29, 2023 (2024 is a leap
    year), whose window ends on January 5; the window of December 28, 2023
    ended on January 4. The note is selected, and the clock is in no window
    of the three calendar occurrences. *)
Lemma annual_calendar_projection_counterexample :
  let now := unixDate 2024 1 5 in
  let note := Sample.note [4] (unixDate 2020 12 28) in
  let rd := Sample.data [note] in
  (In note (Notes rd) /\ Status note = "pending" /\ CompleteBy note <> 0
   /\ TagFromSlug rd "repeat-annually" = Some Sample.annualTag
   /\ In (Id Sample.annualTag) (TagIds note))
  /\ calendarAnnualOccurrences now note
     = [unixDate 2023 12 28; unixDate 2024 12 28; unixDate 2025 12 28]
  /\ In note (NotesApprachingDueDate now rd)
  /\ ~ (exists occurrence,
          In occurrence (calendarAnnualOccurrences now note)
          /\ inWindow now occurrence 3 7).
Proof.
  cbv zeta. split; [|split; [|split]].
  - repeat split; try (vm_compute; auto; fail).
    vm_compute. discriminate.
  - vm_compute. reflexivity.
  - vm_compute. left. reflexivity.
  - intros (occ & Hin & Hw).
    assert (E : calendarAnnualOccurrences (unixDate 2024 1 5)
                  (Sample.note [4] (unixDate 2020 12 28))
                = [1703721600; 1735344000; 1766880000]) by (vm_compute; reflexivity).
    rewrite E in Hin. unfold inWindow in Hw.
    change (unixDate 2024 1 5) with 1704412800 in Hw.
    simpl in Hin. destruct Hin as [<-|[<-|[<-|[]]]]; lia.
Qed.

(** The other way C1 fails: a note that carries "repeat-monthly" as well is
    also selected by the monthly check. Due March 10, read on June 10. *)
Lemma annual_with_monthly_counterexample :
  let now := unixDate 2024 6 10 in
  let note := Sample.note [4; 5] (unixDate 2020 3 10) in
  let rd := Sample.data [note] in
  In note (NotesApprachingDueDate now rd)
  /\ ~ (exists occurrence,
          In occurrence (annualOccurrences now note)
          /\ inWindow now occurrence 3 7).
Proof.
  cbv zeta. split.
  - vm_compute. left. reflexivity.
  - intros (occ & Hin & Hw).
    assert (E : annualOccurrences (unixDate 2024 6 10)
                  (Sample.note [4; 5] (unixDate 2020 3 10))
                = [1710028800; 1678492800; 1741564800]) by (vm_compute; reflexivity).
    rewrite E in Hin. unfold inWindow in Hw.
    change (unixDate 2024 6 10) with 1717977600 in Hw.
    simpl in Hin. destruct Hin as [<-|[<-|[<-|[]]]]; lia.
Qed.

(** Selection of a note that carries a tag of the "repeat" group. *)
Lemma repeat_note_selected now reminderData note :
  In note (Notes reminderData) -> Status note = "pending" ->
  CompleteBy note <> 0 -> hasRepeatTag reminderData note = true ->
  In note (NotesApprachingDueDate now reminderData)
  <-> (carriesSlug reminderData "repeat-annually" note = true
       /\ exists occurrence,
            In occurrence (annualOccurrences now note)
            /\ inWindow now occurrence 3 7)
      \/ (carriesSlug reminderData "repeat-monthly" note = true
          /\ exists occurrence,
               In occurrence (monthlyOccurrences now note)
               /\ inWindow now occurrence 1 3).
Proof.
  intros Hin Hst Hcb Hrep.
  rewrite NotesApprachingDueDate_In. unfold selectsNote. rewrite Hrep.
  apply Z.eqb_neq in Hcb. rewrite Hcb. simpl.
  rewrite orb_true_iff, !andb_true_iff, annualCheck_spec, monthlyCheck_spec.
  tauto.
Qed.

(** C1, amended: a pending note with a due date that carries the
    "repeat-annually" tag (a tag of the "repeat" group) is selected exactly
    when the clock lies within 3 days before and 7 days after one of three
    occurrences: the month and day of the due date in the current year,
    that timestamp minus 365 days, and that timestamp plus 365 days; or,
    when the note carries "repeat-monthly" as well, when the monthly check
    selects it. *)
Theorem annual_recurrence_visibility now reminderData note tag :
  In note (Notes reminderData) -> Status note = "pending" ->
  CompleteBy note <> 0 ->
  TagFromSlug reminderData "repeat-annually" = Some tag ->
  Group tag = "repeat" -> In (Id tag) (TagIds note) ->
  In note (NotesApprachingDueDate now reminderData)
  <-> (exists occurrence,
         In occurrence
           [occurrenceInYear (currentYear now) (dueMonth note) (dueDay note);
            occurrenceInYear (currentYear now) (dueMonth note) (dueDay note)
            - 365 * 86400;
            occurrenceInYear (currentYear now) (dueMonth note) (dueDay note)
            + 365 * 86400]
         /\ inWindow now occurrence 3 7)
      \/ (carriesSlug reminderData "repeat-monthly" note = true
          /\ exists occurrence,
               In occurrence (monthlyOccurrences now note)
               /\ inWindow now occurrence 1 3).
Proof.
  intros Hin Hst Hcb Htag Hg Hid.
  assert (Hrep : hasRepeatTag reminderData note = true).
  { apply (hasRepeatTag_intro reminderData note tag); auto.
    apply (FromSlug_Some _ _ _ Htag). }
  assert (Hc : carriesSlug reminderData "repeat-annually" note = true).
  { apply carriesSlug_true. exists tag. auto. }
  rewrite (repeat_note_selected now reminderData note Hin Hst Hcb Hrep).
  rewrite <- current_year_is_occurrence.
  change [UnixTimestampForCorrespondingCurrentYear now (dueMonth note) (dueDay note);
          UnixTimestampForCorrespondingCurrentYear now (dueMonth note) (dueDay note)
          - 365 * 86400;
          UnixTimestampForCorrespondingCurrentYear now (dueMonth note) (dueDay note)
          + 365 * 86400]
    with (annualOccurrences now note).
  tauto.
Qed.

Lemma annual_recurrence_visibility_witness :
  let now := unixDate 2024 1 5 in
  let note := Sample.note [4] (unixDate 2020 12 28) in
  let rd := Sample.data [note] in
  In note (NotesApprachingDueDate now rd)
  <-> (exists occurrence,
         In occurrence
           [occurrenceInYear (currentYear now) (dueMonth note) (dueDay note);
            occurrenceInYear (currentYear now) (dueMonth note) (dueDay note)
            - 365 * 86400;
            occurrenceInYear (currentYear now) (dueMonth note) (dueDay note)
            + 365 * 86400]
         /\ inWindow now occurrence 3 7)
      \/ (carriesSlug rd "repeat-monthly" note = true
          /\ exists occurrence,
               In occurrence (monthlyOccurrences now note)
               /\ inWindow now occurrence 1 3).
Proof.
  cbv zeta.
  apply (annual_recurrence_visibility _ _ _ Sample.annualTag).
  - simpl. left. reflexivity.
  - reflexivity.
  - vm_compute. discriminate.
  - reflexivity.
  - reflexivity.
  - simpl. left. reflexivity.
Defined.

(* ================================================================= *)
(** ** Monthly recurrence *)

Lemma current_month_is_occurrence now day :
  UnixTimestampForCorrespondingCurrentYearMonth now day
  = occurrenceInYear (currentYear now) (currentMonth now) day.
Proof.
  unfold UnixTimestampForCorrespondingCurrentYearMonth, occurrenceInYear,
    currentYear, currentMonth.
  destruct (Date now) as [[y m] d]. reflexivity.
Qed.

(** C2, as stated, fails on a note that carries "repeat-annually" as well:
    the annual check selects it outside the monthly windows. Due March 10,
    read on March 15, 2024, 12:00:00 UTC: the monthly windows are March 9 to
    13, February 8 to 12 and April 8 to 12; the annual window of March 10
    runs to March 17. *)
Lemma monthly_with_annual_counterexample :
  let now := unixDate 2024 3 15 + 43200 in
  let note := Sample.note [4; 5] (unixDate 2020 3 10) in
  let rd := Sample.data [note] in
  (In note (Notes rd) /\ Status note = "pending" /\ CompleteBy note <> 0
   /\ TagFromSlug rd "repeat-monthly" = Some Sample.monthlyTag
   /\ In (Id Sample.monthlyTag) (TagIds note))
  /\ monthlyOccurrences now note
     = [unixDate 2024 3 10; unixDate 2024 3 10 - 30 * 86400;
        unixDate 2024 3 10 + 30 * 86400]
  /\ In note (NotesApprachingDueDate now rd)
  /\ ~ (exists occurrence,
          In occurrence (monthlyOccurrences now note)
          /\ inWindow now occurrence 1 3).
Proof.
  cbv zeta. split; [|split; [|split]].
  - repeat split; try (vm_compute; auto; fail).
    vm_compute. discriminate.
  - vm_compute. reflexivity.
  - vm_compute. left. reflexivity.
  - intros (occ & Hin & Hw).
    assert (E : monthlyOccurrences (unixDate 2024 3 15 + 43200)
                  (Sample.note [4; 5] (unixDate 2020 3 10))
                = [1710028800; 1707436800; 1712620800]) by (vm_compute; reflexivity).
    rewrite E in Hin. unfold inWindow in Hw.
    change (unixDate 2024 3 15 + 43200) with 1710504000 in Hw.
    simpl in Hin. destruct Hin as [<-|[<-|[<-|[]]]]; lia.
Qed.

(** C2, amended: a pending note with a due date that carries the
    "repeat-monthly" tag (a tag of the "repeat" group) is selected exactly
    when the clock lies within 1 day before and 3 days after one of three
    occurrences: the day of month of the due date in the current month,
    that timestamp minus 30 days, and that timestamp plus 30 days; or, when
    the note carries "repeat-annually" as well, when the annual check
    selects it. *)
Theorem monthly_recurrence_visibility now reminderData note tag :
  In note (Notes reminderData) -> Status note = "pending" ->
  CompleteBy note <> 0 ->
  TagFromSlug reminderData "repeat-monthly" = Some tag ->
  Group tag = "repeat" -> In (Id tag) (TagIds note) ->
  In note (NotesApprachingDueDate now reminderData)
  <-> (exists occurrence,
         In occurrence
           [occurrenceInYear (currentYear now) (currentMonth now) (dueDay note);
            occurrenceInYear (currentYear now) (currentMonth now) (dueDay note)
            - 30 * 86400;
            occurrenceInYear (currentYear now) (currentMonth now) (dueDay note)
            + 30 * 86400]
         /\ inWindow now occurrence 1 3)
      \/ (carriesSlug reminderData "repeat-annually" note = true
          /\ exists occurrence,
               In occurrence (annualOccurrences now note)
               /\ inWindow now occurrence 3 7).
Proof.
  intros Hin Hst Hcb Htag Hg Hid.
  assert (Hrep : hasRepeatTag reminderData note = true).
  { apply (hasRepeatTag_intro reminderData note tag); auto.
    apply (FromSlug_Some _ _ _ Htag). }
  assert (Hc : carriesSlug reminderData "repeat-monthly" note = true).
  { apply carriesSlug_true. exists tag. auto. }
  rewrite (repeat_note_selected now reminderData note Hin Hst Hcb Hrep).
  rewrite <- current_month_is_occurrence.
  change [UnixTimestampForCorrespondingCurrentYearMonth now (dueDay note);
          UnixTimestampForCorrespondingCurrentYearMonth now (dueDay note)
          - 30 * 86400;
          UnixTimestampForCorrespondingCurrentYearMonth now (dueDay note)
          + 30 * 86400]
    with (monthlyOccurrences now note).
  tauto.
Qed.

Lemma monthly_recurrence_visibility_witness :
  let now := unixDate 2024 6 14 in
  let note := Sample.note [5] (unixDate 2019 3 15) in
  let rd := Sample.data [note] in
  In note (NotesApprachingDueDate now rd)
  <-> (exists occurrence,
         In occurrence
           [occurrenceInYear (currentYear now) (currentMonth now) (dueDay note);
            occurrenceInYear (currentYear now) (currentMonth now) (dueDay note)
            - 30 * 86400;
            occurrenceInYear (currentYear now) (currentMonth now) (dueDay note)
            + 30 * 86400]
         /\ inWindow now occurrence 1 3)
      \/ (carriesSlug rd "repeat-annually" note = true
          /\ exists occurrence,
               In occurrence (annualOccurrences now note)
               /\ inWindow now occurrence 3 7).
Proof.
  cbv zeta.
  apply (monthly_recurrence_visibility _ _ _ Sample.monthlyTag).
  - simpl. left. reflexivity.
  - reflexivity.
  - vm_compute. discriminate.
  - reflexivity.
  - reflexivity.
  - simpl. left. reflexivity.
Defined.

(* ================================================================= *)
(** ** Plain due dates, and notes that are never selected *)

(** C3: a pending note with a due date and no tag of the "repeat" group is
    selected exactly when the clock has reached the due date minus 7 days.
    The subtraction is the program's, on 64-bit integers; it is the
    subtraction of integers for every due date at least 7 days above the
    least 64-bit integer. There is no upper bound: once selected, the note
    is selected at every later time. *)
Theorem plain_due_date_visibility now reminderData note :
  In note (Notes reminderData) -> Status note = "pending" ->
  CompleteBy note <> 0 ->
  (forall i, In i (TagIds note) ->
             ~ In i (TagIdsForGroup reminderData "repeat")) ->
  (In note (NotesApprachingDueDate now reminderData)
   <-> Int64.sub (CompleteBy note) (7 * 86400) <= now)
  /\ (Int64.min_int + 7 * 86400 <= CompleteBy note <= Int64.max_int ->
      (In note (NotesApprachingDueDate now reminderData)
       <-> CompleteBy note - 7 * 86400 <= now))
  /\ (forall later, now <= later ->
      In note (NotesApprachingDueDate now reminderData) ->
      In note (NotesApprachingDueDate later reminderData)).
Proof.
  intros Hin Hst Hcb Hno.
  apply hasRepeatTag_false in Hno. apply Z.eqb_neq in Hcb.
  assert (Hsel : forall t,
    In note (NotesApprachingDueDate t reminderData)
    <-> Int64.sub (CompleteBy note) (7 * 86400) <= t).
  { intros t. rewrite NotesApprachingDueDate_In. unfold selectsNote.
    rewrite Hno, Hcb. simpl. change (7 * 24 * 60 * 60) with (7 * 86400).
    rewrite Z.leb_le. tauto. }
  split; [apply Hsel | split].
  - intros Hr. rewrite Hsel. unfold Int64.sub.
    rewrite wrap_id; [tauto|].
    unfold Int64.in_range, Int64.min_int, Int64.max_int in *. lia.
  - intros later Hle H. apply Hsel. apply Hsel in H. lia.
Qed.

Lemma plain_due_date_visibility_witness :
  let T := unixDate 2024 3 10 in
  let note := Sample.note [0] T in
  let rd := Sample.data [note] in
  In note (NotesApprachingDueDate (T - 7 * 86400) rd)
  /\ In note (NotesApprachingDueDate (T + 1000 * 86400) rd)
  /\ ~ In note (NotesApprachingDueDate (T - 7 * 86400 - 1) rd).
Proof.
  cbv zeta.
  assert (H : forall now,
    In (Sample.note [0] (unixDate 2024 3 10))
       (NotesApprachingDueDate now
          (Sample.data [Sample.note [0] (unixDate 2024 3 10)]))
    <-> CompleteBy (Sample.note [0] (unixDate 2024 3 10)) - 7 * 86400 <= now).
  { intros now.
    refine (proj1 (proj2 (plain_due_date_visibility now
             (Sample.data [Sample.note [0] (unixDate 2024 3 10)])
             (Sample.note [0] (unixDate 2024 3 10)) _ _ _ _)) _).
    - simpl. left. reflexivity.
    - reflexivity.
    - vm_compute. discriminate.
    - intros i Hi Hr. simpl in Hi. destruct Hi as [<-|[]].
      vm_compute in Hr. destruct Hr as [Hr|[Hr|[]]]; discriminate.
    - vm_compute. split; discriminate. }
  change (CompleteBy (Sample.note [0] (unixDate 2024 3 10))) with 1710028800 in H.
  change (unixDate 2024 3 10) with 1710028800.
  split; [|split].
  - apply H. lia.
  - apply H. lia.
  - intros C. apply H in C. lia.
Defined.

(** C4: a note without a due date is never selected, whatever its tags,
    its status and the clock. *)
Theorem no_due_date_never_selected now reminderData note :
  CompleteBy note = 0 -> ~ In note (NotesApprachingDueDate now reminderData).
Proof.
  intros H0 Hin. apply NotesApprachingDueDate_In in Hin.
  destruct Hin as (_ & _ & Hsel). unfold selectsNote in Hsel.
  rewrite H0 in Hsel. discriminate.
Qed.

Lemma no_due_date_never_selected_witness :
  let note := Sample.note [4; 5] 0 in
  ~ In note (NotesApprachingDueDate (unixDate 2024 3 10) (Sample.data [note])).
Proof.
  cbv zeta. apply no_due_date_never_selected. reflexivity.
Defined.

(** C9: a pending note with a due date that carries a tag of the "repeat"
    group, but the id of neither the "repeat-annually" nor the
    "repeat-monthly" tag, is never selected. *)
Theorem other_repeat_tag_never_selected now reminderData note i :
  Status note = "pending" -> CompleteBy note <> 0 ->
  In i (TagIds note) -> In i (TagIdsForGroup reminderData "repeat") ->
  (forall tag, TagFromSlug reminderData "repeat-annually" = Some tag ->
               ~ In (Id tag) (TagIds note)) ->
  (forall tag, TagFromSlug reminderData "repeat-monthly" = Some tag ->
               ~ In (Id tag) (TagIds note)) ->
  ~ In note (NotesApprachingDueDate now reminderData).
Proof.
  intros _ _ Hi Hr Ha Hm Hin. apply NotesApprachingDueDate_In in Hin.
  destruct Hin as (_ & _ & Hsel). unfold selectsNote in Hsel.
  assert (Hrep : hasRepeatTag reminderData note = true).
  { destruct (hasRepeatTag reminderData note) eqn:E; [reflexivity|].
    destruct (proj1 (hasRepeatTag_false _ _) E i Hi Hr). }
  assert (Hna : carriesSlug reminderData "repeat-annually" note = false).
  { apply not_true_is_false. intros C. apply carriesSlug_true in C.
    destruct C as (tag & Ht & Hc). exact (Ha tag Ht Hc). }
  assert (Hnm : carriesSlug reminderData "repeat-monthly" note = false).
  { apply not_true_is_false. intros C. apply carriesSlug_true in C.
    destruct C as (tag & Ht & Hc). exact (Hm tag Ht Hc). }
  rewrite Hrep, Hna, Hnm in Hsel. simpl in Hsel.
  rewrite andb_false_r in Hsel. discriminate.
Qed.

Lemma other_repeat_tag_never_selected_witness :
  let note := Sample.note [0; 7] (unixDate 2024 3 10) in
  ~ In note (NotesApprachingDueDate (unixDate 2024 3 10)
               (Sample.dataWithWeekly [note])).
Proof.
  cbv zeta.
  apply (other_repeat_tag_never_selected _ _ _ 7).
  - reflexivity.
  - vm_compute. discriminate.
  - simpl. right. left. reflexivity.
  - vm_compute. right. right. left. reflexivity.
  - intros tag [= <-]. simpl. intros [H|[H|[]]]; discriminate.
  - intros tag [= <-]. simpl. intros [H|[H|[]]]; discriminate.
Defined.

(* ================================================================= *)
(** ** Printing an integer and reading it back *)

Section Printing.

Lemma digitChar_isDigit k : 0 <= k <= 9 -> isDigit (digitChar k) = true.
Proof.
  intros H.
  assert (E : k = 0 \/ k = 1 \/ k = 2 \/ k = 3 \/ k = 4 \/ k = 5 \/ k = 6
              \/ k = 7 \/ k = 8 \/ k = 9) by lia.
  repeat (destruct E as [->|E]; [reflexivity|]). subst. reflexivity.
Qed.

Lemma digitVal_digitChar k : 0 <= k <= 9 -> digitVal (digitChar k) = k.
Proof.
  intros H.
  assert (E : k = 0 \/ k = 1 \/ k = 2 \/ k = 3 \/ k = 4 \/ k = 5 \/ k = 6
              \/ k = 7 \/ k = 8 \/ k = 9) by lia.
  repeat (destruct E as [->|E]; [reflexivity|]). subst. reflexivity.
Qed.

Lemma append_String a (s t : string) :
  (String a s ++ t)%string = String a (s ++ t)%string.
Proof. reflexivity. Qed.

Lemma append_empty (t : string) : ("" ++ t)%string = t.
Proof. reflexivity. Qed.

Lemma append_snoc s c acc :
  ((s ++ String c "") ++ acc)%string = (s ++ String c acc)%string.
Proof.
  induction s as [|a s IH].
  - reflexivity.
  - rewrite !append_String. f_equal. exact IH.
Qed.

Lemma formatBits_acc fuel : forall n acc,
  formatBits fuel n acc = (formatBits fuel n "" ++ acc)%string.
Proof.
  induction fuel as [|fuel IH]; intros n acc; simpl.
  - reflexivity.
  - destruct (n <? 10); [reflexivity|].
    rewrite (IH (n / 10) (String (digitChar (n mod 10)) acc)).
    rewrite (IH (n / 10) (String (digitChar (n mod 10)) "")).
    symmetry. apply append_snoc.
Qed.

(** The digits do not depend on the fuel, once there is enough of it. *)
Lemma formatBits_fuel f1 : forall f2 n acc,
  0 <= n < 2 ^ (Z.of_nat f1 + 1) -> n < 2 ^ (Z.of_nat f2 + 1) ->
  formatBits f1 n acc = formatBits f2 n acc.
Proof.
  induction f1 as [|f1 IH]; intros f2 n acc H1 H2.
  - change (2 ^ (Z.of_nat 0 + 1)) with 2 in H1.
    destruct f2; simpl; [reflexivity|].
    destruct (Z.ltb_spec n 10); [reflexivity | lia].
  - destruct f2 as [|f2].
    + change (2 ^ (Z.of_nat 0 + 1)) with 2 in H2. simpl.
      destruct (Z.ltb_spec n 10); [reflexivity | lia].
    + simpl. destruct (Z.ltb_spec n 10); [reflexivity|].
      apply IH.
      * split; [apply Z.div_pos; lia|].
        apply Z.div_lt_upper_bound; [lia|].
        replace (Z.of_nat (S f1) + 1) with (Z.succ (Z.of_nat f1 + 1)) in H1 by lia.
        rewrite Z.pow_succ_r in H1 by lia. lia.
      * apply Z.div_lt_upper_bound; [lia|].
        replace (Z.of_nat (S f2) + 1) with (Z.succ (Z.of_nat f2 + 1)) in H2 by lia.
        rewrite Z.pow_succ_r in H2 by lia. lia.
Qed.

Lemma log2_fuel n : 0 <= n -> n < 2 ^ (Z.of_nat (Z.to_nat (Z.log2 n)) + 1).
Proof.
  intros H. rewrite Z2Nat.id by apply Z.log2_nonneg.
  destruct (Z.eq_dec n 0) as [->|Hn]; [reflexivity|].
  replace (Z.log2 n + 1) with (Z.succ (Z.log2 n)) by lia.
  apply Z.log2_spec. lia.
Qed.

Lemma utoa_digit n : 0 <= n < 10 -> utoa n = String (digitChar n) "".
Proof.
  intros H. unfold utoa.
  destruct (Z.to_nat (Z.log2 n)); simpl; rewrite Z.mod_small by lia;
    [reflexivity|].
  destruct (Z.ltb_spec n 10); [reflexivity | lia].
Qed.

Lemma utoa_step n :
  10 <= n -> utoa n = (utoa (n / 10) ++ String (digitChar (n mod 10)) "")%string.
Proof.
  intros H. unfold utoa.
  pose proof (log2_fuel n ltac:(lia)) as Hf.
  destruct (Z.to_nat (Z.log2 n)) as [|f] eqn:E.
  - change (2 ^ (Z.of_nat 0 + 1)) with 2 in Hf. lia.
  - simpl. destruct (Z.ltb_spec n 10); [lia|].
    rewrite formatBits_acc. f_equal.
    assert (0 <= n / 10) by (apply Z.div_pos; lia).
    apply formatBits_fuel.
    + split; [assumption|].
      apply Z.div_lt_upper_bound; [lia|].
      replace (Z.of_nat (S f) + 1) with (Z.succ (Z.of_nat f + 1)) in Hf by lia.
      rewrite Z.pow_succ_r in Hf by lia. lia.
    + apply log2_fuel. assumption.
Qed.

End Printing.

Section Reading.

Lemma utoa_two n :
  10 <= n <= 99 ->
  utoa n = String (digitChar (n / 10)) (String (digitChar (n mod 10)) "").
Proof.
  intros H. rewrite utoa_step by lia.
  rewrite utoa_digit; [reflexivity|].
  split; [apply Z.div_pos; lia | apply Z.div_lt_upper_bound; lia].
Qed.

Lemma utoa_three n :
  100 <= n <= 999 ->
  utoa n = String (digitChar (n / 100))
             (String (digitChar (n / 10 mod 10))
                (String (digitChar (n mod 10)) "")).
Proof.
  intros H. rewrite utoa_step by lia.
  rewrite utoa_two.
  - rewrite Z.div_div by lia. reflexivity.
  - split; [apply Z.div_le_lower_bound; lia|].
    apply Z.lt_succ_r. apply Z.div_lt_upper_bound; lia.
Qed.

Lemma utoa_four n :
  1000 <= n <= 9999 ->
  utoa n = String (digitChar (n / 1000))
             (String (digitChar (n / 100 mod 10))
                (String (digitChar (n / 10 mod 10))
                   (String (digitChar (n mod 10)) ""))).
Proof.
  intros H. rewrite utoa_step by lia.
  rewrite utoa_three.
  - rewrite !Z.div_div by lia. reflexivity.
  - split; [apply Z.div_le_lower_bound; lia|].
    apply Z.lt_succ_r. apply Z.div_lt_upper_bound; lia.
Qed.

Lemma mod10_range n : 0 <= n mod 10 <= 9.
Proof. pose proof (Z.mod_pos_bound n 10 ltac:(lia)). lia. Qed.

(** Three digits or more. *)
Lemma utoa_long3 n :
  100 <= n ->
  exists c1 c2 c3 r,
    utoa n = String c1 (String c2 (String c3 r))
    /\ isDigit c1 = true /\ isDigit c2 = true /\ isDigit c3 = true.
Proof.
  intros H. assert (H0 : 0 <= n) by lia. revert H.
  pattern n. apply Z_lt_induction; [clear n H0 | exact H0].
  intros n IH H.
  destruct (Z_le_gt_dec n 999) as [Hs|Hl].
  - exists (digitChar (n / 100)), (digitChar (n / 10 mod 10)),
      (digitChar (n mod 10)), "".
    split; [apply utoa_three; lia|].
    repeat split; apply digitChar_isDigit; try apply mod10_range.
    split; [apply Z.div_pos; lia|].
    apply Z.lt_succ_r. apply Z.div_lt_upper_bound; lia.
  - destruct (IH (n / 10)) as (c1 & c2 & c3 & r & E & D).
    + split; [apply Z.div_pos; lia | apply Z.div_lt_upper_bound; lia].
    + apply Z.div_le_lower_bound; lia.
    + exists c1, c2, c3, (r ++ String (digitChar (n mod 10)) "")%string.
      split; [|exact D].
      rewrite utoa_step by lia. rewrite E. reflexivity.
Qed.

(** Five digits or more. *)
Lemma utoa_long5 n :
  10000 <= n ->
  exists c1 c2 c3 c4 c5 r,
    utoa n = String c1 (String c2 (String c3 (String c4 (String c5 r))))
    /\ isDigit c5 = true.
Proof.
  intros H. assert (H0 : 0 <= n) by lia. revert H.
  pattern n. apply Z_lt_induction; [clear n H0 | exact H0].
  intros n IH H.
  destruct (Z_le_gt_dec n 99999) as [Hs|Hl].
  - exists (digitChar (n / 10 / 1000)), (digitChar (n / 10 / 100 mod 10)),
      (digitChar (n / 10 / 10 mod 10)), (digitChar (n / 10 mod 10)),
      (digitChar (n mod 10)), "".
    split; [|apply digitChar_isDigit, mod10_range].
    rewrite utoa_step by lia. rewrite utoa_four; [reflexivity|].
    split; [apply Z.div_le_lower_bound; lia|].
    apply Z.lt_succ_r. apply Z.div_lt_upper_bound; lia.
  - destruct (IH (n / 10)) as (c1 & c2 & c3 & c4 & c5 & r & E & D).
    + split; [apply Z.div_pos; lia | apply Z.div_lt_upper_bound; lia].
    + apply Z.div_le_lower_bound; lia.
    + exists c1, c2, c3, c4, c5, (r ++ String (digitChar (n mod 10)) "")%string.
      split; [|exact D].
      rewrite utoa_step by lia. rewrite E. reflexivity.
Qed.

Lemma itoa_nonneg n : 0 <= n -> itoa n = utoa n.
Proof. intros H. unfold itoa. destruct (Z.ltb_spec n 0); [lia | reflexivity]. Qed.

Lemma itoa_neg_sign n : n < 0 -> itoa n = String "-" (utoa (- n)).
Proof. intros H. unfold itoa. destruct (Z.ltb_spec n 0); [reflexivity | lia]. Qed.

Lemma digit_not_dash c : isDigit c = true -> Ascii.eqb c "-" = false.
Proof.
  intros H. destruct (Ascii.eqb_spec c "-") as [->|]; [discriminate | reflexivity].
Qed.

Lemma getnum_itoa n tail :
  0 <= n <= 99 -> noDigitAhead tail ->
  getnum (itoa n ++ tail) = Some (n, tail).
Proof.
  intros H Ht. rewrite itoa_nonneg by lia.
  destruct (Z_le_gt_dec n 9) as [Hs|Hl].
  - rewrite utoa_digit by lia. rewrite append_String, append_empty.
    unfold getnum. rewrite digitChar_isDigit, digitVal_digitChar by lia.
    destruct tail as [|c tail]; [reflexivity|].
    simpl in Ht. rewrite Ht. reflexivity.
  - rewrite utoa_two by lia. rewrite !append_String, append_empty.
    assert (0 <= n / 10 <= 9).
    { split; [apply Z.div_pos; lia|].
      apply Z.lt_succ_r. apply Z.div_lt_upper_bound; lia. }
    pose proof (mod10_range n).
    unfold getnum. rewrite !digitChar_isDigit, !digitVal_digitChar by lia.
    f_equal. f_equal. pose proof (Z.div_mod n 10 ltac:(lia)). lia.
Qed.

Lemma getnum_itoa_negative n tail : n < 0 -> getnum (itoa n ++ tail) = None.
Proof. intros H. rewrite itoa_neg_sign by lia. reflexivity. Qed.

Lemma getnum_itoa_long n tail :
  100 <= n ->
  exists k c r, getnum (itoa n ++ tail) = Some (k, String c r)
                /\ isDigit c = true.
Proof.
  intros H. rewrite itoa_nonneg by lia.
  destruct (utoa_long3 n H) as (c1 & c2 & c3 & r & E & D1 & D2 & D3).
  rewrite E, !append_String. unfold getnum. rewrite D1, D2.
  eexists _, c3, _. split; [reflexivity | exact D3].
Qed.

Lemma getyear_dash0 t : getyear (String "-" t) = None.
Proof. destruct t as [|a [|b [|c t]]]; reflexivity. Qed.

Lemma getyear_dash1 a t : getyear (String a (String "-" t)) = None.
Proof.
  destruct t as [|b [|c t]]; try reflexivity.
  unfold getyear. destruct (isDigit a); reflexivity.
Qed.

Lemma getyear_dash2 a b t : getyear (String a (String b (String "-" t))) = None.
Proof.
  destruct t as [|c t]; try reflexivity.
  unfold getyear. destruct (isDigit a), (isDigit b); reflexivity.
Qed.

Lemma getyear_dash3 a b c t :
  getyear (String a (String b (String c (String "-" t)))) = None.
Proof.
  unfold getyear. destruct (isDigit a), (isDigit b), (isDigit c); reflexivity.
Qed.

Lemma getyear_itoa_short n tail :
  n <= 999 -> getyear (itoa n ++ String "-" tail) = None.
Proof.
  intros H.
  destruct (Z_lt_ge_dec n 0) as [Hn|Hp].
  - rewrite itoa_neg_sign by lia. rewrite append_String. apply getyear_dash0.
  - rewrite itoa_nonneg by lia.
    destruct (Z_le_gt_dec n 9); [|destruct (Z_le_gt_dec n 99)].
    + rewrite utoa_digit by lia. rewrite append_String, append_empty.
      apply getyear_dash1.
    + rewrite utoa_two by lia. rewrite !append_String, append_empty.
      apply getyear_dash2.
    + rewrite utoa_three by lia. rewrite !append_String, append_empty.
      apply getyear_dash3.
Qed.

Lemma getyear_itoa n tail :
  1000 <= n <= 9999 -> getyear (itoa n ++ tail) = Some (n, tail).
Proof.
  intros H. rewrite itoa_nonneg by lia. rewrite utoa_four by lia.
  rewrite !append_String, append_empty.
  assert (0 <= n / 1000 <= 9).
  { split; [apply Z.div_pos; lia|].
    apply Z.lt_succ_r. apply Z.div_lt_upper_bound; lia. }
  pose proof (mod10_range n). pose proof (mod10_range (n / 10)).
  pose proof (mod10_range (n / 100)).
  unfold getyear. rewrite !digitChar_isDigit, !digitVal_digitChar by lia.
  simpl. f_equal. f_equal.
  pose proof (Z.div_mod n 10 ltac:(lia)).
  pose proof (Z.div_mod (n / 10) 10 ltac:(lia)).
  pose proof (Z.div_mod (n / 100) 10 ltac:(lia)).
  replace (n / 100) with (n / 10 / 10) in * by (rewrite Z.div_div by lia; reflexivity).
  replace (n / 1000) with (n / 10 / 10 / 10) in * by (rewrite !Z.div_div by lia; reflexivity).
  lia.
Qed.

Lemma getyear_itoa_long n tail :
  10000 <= n ->
  getyear (itoa n ++ tail) = None
  \/ exists k c r, getyear (itoa n ++ tail) = Some (k, String c r)
                   /\ isDigit c = true.
Proof.
  intros H. rewrite itoa_nonneg by lia.
  destruct (utoa_long5 n H) as (c1 & c2 & c3 & c4 & c5 & r & E & D).
  rewrite E, !append_String. unfold getyear.
  destruct (isDigit c1 && isDigit c2 && isDigit c3 && isDigit c4);
    [right | left; reflexivity].
  eexists _, c5, _. split; [reflexivity | exact D].
Qed.

End Reading.

Section Projection.

Lemma append_empty_r (s : string) : (s ++ "")%string = s.
Proof.
  induction s as [|a s IH]; [reflexivity|].
  rewrite append_String. f_equal. exact IH.
Qed.

Lemma skip_dash tail : skip (String "-" tail) "-" = Some tail.
Proof. reflexivity. Qed.

Lemma skip_digit c r : isDigit c = true -> skip (String c r) "-" = None.
Proof. intros H. simpl. rewrite (digit_not_dash c H). reflexivity. Qed.

Lemma parseChunks_YMD v :
  parseChunks layoutYMD v noFields
  = match getyear v with
    | Some (y, v1) =>
        match skip v1 "-" with
        | Some v2 =>
            match getnum v2 with
            | Some (m, v3) =>
                if (m <=? 0) || (12 <? m) then None
                else
                  match skip v3 "-" with
                  | Some v4 =>
                      match getnum v4 with
                      | Some (d, v5) =>
                          Some ({| f_year := y; f_month := m; f_day := d |}, v5)
                      | None => None
                      end
                  | None => None
                  end
            | None => None
            end
        | None => None
        end
    | None => None
    end.
Proof.
  unfold layoutYMD. cbn [parseChunks skip].
  destruct (getyear v) as [[y v1]|]; [|reflexivity].
  destruct (skip v1 "-") as [v2|]; [|reflexivity].
  destruct (getnum v2) as [[m v3]|]; [|reflexivity].
  cbn [f_year f_month f_day].
  destruct ((m <=? 0) || (12 <? m)); [reflexivity|].
  destruct (skip v3 "-") as [v4|]; [|reflexivity].
  destruct (getnum v4) as [[d v5]|]; reflexivity.
Qed.

(** The projection of a month and a day onto a year: the date must exist
    and the year must have four digits; otherwise the parse fails, and the
    zero time is what is left. *)
Lemma occurrenceInYear_spec y m d :
  occurrenceInYear y m d
  = if (1000 <=? y) && (y <=? 9999) && (1 <=? m) && (m <=? 12)
       && (1 <=? d) && (d <=? daysIn m y)
    then unixDate y m d else zeroTime.
Proof.
  unfold occurrenceInYear, ParseOrZero, Parse, Sprintf3.
  rewrite parseChunks_YMD.
  change ("-" ++ itoa m ++ "-" ++ itoa d)%string
    with (String "-" (itoa m ++ String "-" (itoa d))).
  destruct (Z_le_gt_dec y 999) as [Hy|Hy].
  { rewrite getyear_itoa_short by lia.
    destruct (Z.leb_spec 1000 y); [lia | reflexivity]. }
  destruct (Z_le_gt_dec 10000 y) as [Hy'|Hy'].
  { destruct (Z.leb_spec y 9999); [lia|]. rewrite andb_false_r. simpl andb.
    destruct (getyear_itoa_long y (String "-" (itoa m ++ String "-" (itoa d))) Hy')
      as [E|(k & c & r & E & D)]; rewrite E; [reflexivity|].
    cbv beta match. rewrite (skip_digit c r D). reflexivity. }
  rewrite getyear_itoa by lia. cbv beta match. rewrite skip_dash.
  destruct (Z.leb_spec 1000 y); [|lia]. destruct (Z.leb_spec y 9999); [|lia].
  simpl andb.
  destruct (Z_lt_ge_dec m 0) as [Hm|Hm].
  { rewrite getnum_itoa_negative by lia.
    destruct (Z.leb_spec 1 m); [lia | reflexivity]. }
  destruct (Z_le_gt_dec 100 m) as [Hm'|Hm'].
  { destruct (Z.leb_spec m 12); [lia|]. rewrite andb_false_r. simpl andb.
    destruct (getnum_itoa_long m (String "-" (itoa d)) Hm')
      as (k & c & r & E & D). rewrite E. cbv beta match.
    destruct ((k <=? 0) || (12 <? k)); [reflexivity|].
    rewrite (skip_digit c r D). reflexivity. }
  rewrite getnum_itoa by (simpl; auto; lia). cbv beta match.
  destruct (Z.leb_spec m 0) as [Hm0|Hm0].
  { destruct (Z.leb_spec 1 m); [lia | reflexivity]. }
  destruct (Z.ltb_spec 12 m) as [Hm12|Hm12].
  { destruct (Z.leb_spec m 12); [lia|]. rewrite andb_false_r. reflexivity. }
  destruct (Z.leb_spec 1 m); [|lia]. destruct (Z.leb_spec m 12); [|lia].
  simpl orb. simpl andb. rewrite skip_dash.
  destruct (Z_lt_ge_dec d 0) as [Hd|Hd].
  { rewrite <- (append_empty_r (itoa d)).
    rewrite getnum_itoa_negative by lia.
    destruct (Z.leb_spec 1 d); [lia | reflexivity]. }
  pose proof (daysIn_le_31 m y ltac:(lia)) as H31.
  destruct (Z_le_gt_dec 100 d) as [Hd'|Hd'].
  { destruct (Z.leb_spec d (daysIn m y)); [lia|]. rewrite andb_false_r.
    destruct (getnum_itoa_long d "" Hd') as (k & c & r & E & D).
    rewrite append_empty_r in E. rewrite E. reflexivity. }
  rewrite <- (append_empty_r (itoa d)).
  rewrite getnum_itoa by (simpl; auto; lia). cbv beta match.
  simpl f_month. simpl f_day. simpl f_year.
  destruct (Z.ltb_spec m 0); [lia|].
  destruct (Z.ltb_spec d 0); [lia|].
  destruct (Z.ltb_spec d 1); destruct (Z.leb_spec 1 d); try lia;
    [reflexivity|].
  destruct (Z.ltb_spec (daysIn m y) d); destruct (Z.leb_spec d (daysIn m y));
    try lia; reflexivity.
Qed.

End Projection.

(* ================================================================= *)
(** ** Projections that fail without notice *)

Lemma daysIn_february year : isLeap year = false -> daysIn 2 year = 28.
Proof. intros H. unfold daysIn. rewrite H. reflexivity. Qed.

(** A projection that is the zero time puts the three windows of either
    check in the first two years of the calendar: no clock reading from
    1970 on is in one of them. *)
Lemma zero_occurrence_no_window now current step daysBefore daysAfter occurrence :
  current = zeroTime -> 0 <= now ->
  0 <= step <= 366 * 86400 -> 0 <= daysAfter <= 366 ->
  In occurrence [current; current - step; current + step] ->
  ~ inWindow now occurrence daysBefore daysAfter.
Proof.
  intros -> Hnow Hs Ha Hin [_ Hw].
  change zeroTime with (-62135596800) in Hin.
  simpl in Hin. destruct Hin as [<-|[<-|[<-|[]]]]; lia.
Qed.

(** C10: the projection helpers fail without notice on a day the target
    year or month does not have. In a year that is not a leap year,
    [UnixTimestampForCorrespondingCurrentYear(2, 29)], and in a month with
    fewer days than [day] (29, 30 or 31),
    [UnixTimestampForCorrespondingCurrentYearMonth(day)], return the Unix
    time of the zero time, -62135596800; the recurrence check made from it
    holds at no clock reading from 1970 on. *)
Theorem projection_fails_silently now :
  zeroTime = -62135596800
  /\ (isLeap (currentYear now) = false ->
      UnixTimestampForCorrespondingCurrentYear now 2 29 = zeroTime)
  /\ (forall day,
        In day [29; 30; 31] ->
        daysIn (currentMonth now) (currentYear now) < day ->
        UnixTimestampForCorrespondingCurrentYearMonth now day = zeroTime)
  /\ (forall note,
        0 <= now ->
        UnixTimestampForCorrespondingCurrentYear now (dueMonth note) (dueDay note)
        = zeroTime ->
        annualCheck now note = false)
  /\ (forall note,
        0 <= now ->
        UnixTimestampForCorrespondingCurrentYearMonth now (dueDay note)
        = zeroTime ->
        monthlyCheck now note = false).
Proof.
  split; [reflexivity|]. split; [|split; [|split]].
  - intros Hleap.
    rewrite current_year_is_occurrence, occurrenceInYear_spec.
    rewrite (daysIn_february _ Hleap).
    change (29 <=? 28) with false. rewrite andb_false_r. reflexivity.
  - intros day _ Hday.
    rewrite current_month_is_occurrence, occurrenceInYear_spec.
    destruct (Z.leb_spec day (daysIn (currentMonth now) (currentYear now)));
      [lia|].
    rewrite andb_false_r. reflexivity.
  - intros note Hnow Hz. apply not_true_is_false. intros C.
    apply annualCheck_spec in C. destruct C as (occ & Hin & Hw).
    revert Hw. unfold annualOccurrences in Hin.
    eapply zero_occurrence_no_window; [exact Hz | exact Hnow | | | exact Hin]; lia.
  - intros note Hnow Hz. apply not_true_is_false. intros C.
    apply monthlyCheck_spec in C. destruct C as (occ & Hin & Hw).
    revert Hw. unfold monthlyOccurrences in Hin.
    eapply zero_occurrence_no_window; [exact Hz | exact Hnow | | | exact Hin]; lia.
Qed.

(** June 29, 2023 at noon: 2023 is no leap year; a note due on February 29,
    2020 is not selected around February 28 or March 1 of 2023, and a note
    due on the 31st is not selected around the end of June. *)
Lemma projection_fails_silently_witness :
  UnixTimestampForCorrespondingCurrentYear (unixDate 2023 2 28) 2 29 = zeroTime
  /\ UnixTimestampForCorrespondingCurrentYearMonth (unixDate 2023 6 29) 31
     = zeroTime
  /\ annualCheck (unixDate 2023 2 28) (Sample.note [4] (unixDate 2020 2 29))
     = false
  /\ monthlyCheck (unixDate 2023 6 30) (Sample.note [5] (unixDate 2020 1 31))
     = false.
Proof.
  destruct (projection_fails_silently (unixDate 2023 2 28)) as (_ & Y & _ & A & _).
  destruct (projection_fails_silently (unixDate 2023 6 29)) as (_ & _ & M & _).
  destruct (projection_fails_silently (unixDate 2023 6 30)) as (_ & _ & _ & _ & C).
  split; [|split; [|split]].
  - apply Y. reflexivity.
  - apply M; [simpl; auto | vm_compute; reflexivity].
  - apply A; [vm_compute; discriminate | vm_compute; reflexivity].
  - apply C; [vm_compute; discriminate | vm_compute; reflexivity].
Defined.

(** The note of February 29 is selected in a leap year, and in no other. *)
Example leap_day_note :
  let n := Sample.note [4] (unixDate 2020 2 29) in
  let rd := Sample.data [n] in
  NotesApprachingDueDate (unixDate 2024 2 29) rd = [n]
  /\ NotesApprachingDueDate (unixDate 2023 2 28) rd = []
  /\ NotesApprachingDueDate (unixDate 2023 3 1) rd = [].
Proof. vm_compute. repeat split. Qed.

(* ================================================================= *)
(** ** Status and due date of a note *)

(** C5: on a note that has a tag among [repeatTagIDs], and on a status
    equal to the current one, [UpdateStatus] changes no field of the note
    and returns no error. *)
Theorem UpdateStatus_noop now note status repeatTagIDs :
  (exists i, In i (TagIds note) /\ In i repeatTagIDs) \/ status = Status note ->
  UpdateStatus now note status repeatTagIDs = (note, None).
Proof.
  intros H. unfold UpdateStatus.
  destruct (len (GetCommonMembersIntSlices (TagIds note) repeatTagIDs) =? 0)
    eqn:E; [|reflexivity].
  simpl. apply len_zero in E.
  destruct H as [(i & H1 & H2) | ->].
  - destruct (proj1 (GetCommonMembersIntSlices_nil _ _) E i H1 H2).
  - rewrite String.eqb_refl. reflexivity.
Qed.

Lemma UpdateStatus_noop_witness :
  UpdateStatus 1700000000 (Sample.note [0; 4] (unixDate 2020 3 10)) "done" [4; 5]
  = (Sample.note [0; 4] (unixDate 2020 3 10), None)
  /\ UpdateStatus 1700000000 (Sample.note [0] 0) "pending" [4; 5]
     = (Sample.note [0] 0, None).
Proof.
  split.
  - apply UpdateStatus_noop. left. exists 4. simpl. auto.
  - apply UpdateStatus_noop. right. reflexivity.
Defined.

(** Otherwise the status changes and the time of update is the clock's. *)
Example UpdateStatus_applies :
  UpdateStatus 1700000000 (Sample.note [0] 0) "done" [4; 5]
  = ({| Text := "Renew passport"; Comments := []; Status := "done";
        TagIds := [0]; CompleteBy := 0; CreatedAt := 1600000000;
        UpdatedAt := 1700000000 |}, None).
Proof. reflexivity. Qed.

Lemma strlen_zero s : (strlen s =? 0) = true <-> s = "".
Proof.
  unfold strlen. destruct s as [|c s].
  - split; reflexivity.
  - split; intros H; [apply Z.eqb_eq in H; simpl in H; lia | discriminate].
Qed.

(** C7: [UpdateCompleteBy] returns an error exactly on a text that is empty
    once trimmed, and then leaves the note as it is; on "nil" it sets the
    due date to 0 and the time of update to the clock's; on any other text
    it returns no error and sets the due date to what
    [time.Parse("2-1-2006", text)] yields, which is the zero time
    (-62135596800 as a Unix time) when the text is no date. *)
Theorem UpdateCompleteBy_spec now note text :
  (snd (UpdateCompleteBy now note text) <> None <-> TrimString text = "")
  /\ (TrimString text = "" ->
      UpdateCompleteBy now note text = (note, Some "Note's due date is empty"))
  /\ UpdateCompleteBy now note "nil" = (withDueDate note 0 now, None)
  /\ (TrimString text <> "" -> text <> "nil" ->
      UpdateCompleteBy now note text
      = (withDueDate note
           (match Parse layoutDMY text with
            | Some t => t
            | None => -62135596800
            end) now, None)).
Proof.
  unfold UpdateCompleteBy.
  destruct (strlen (TrimString text) =? 0) eqn:E.
  - apply strlen_zero in E. repeat split; auto; try contradiction.
  - assert (Hne : TrimString text <> "").
    { intros C. apply strlen_zero in C. congruence. }
    split; [|split; [|split]].
    + destruct (String.eqb text "nil"); simpl; split; intros H; congruence.
    + intros C. contradiction.
    + reflexivity.
    + intros _ Hnil. apply String.eqb_neq in Hnil. rewrite Hnil. reflexivity.
Qed.

Lemma UpdateCompleteBy_spec_witness :
  UpdateCompleteBy 1700000000 (Sample.note [0] 5) "   "
  = (Sample.note [0] 5, Some "Note's due date is empty")
  /\ UpdateCompleteBy 1700000000 (Sample.note [0] 5) "10-03-2024"
     = (withDueDate (Sample.note [0] 5) 1710028800 1700000000, None)
  /\ UpdateCompleteBy 1700000000 (Sample.note [0] 5) "31-02-2024"
     = (withDueDate (Sample.note [0] 5) (-62135596800) 1700000000, None).
Proof.
  split; [|split].
  - destruct (UpdateCompleteBy_spec 1700000000 (Sample.note [0] 5) "   ")
      as (_ & H & _).
    apply H. reflexivity.
  - destruct (UpdateCompleteBy_spec 1700000000 (Sample.note [0] 5) "10-03-2024")
      as (_ & _ & _ & H).
    apply H; [vm_compute|]; discriminate.
  - destruct (UpdateCompleteBy_spec 1700000000 (Sample.note [0] 5) "31-02-2024")
      as (_ & _ & _ & H).
    apply H; [vm_compute|]; discriminate.
Defined.

(** "nil" is compared as typed: with a space around it, it is read as a
    date, and the zero time is stored. *)
Example UpdateCompleteBy_nil_untrimmed :
  CompleteBy (fst (UpdateCompleteBy 1700000000 (Sample.note [0] 5) " nil"))
  = -62135596800.
Proof. reflexivity. Qed.

(* ================================================================= *)
(** ** Registration of tags *)

Section Registration.

Variable MarshalIndent : ReminderData -> string + error.
Variable ToLower : string -> string.

Lemma UpdateDataFile_Tags now reminderData msg w :
  Tags (fst (fst (UpdateDataFile MarshalIndent now reminderData msg w)))
  = Tags reminderData.
Proof.
  unfold UpdateDataFile.
  destruct (MarshalIndent _) as [byteValue|err]; [|reflexivity].
  destruct (WriteFile w _ byteValue) as [w' [err|]]; reflexivity.
Qed.

Lemma isNewSlugLoop_false tags tag : forall isNewSlug,
  isNewSlugLoop tags tag isNewSlug = false
  <-> isNewSlug = false
      \/ exists existingTag, In existingTag tags /\ Slug existingTag = Slug tag.
Proof.
  induction tags as [|t tags IH]; intros b; simpl.
  - split; [auto | intros [H|(x & [] & _)]; exact H].
  - rewrite IH. destruct (String.eqb_spec (Slug t) (Slug tag)) as [E|E].
    + split; [intros _; right; exists t; auto | auto].
    + split.
      * intros [H|(x & H1 & H2)]; [auto | right; exists x; auto].
      * intros [H|(x & [<-|H1] & H2)]; [auto | contradiction | right; exists x; auto].
Qed.

(** A slug that is in the registry is refused, and nothing changes. *)
Lemma newTagAppend_duplicate now reminderData tag w :
  (exists existingTag,
     In existingTag (Tags reminderData) /\ Slug existingTag = Slug tag) ->
  newTagAppend MarshalIndent now reminderData tag w
  = (reminderData, w, Some "Tag Already Exists").
Proof.
  intros H. unfold newTagAppend.
  assert (E : isNewSlugLoop (Tags reminderData) tag true = false)
    by (apply isNewSlugLoop_false; auto).
  rewrite E. reflexivity.
Qed.

(** Whatever [newTagAppend] returns, the slug is in the registry then. *)
Lemma newTagAppend_registered now reminderData tag w :
  exists existingTag,
    In existingTag
      (Tags (fst (fst (newTagAppend MarshalIndent now reminderData tag w))))
    /\ Slug existingTag = Slug tag.
Proof.
  unfold newTagAppend.
  destruct (isNewSlugLoop (Tags reminderData) tag true) eqn:E; simpl.
  - rewrite UpdateDataFile_Tags. simpl. exists tag.
    split; [apply in_or_app; right; left|]; reflexivity.
  - apply isNewSlugLoop_false in E. destruct E as [E|E]; [discriminate | exact E].
Qed.

(** The tag [NewTag] builds from the answers of the user. *)
Lemma NewTag_answers now (prompt : Prompt) tagID slug :
  prompt "tag_slug" "" = (slug, None) ->
  snd (prompt "tag_group" "") = None ->
  GoStrings.TrimSpace (ToLower (GoStrings.TrimSpace slug)) <> "" ->
  exists tag,
    NewTag ToLower now prompt tagID "" "" = (tag, None)
    /\ Id tag = tagID
    /\ Slug tag = ToLower (GoStrings.TrimSpace slug).
Proof.
  intros Hs Hg Hne. unfold NewTag. simpl. rewrite Hs. simpl.
  destruct (strlen _ =? 0) eqn:E.
  - apply strlen_zero in E. contradiction.
  - destruct (prompt "tag_group" "") as [g e]. simpl in Hg. subst e.
    eexists. split; [reflexivity|]. split; reflexivity.
Qed.

(** C6: when a slug that is not empty is registered twice, the second
    registration returns the error "Tag Already Exists" and changes neither
    the aggregate (so the registry keeps its size, its elements and their
    order) nor the file system. The slug is what the user answers, trimmed
    and in lower case; both times the prompts are answered. *)
Theorem duplicate_slug_rejected now1 now2 (prompt1 prompt2 : Prompt)
  reminderData w slug1 slug2 :
  prompt1 "tag_slug" "" = (slug1, None) ->
  prompt2 "tag_slug" "" = (slug2, None) ->
  snd (prompt1 "tag_group" "") = None ->
  snd (prompt2 "tag_group" "") = None ->
  ToLower (GoStrings.TrimSpace slug1) = ToLower (GoStrings.TrimSpace slug2) ->
  GoStrings.TrimSpace (ToLower (GoStrings.TrimSpace slug1)) <> "" ->
  forall tagID1 err1 reminderData1 w1,
    NewTagRegistration MarshalIndent ToLower now1 prompt1 reminderData w
    = (tagID1, err1, reminderData1, w1) ->
    NewTagRegistration MarshalIndent ToLower now2 prompt2 reminderData1 w1
    = (len (Tags reminderData1), Some "Tag Already Exists", reminderData1, w1).
Proof.
  intros Hs1 Hs2 Hg1 Hg2 Heq Hne tagID1 err1 rd1 w1 H1.
  assert (Hin : exists existingTag,
             In existingTag (Tags rd1)
             /\ Slug existingTag = ToLower (GoStrings.TrimSpace slug1)).
  { unfold NewTagRegistration in H1.
    destruct (NewTag_answers now1 prompt1 (nextPossibleTagId reminderData)
                slug1 Hs1 Hg1 Hne) as (tag1 & E1 & _ & Hslug1).
    rewrite E1 in H1.
    pose proof (newTagAppend_registered now1 reminderData tag1 w) as Hreg.
    destruct (newTagAppend MarshalIndent now1 reminderData tag1 w)
      as [[rd' w'] e'].
    injection H1 as _ _ <- _. simpl in Hreg. rewrite <- Hslug1. exact Hreg. }
  unfold NewTagRegistration.
  assert (Hne2 : GoStrings.TrimSpace (ToLower (GoStrings.TrimSpace slug2)) <> "")
    by (rewrite <- Heq; exact Hne).
  destruct (NewTag_answers now2 prompt2 (nextPossibleTagId rd1)
              slug2 Hs2 Hg2 Hne2) as (tag2 & E2 & _ & Hslug2).
  rewrite E2.
  rewrite newTagAppend_duplicate; [reflexivity|].
  rewrite Hslug2, <- Heq. exact Hin.
Qed.

End Registration.

Lemma duplicate_slug_rejected_witness :
  let '(tagID1, err1, reminderData1, w1) :=
    NewTagRegistration Sample.marshal Sample.toLower 1700000000
      (Sample.answers "Work" "") (Sample.data []) Sample.world in
  NewTagRegistration Sample.marshal Sample.toLower 1700000100
    (Sample.answers "  work " "office") reminderData1 w1
  = (len (Tags reminderData1), Some "Tag Already Exists", reminderData1, w1).
Proof.
  destruct (NewTagRegistration Sample.marshal Sample.toLower 1700000000
              (Sample.answers "Work" "") (Sample.data []) Sample.world)
    as [[[tagID1 err1] reminderData1] w1] eqn:E.
  apply (duplicate_slug_rejected Sample.marshal Sample.toLower
           1700000000 1700000100 (Sample.answers "Work" "")
           (Sample.answers "  work " "office") (Sample.data []) Sample.world
           "Work" "  work " eq_refl eq_refl eq_refl eq_refl eq_refl
           ltac:(vm_compute; discriminate) tagID1 err1 reminderData1 w1 E).
Defined.

(** The two registrations, run: the first assigns id 7 and appends, the
    second is refused and the registry still holds 8 tags. *)
Example register_work_twice :
  let '(tagID1, err1, rd1, w1) :=
    NewTagRegistration Sample.marshal Sample.toLower 1700000000
      (Sample.answers "Work" "") (Sample.data []) Sample.world in
  let '(tagID2, err2, rd2, w2) :=
    NewTagRegistration Sample.marshal Sample.toLower 1700000100
      (Sample.answers "  work " "office") rd1 w1 in
  tagID1 = 7 /\ err1 = None /\ len (Tags rd1) = 8
  /\ err2 = Some "Tag Already Exists" /\ Tags rd2 = Tags rd1.
Proof. vm_compute. repeat split. Qed.

(** A slug of white space only is refused as empty, both times. *)
Example register_blank_slug :
  NewTagRegistration Sample.marshal Sample.toLower 1700000000
    (Sample.answers "   " "") (Sample.data []) Sample.world
  = (0, Some "Tag's slug is empty", Sample.data [], Sample.world).
Proof. reflexivity. Qed.

(* ================================================================= *)
(** ** Backups *)

Section BackupNames.

Lemma length_append (s t : string) :
  String.length (s ++ t) = (String.length s + String.length t)%nat.
Proof.
  induction s as [|a s IH]; [reflexivity|].
  rewrite append_String. simpl. rewrite IH. reflexivity.
Qed.

Lemma length_substring s : forall n,
  (n <= String.length s)%nat -> String.length (String.substring 0 n s) = n.
Proof.
  induction s as [|a s IH]; intros [|n] H; simpl in *; try reflexivity; try lia.
  rewrite IH by lia. reflexivity.
Qed.

Lemma length_Ext p : (String.length (Ext p) <= String.length p)%nat.
Proof.
  induction p as [|c p IH]; simpl; [lia|].
  destruct (Ext p) as [|e es] eqn:E.
  - destruct (existsb _ _); [simpl; lia|].
    destruct (Ascii.eqb c "."); simpl; lia.
  - simpl in *. lia.
Qed.

Lemma length_backupStem reminderData :
  (String.length (backupStem reminderData)
   + String.length (Ext (DataFile reminderData)))%nat
  = String.length (DataFile reminderData).
Proof.
  unfold backupStem. pose proof (length_Ext (DataFile reminderData)).
  rewrite length_substring by lia. lia.
Qed.

(** The backup and the alias are not the data file: their names are longer. *)
Lemma backupFile_not_DataFile now reminderData :
  backupFile now reminderData <> DataFile reminderData.
Proof.
  intros E. apply (f_equal String.length) in E.
  unfold backupFile in E. rewrite !length_append in E.
  pose proof (length_backupStem reminderData). simpl in E. lia.
Qed.

Lemma latestFile_not_DataFile reminderData :
  latestFile reminderData <> DataFile reminderData.
Proof.
  intros E. apply (f_equal String.length) in E.
  unfold latestFile in E. rewrite !length_append in E.
  pose proof (length_backupStem reminderData). simpl in E. lia.
Qed.

Lemma append_inj_l (s t u : string) : (s ++ t)%string = (s ++ u)%string -> t = u.
Proof.
  induction s as [|a s IH]; [auto|].
  rewrite !append_String. intros [= H]. auto.
Qed.

(** A number in decimal starts with a digit or with the sign. *)
Lemma itoa_head n :
  exists c r, itoa n = String c r /\ (c = "-"%char \/ isDigit c = true).
Proof.
  destruct (Z_lt_ge_dec n 0) as [Hn|Hn].
  - rewrite itoa_neg_sign by lia. eauto.
  - rewrite itoa_nonneg by lia.
    destruct (Z_le_gt_dec n 9); [|destruct (Z_le_gt_dec n 99)].
    + rewrite utoa_digit by lia. eexists _, _. split; [reflexivity|].
      right. apply digitChar_isDigit. lia.
    + rewrite utoa_two by lia. eexists _, _. split; [reflexivity|].
      right. apply digitChar_isDigit.
      split; [apply Z.div_pos; lia|].
      apply Z.lt_succ_r. apply Z.div_lt_upper_bound; lia.
    + destruct (utoa_long3 n ltac:(lia)) as (c1 & c2 & c3 & r & E & D & _).
      rewrite E. eauto.
Qed.

Lemma backupFile_not_latestFile now reminderData :
  backupFile now reminderData <> latestFile reminderData.
Proof.
  unfold backupFile, latestFile. intros E. apply append_inj_l in E.
  destruct (itoa_head now) as (c & r & Ei & Hc). rewrite Ei in E.
  rewrite !append_String, !append_empty in E.
  injection E as E _. subst c. destruct Hc; discriminate.
Qed.

End BackupNames.

Section Backup.

Variable MarshalIndent : ReminderData -> string + error.
Variable now : Z.

(** A backup that goes through: the data file as it is on disk is copied
    to the backup of time [now], and the alias points to it. *)
Lemma CreateBackup_done reminderData w bytes :
  ReadFile w (DataFile reminderData) = inl bytes ->
  backupFile now reminderData ∉ denied w ->
  latestFile reminderData ∉ denied w ->
  CreateBackup now reminderData w
  = (backupFile now reminderData, None,
     {| files := <[latestFile reminderData :=
                     Symlink (backupFile now reminderData)]>
                   (<[backupFile now reminderData := File bytes]> (files w));
        denied := denied w |}).
Proof.
  intros Hr Hb Hl. unfold CreateBackup. rewrite Hr.
  fold (backupFile now reminderData). fold (latestFile reminderData).
  unfold WriteFile. rewrite (bool_decide_eq_false_2 _ Hb).
  unfold SymlinkForce. simpl denied.
  rewrite (bool_decide_eq_false_2 _ Hl). reflexivity.
Qed.

(** C8, amended: when less than [gapSecs] seconds have passed since the last
    backup ([now - lastBackupAt] as the program computes it, on 64-bit
    integers), [AutoBackup] creates no backup, leaves the aggregate and the
    file system as they are and returns no error. Otherwise the last backup
    time becomes [now]; and when the file operations go through (the data
    file can be read and encoded, and the three paths can be written) the
    backup of time [now] holds the bytes of the data file, the alias of the
    latest backup points to it, the data file holds the encoding of the
    aggregate with its new backup time, and no error is returned. The
    condition on the file operations is what the claim lacks: without it no
    backup need be created. *)
Theorem AutoBackup_spec reminderData gapSecs w :
  (Int64.sub now (LastBackupAt reminderData) < gapSecs ->
   AutoBackup MarshalIndent now reminderData gapSecs w
   = ("", None, reminderData, w))
  /\ (gapSecs <= Int64.sub now (LastBackupAt reminderData) ->
      LastBackupAt
        (snd (fst (AutoBackup MarshalIndent now reminderData gapSecs w))) = now
      /\ forall bytes json,
           ReadFile w (DataFile reminderData) = inl bytes ->
           MarshalIndent (backedUpAt now reminderData) = inl json ->
           backupFile now reminderData ∉ denied w ->
           latestFile reminderData ∉ denied w ->
           DataFile reminderData ∉ denied w ->
           exists w',
             AutoBackup MarshalIndent now reminderData gapSecs w
             = (backupFile now reminderData, None,
                backedUpAt now reminderData, w')
             /\ files w' !! backupFile now reminderData = Some (File bytes)
             /\ files w' !! latestFile reminderData
                = Some (Symlink (backupFile now reminderData))
             /\ files w' !! DataFile reminderData = Some (File json)
             /\ (forall path,
                   path <> backupFile now reminderData ->
                   path <> latestFile reminderData ->
                   path <> DataFile reminderData ->
                   files w' !! path = files w !! path)).
Proof.
  unfold AutoBackup. split.
  - intros H. destruct (Z.ltb_spec (Int64.sub now (LastBackupAt reminderData)) gapSecs);
      [reflexivity | lia].
  - intros H.
    destruct (Z.ltb_spec (Int64.sub now (LastBackupAt reminderData)) gapSecs);
      [lia|].
    split.
    + destruct (CreateBackup now reminderData w) as [[dstFile e] w1].
      unfold UpdateDataFile. cbn [DataFile LastBackupAt].
      destruct (MarshalIndent _) as [byteValue|err]; [|reflexivity].
      destruct (WriteFile w1 _ byteValue) as [w2 [err|]]; reflexivity.
    + intros bytes json Hr Hm Hb Hl Hd.
      rewrite (CreateBackup_done reminderData w bytes Hr Hb Hl).
      unfold UpdateDataFile. cbn [DataUser Notes Tags DataFile LastBackupAt].
      fold (backedUpAt now reminderData). rewrite Hm.
      unfold WriteFile. cbn [denied files].
      rewrite (bool_decide_eq_false_2 _ Hd).
      eexists. split; [reflexivity|]. cbn [files].
      pose proof (backupFile_not_DataFile now reminderData).
      pose proof (latestFile_not_DataFile reminderData).
      pose proof (backupFile_not_latestFile now reminderData).
      repeat split.
      * rewrite lookup_insert_ne by congruence.
        rewrite lookup_insert_ne by congruence.
        apply lookup_insert_eq.
      * rewrite lookup_insert_ne by congruence. apply lookup_insert_eq.
      * apply lookup_insert_eq.
      * intros path P1 P2 P3. rewrite !lookup_insert_ne by congruence.
        reflexivity.
Qed.

End Backup.

Lemma AutoBackup_spec_witness :
  AutoBackup Sample.marshal 1700003599
    (backedUpAt 1700000000 (Sample.data [])) 3600 Sample.world
  = ("", None, backedUpAt 1700000000 (Sample.data []), Sample.world)
  /\ exists w',
       AutoBackup Sample.marshal 1700003600
         (backedUpAt 1700000000 (Sample.data [])) 3600 Sample.world
       = ("/home/asha/reminder/data_backup_1700003600.json", None,
          backedUpAt 1700003600 (Sample.data []), w')
       /\ files w' !! "/home/asha/reminder/data_backup_1700003600.json"
          = Some (File "{}")
       /\ files w' !! "/home/asha/reminder/data_backup_latest.json"
          = Some (Symlink "/home/asha/reminder/data_backup_1700003600.json").
Proof.
  split.
  - apply (AutoBackup_spec Sample.marshal 1700003599
             (backedUpAt 1700000000 (Sample.data [])) 3600 Sample.world).
    vm_compute. reflexivity.
  - destruct (AutoBackup_spec Sample.marshal 1700003600
                (backedUpAt 1700000000 (Sample.data [])) 3600 Sample.world)
      as (_ & H).
    destruct H as (_ & H); [vm_compute; discriminate|].
    destruct (H "{}" "data_file=/home/asha/reminder/data.json;last_backup_at=1700003600")
      as (w' & E & F1 & F2 & _).
    + reflexivity.
    + reflexivity.
    + vm_compute. set_solver.
    + vm_compute. set_solver.
    + vm_compute. set_solver.
    + exists w'. split; [exact E|]. split; [exact F1 | exact F2].
Defined.

(** C8, as stated, fails: once the gap has passed a new backup need not be
    created. Where the data file cannot be read (here it is not there),
    [CreateBackup] returns the error of the read, which [AutoBackup] drops:
    the call returns no error and records [now] as the time of the last
    backup, and the only file afterwards is the data file that the call
    itself persisted; neither the backup nor the alias exists. *)
Lemma AutoBackup_backup_not_created_counterexample :
  let reminderData := Sample.data [] in
  let w := {| files := ∅; denied := ∅ |} in
  let result := AutoBackup Sample.marshal 1700000000 reminderData 3600 w in
  3600 <= Int64.sub 1700000000 (LastBackupAt reminderData)
  /\ snd (fst (fst result)) = None
  /\ LastBackupAt (snd (fst result)) = 1700000000
  /\ ReadFile (snd result) (backupFile 1700000000 reminderData)
     = inr "no such file or directory"
  /\ ReadFile (snd result) (latestFile reminderData)
     = inr "no such file or directory"
  /\ ~ (exists path,
          path <> DataFile reminderData
          /\ files (snd result) !! path <> files w !! path).
Proof.
  cbv zeta.
  assert (E : AutoBackup Sample.marshal 1700000000 (Sample.data []) 3600
                {| files := ∅; denied := ∅ |}
              = ("/home/asha/reminder/data_backup_1700000000.json", None,
                 backedUpAt 1700000000 (Sample.data []),
                 {| files :=
                      <["/home/asha/reminder/data.json" :=
                          File "data_file=/home/asha/reminder/data.json;last_backup_at=1700000000"]>
                        ∅;
                    denied := ∅ |})) by (vm_compute; reflexivity).
  rewrite E. cbn [fst snd files LastBackupAt backedUpAt].
  split; [vm_compute; discriminate|]. split; [reflexivity|].
  split; [reflexivity|]. split; [vm_compute; reflexivity|].
  split; [vm_compute; reflexivity|].
  intros (path & Hp & Hd). apply Hd.
  apply lookup_insert_ne. intros C. apply Hp. symmetry. exact C.
Qed.

(** A backup that fails is not reported: where the backup cannot be
    written, [AutoBackup] still records [now] as the time of the last
    backup and returns no error, with the name of a file that is not there. *)
Example AutoBackup_failed_backup_unreported :
  let '(dstFile, err, rd, w) :=
    AutoBackup Sample.marshal 1700000000 (Sample.data []) 3600
      Sample.worldNoBackup in
  fst (CreateBackup 1700000000 (Sample.data []) Sample.worldNoBackup)
  = ("/home/asha/reminder/data_backup_1700000000.json", Some "permission denied")
  /\ dstFile = "/home/asha/reminder/data_backup_1700000000.json"
  /\ err = None
  /\ LastBackupAt rd = 1700000000
  /\ files w !! dstFile = None.
Proof. vm_compute. repeat split. Qed.

(* ================================================================= *)
(** ** The calendar functions agree on every day of a few years *)

Example Date_unixDate_round_trip :
  forallb (fun y =>
    forallb (fun m =>
      forallb (fun d =>
        negb (d <=? daysIn m y)
        || match Date (unixDate y m d), Date (unixDate y m d + 86399) with
           | (y1, m1, d1), (y2, m2, d2) =>
               (y1 =? y) && (m1 =? m) && (d1 =? d)
               && (y2 =? y) && (m2 =? m) && (d2 =? d)
           end)
        (map Z.of_nat (seq 1 31)))
      (map Z.of_nat (seq 1 12)))
    [1900; 1969; 1970; 2000; 2023; 2024; 2025; 2100]
  = true.
Proof. vm_compute. reflexivity. Qed.

(* ================================================================= *)
(** ** Reading a due date *)

(** On a text of the form DD-MM-YYYY the parse is the midnight (UTC) of
    that day, when the calendar has it. *)
Lemma Parse_DMY_strict d1 d2 m1 m2 y1 y2 y3 y4 :
  isDigit d1 = true -> isDigit d2 = true ->
  isDigit m1 = true -> isDigit m2 = true ->
  isDigit y1 = true -> isDigit y2 = true ->
  isDigit y3 = true -> isDigit y4 = true ->
  let day := digitVal d1 * 10 + digitVal d2 in
  let month := digitVal m1 * 10 + digitVal m2 in
  let year :=
    ((digitVal y1 * 10 + digitVal y2) * 10 + digitVal y3) * 10 + digitVal y4 in
  Parse layoutDMY
    (String d1 (String d2 (String "-" (String m1 (String m2 (String "-"
       (String y1 (String y2 (String y3 (String y4 ""))))))))))
  = if (1 <=? month) && (month <=? 12) && (1 <=? day)
       && (day <=? daysIn month year)
    then Some (unixDate year month day) else None.
Proof.
  intros D1 D2 M1 M2 Y1 Y2 Y3 Y4 day month year.
  pose proof (digitVal_range _ D1). pose proof (digitVal_range _ D2).
  pose proof (digitVal_range _ M1). pose proof (digitVal_range _ M2).
  unfold Parse, layoutDMY. cbn [parseChunks skip].
  unfold getnum at 1. rewrite D1, D2. cbn [skip]. rewrite Ascii.eqb_refl.
  unfold getnum at 1. rewrite M1, M2. fold month. cbn [f_year f_month f_day].
  destruct (Z.leb_spec month 0).
  { destruct (Z.leb_spec 1 month); [lia | reflexivity]. }
  destruct (Z.ltb_spec 12 month).
  { destruct (Z.leb_spec 1 month); [|lia].
    destruct (Z.leb_spec month 12); [lia | reflexivity]. }
  cbn [orb]. cbn [skip]. rewrite Ascii.eqb_refl.
  unfold getyear. rewrite Y1, Y2, Y3, Y4. cbn [andb].
  fold year. fold day. cbn [f_year f_month f_day].
  destruct (Z.leb_spec 1 month); [|lia]. destruct (Z.leb_spec month 12); [|lia].
  destruct (Z.ltb_spec month 0); [lia|]. destruct (Z.ltb_spec day 0); [lia|].
  cbn [andb].
  destruct (Z.ltb_spec day 1); destruct (Z.leb_spec 1 day); try lia;
    [reflexivity|].
  destruct (Z.ltb_spec (daysIn month year) day);
    destruct (Z.leb_spec day (daysIn month year)); try lia; reflexivity.
Qed.

(** White space outside ASCII is trimmed as well: a no-break space (C2 A0)
    before the text and an em space (E2 80 83) after it. *)
Example TrimSpace_unicode :
  GoStrings.TrimSpace
    (String (ascii_of_N 194) (String (ascii_of_N 160)
       ("nil" ++ String (ascii_of_N 226) (String (ascii_of_N 128)
                   (String (ascii_of_N 131) "")))))
  = "nil".
Proof. reflexivity. Qed.

(* ================================================================= *)
(** * Further properties of the code *)

(* ================================================================= *)
(** ** Slices of integers *)

Lemma commonWith_eq e1 arr2 : forall arr,
  commonWith e1 arr2 arr
  = (arr ++ map (fun _ => e1) (List.filter (Z.eqb e1) arr2))%list.
Proof.
  induction arr2 as [|e2 arr2 IH]; intros arr; simpl.
  - now rewrite app_nil_r.
  - rewrite IH. destruct (e1 =? e2); simpl; [|reflexivity].
    now rewrite <- app_assoc.
Qed.

Lemma commonLoop_eq arr2 : forall arr1 arr,
  commonLoop arr1 arr2 arr
  = (arr ++ flat_map (fun e1 => map (fun _ => e1) (List.filter (Z.eqb e1) arr2))
              arr1)%list.
Proof.
  induction arr1 as [|e1 arr1 IH]; intros arr; simpl.
  - now rewrite app_nil_r.
  - rewrite IH, commonWith_eq. now rewrite <- app_assoc.
Qed.

(** X1: [GetCommonMembersIntSlices] lists, in the order of the first slice,
    each member of the first slice once for every occurrence of it in the
    second: duplicates are kept, on both sides. A value is in the result
    exactly when it is in both slices, so the result is empty exactly when
    the slices are disjoint. *)
Theorem GetCommonMembersIntSlices_spec arr1 arr2 :
  GetCommonMembersIntSlices arr1 arr2
  = flat_map (fun e1 => map (fun _ => e1) (List.filter (Z.eqb e1) arr2)) arr1
  /\ (forall x, In x (GetCommonMembersIntSlices arr1 arr2)
                <-> In x arr1 /\ In x arr2)
  /\ (GetCommonMembersIntSlices arr1 arr2 = []
      <-> forall x, In x arr1 -> ~ In x arr2).
Proof.
  split; [|split].
  - unfold GetCommonMembersIntSlices. now rewrite commonLoop_eq.
  - intros x. apply GetCommonMembersIntSlices_In.
  - apply GetCommonMembersIntSlices_nil.
Qed.

(** X2: [IntPresentInSlice] answers [true] exactly for the members of the
    slice; on the empty slice it answers [false]. *)
Theorem IntPresentInSlice_spec a list :
  (IntPresentInSlice a list = true <-> In a list)
  /\ (IntPresentInSlice a list = false <-> ~ In a list).
Proof.
  pose proof (IntPresentInSlice_In a list) as H.
  split; [exact H|].
  destruct (IntPresentInSlice a list); split; intros C;
    try discriminate; try reflexivity.
  - destruct C. apply H. reflexivity.
  - intros D. apply H in D. discriminate.
Qed.

(* ================================================================= *)
(** ** Texts cut to a width *)

Lemma chopLoop_map length : forall texts acc,
  chopLoop texts length acc = (acc ++ map (chopOne length) texts)%list.
Proof.
  induction texts as [|str texts IH]; intros acc; simpl.
  - now rewrite app_nil_r.
  - rewrite IH. now rewrite <- app_assoc.
Qed.

Lemma substring_prefix s : forall n,
  (n <= String.length s)%nat ->
  exists rest, s = (String.substring 0 n s ++ rest)%string.
Proof.
  induction s as [|a s IH]; intros [|n] H; simpl in *.
  - exists "". reflexivity.
  - lia.
  - exists (String a s). reflexivity.
  - destruct (IH n ltac:(lia)) as (rest & E). exists rest.
    change (String a (String.substring 0 n s) ++ rest)%string
      with (String a (String.substring 0 n s ++ rest)%string).
    now rewrite <- E.
Qed.

(** X3: for a width above 2, [ChopStrings] returns as many texts as it is
    given, in the same order; a text of at most [length] bytes is returned
    as it is, and a longer one is replaced by its first [length - 2] bytes
    followed by "..", [length] bytes in all. For a width of 2 or less the
    texts are returned unchanged. *)
Theorem ChopStrings_spec texts length :
  (length <= 2 -> ChopStrings texts length = texts)
  /\ (2 < length ->
      Forall2
        (fun str chopped =>
           strlen chopped <= length
           /\ (strlen str <= length -> chopped = str)
           /\ (length < strlen str ->
               strlen chopped = length
               /\ exists head rest,
                    str = (head ++ rest)%string
                    /\ strlen head = length - 2
                    /\ chopped = (head ++ "..")%string))
        texts (ChopStrings texts length)).
Proof.
  unfold ChopStrings. split; intros H.
  - destruct (Z.leb_spec length 2); [reflexivity | lia].
  - destruct (Z.leb_spec length 2); [lia|].
    rewrite chopLoop_map. simpl.
    induction texts as [|str texts IH]; simpl; constructor; [|exact IH].
    unfold chopOne, strlen.
    destruct (Z.leb_spec (Z.of_nat (String.length str)) length) as [Hs|Hs].
    + split; [exact Hs|]. split; [reflexivity | lia].
    + assert (Hn : (Z.to_nat (length - 2) <= String.length str)%nat) by lia.
      assert (Hl : Z.of_nat (String.length
                     (String.substring 0 (Z.to_nat (length - 2)) str ++ ".."))
                   = length).
      { rewrite length_append, length_substring by exact Hn. simpl. lia. }
      split; [lia|]. split; [lia|]. intros _. split; [exact Hl|].
      destruct (substring_prefix str _ Hn) as (rest & E).
      exists (String.substring 0 (Z.to_nat (length - 2)) str), rest.
      split; [exact E|]. split; [|reflexivity].
      rewrite length_substring by exact Hn. lia.
Qed.

Lemma ChopStrings_spec_witness :
  ChopStrings ["Renew passport"; "Pay rent"] 2 = ["Renew passport"; "Pay rent"]
  /\ Forall2 (fun str chopped => strlen chopped <= 10)
       ["Renew passport"; "Pay rent"]
       (ChopStrings ["Renew passport"; "Pay rent"] 10).
Proof.
  destruct (ChopStrings_spec ["Renew passport"; "Pay rent"] 2) as (H2 & _).
  destruct (ChopStrings_spec ["Renew passport"; "Pay rent"] 10) as (_ & H10).
  split; [apply H2; lia|].
  eapply Forall2_impl; [apply H10; lia|].
  intros str chopped (Hle & _). exact Hle.
Defined.

Example ChopStrings_sample :
  ChopStrings ["Renew passport"; "Pay rent"] 10 = ["Renew pa.."; "Pay rent"].
Proof. reflexivity. Qed.

(* ================================================================= *)
(** ** The projection onto the current year, when the day exists *)

(** X4: for a month and a day that exist in the current year (a year of
    four digits), [UnixTimestampForCorrespondingCurrentYear] is the midnight
    (UTC) of that day of the current year, and
    [UnixTimestampForCorrespondingCurrentYearMonth] the midnight of that day
    of the current month; in every case the result is that midnight or the
    zero time. *)
Theorem projection_of_existing_day now month day :
  (1000 <= currentYear now <= 9999 ->
   1 <= month <= 12 -> 1 <= day <= daysIn month (currentYear now) ->
   UnixTimestampForCorrespondingCurrentYear now month day
   = unixDate (currentYear now) month day)
  /\ (1000 <= currentYear now <= 9999 ->
      1 <= currentMonth now <= 12 ->
      1 <= day <= daysIn (currentMonth now) (currentYear now) ->
      UnixTimestampForCorrespondingCurrentYearMonth now day
      = unixDate (currentYear now) (currentMonth now) day)
  /\ (UnixTimestampForCorrespondingCurrentYear now month day
      = unixDate (currentYear now) month day
      \/ UnixTimestampForCorrespondingCurrentYear now month day = zeroTime).
Proof.
  assert (G : forall y m d,
    1000 <= y <= 9999 -> 1 <= m <= 12 -> 1 <= d <= daysIn m y ->
    occurrenceInYear y m d = unixDate y m d).
  { intros y m d Hy Hm Hd. rewrite occurrenceInYear_spec.
    destruct (Z.leb_spec 1000 y); [|lia]. destruct (Z.leb_spec y 9999); [|lia].
    destruct (Z.leb_spec 1 m); [|lia]. destruct (Z.leb_spec m 12); [|lia].
    destruct (Z.leb_spec 1 d); [|lia].
    destruct (Z.leb_spec d (daysIn m y)); [|lia]. reflexivity. }
  split; [|split].
  - intros. rewrite current_year_is_occurrence. now apply G.
  - intros. rewrite current_month_is_occurrence. now apply G.
  - rewrite current_year_is_occurrence, occurrenceInYear_spec.
    destruct (_ && _); auto.
Qed.

Lemma projection_of_existing_day_witness :
  UnixTimestampForCorrespondingCurrentYear (unixDate 2024 1 5) 12 28
  = unixDate 2024 12 28
  /\ UnixTimestampForCorrespondingCurrentYearMonth (unixDate 2024 2 10) 29
     = unixDate 2024 2 29.
Proof.
  destruct (projection_of_existing_day (unixDate 2024 1 5) 12 28) as (Y & _).
  destruct (projection_of_existing_day (unixDate 2024 2 10) 0 29) as (_ & M & _).
  split.
  - apply Y; vm_compute; split; discriminate.
  - apply M; vm_compute; split; discriminate.
Defined.

(* ================================================================= *)
(** ** Filters of notes *)

(** X5: [WithStatus] keeps the notes of the given status and drops the
    others, without reordering or repeating: the result is a subsequence of
    the notes given, every note of it has the status, every note given that
    has the status is in it, and filtering again changes nothing. *)
Theorem WithStatus_spec status notes :
  sublist (WithStatus status notes) notes
  /\ Forall (fun n => Status n = status) (WithStatus status notes)
  /\ (forall n, In n notes -> Status n = status ->
                In n (WithStatus status notes))
  /\ WithStatus status (WithStatus status notes) = WithStatus status notes.
Proof.
  split; [|split; [|split]].
  - induction notes as [|m notes IH]; simpl; [constructor|].
    destruct (String.eqb (Status m) status); now constructor.
  - induction notes as [|m notes IH]; simpl; [constructor|].
    destruct (String.eqb_spec (Status m) status); [constructor|]; assumption.
  - intros n Hin Hs. apply WithStatus_In. auto.
  - induction notes as [|m notes IH]; simpl; [reflexivity|].
    destruct (String.eqb_spec (Status m) status) as [E|E]; [|exact IH].
    simpl. rewrite IH. apply String.eqb_eq in E. now rewrite E.
Qed.

Lemma withTagLoop_In tagID : forall notes result n,
  In n (withTagLoop tagID notes result)
  <-> In n result \/ (In n notes /\ In tagID (TagIds n)).
Proof.
  induction notes as [|m notes IH]; intros result n; simpl.
  - tauto.
  - rewrite IH.
    destruct (IntPresentInSlice tagID (TagIds m)) eqn:E.
    + apply IntPresentInSlice_In in E. rewrite in_app_iff. simpl.
      intuition (subst; auto).
    + assert (~ In tagID (TagIds m)).
      { intros C. apply IntPresentInSlice_In in C. congruence. }
      intuition (subst; auto). contradiction.
Qed.

(** X6: the notes found for a tag and a status are exactly the notes of the
    store that have the status and carry the id of the tag;
    [FindNotesByTagSlug] looks the tag up by its slug first and finds nothing
    for a slug that is not registered. *)
Theorem FindNotesByTagSlug_spec reminderData tagSlug status :
  (TagFromSlug reminderData tagSlug = None ->
   FindNotesByTagSlug reminderData tagSlug status = [])
  /\ (forall n,
        In n (FindNotesByTagSlug reminderData tagSlug status)
        <-> exists tag,
              TagFromSlug reminderData tagSlug = Some tag
              /\ In n (Notes reminderData) /\ Status n = status
              /\ In (Id tag) (TagIds n))
  /\ (forall tagID n,
        In n (FindNotesByTagId reminderData tagID status)
        <-> In n (Notes reminderData) /\ Status n = status
            /\ In tagID (TagIds n)).
Proof.
  assert (G : forall tagID n,
    In n (FindNotesByTagId reminderData tagID status)
    <-> In n (Notes reminderData) /\ Status n = status /\ In tagID (TagIds n)).
  { intros tagID n. unfold FindNotesByTagId, WithTagIdAndStatus.
    rewrite withTagLoop_In, WithStatus_In. simpl. tauto. }
  unfold FindNotesByTagSlug. split; [|split]; [| |exact G].
  - intros ->. reflexivity.
  - intros n. destruct (TagFromSlug reminderData tagSlug) as [tag|].
    + rewrite G. split.
      * intros H. exists tag. auto.
      * intros (tag' & [= <-] & H). exact H.
    + split; [intros [] | intros (tag' & [=] & _)].
Qed.

Lemma FindNotesByTagSlug_spec_witness :
  FindNotesByTagSlug (Sample.data [Sample.note [0; 4] 0]) "no-such-tag" "pending"
  = [].
Proof.
  apply (FindNotesByTagSlug_spec (Sample.data [Sample.note [0; 4] 0])
           "no-such-tag" "pending").
  reflexivity.
Defined.

Example FindNotesByTagSlug_sample :
  let a := Sample.note [0; 4] 0 in
  let b := Sample.note [5] 0 in
  FindNotesByTagSlug (Sample.data [a; b]) "repeat-annually" "pending" = [a]
  /\ FindNotesByTagSlug (Sample.data [a; b]) "repeat-annually" "done" = [].
Proof. vm_compute. split; reflexivity. Qed.

(* ================================================================= *)
(** ** The mutators of a note *)

Lemma blank_dec text :
  (strlen (TrimString text) =? 0) = true <-> TrimString text = "".
Proof. apply strlen_zero. Qed.

(** A call that returns an error leaves the note as it was. *)
Lemma callNote_error_keeps now call note :
  snd (callNote now call note) <> None -> fst (callNote now call note) = note.
Proof.
  destruct call as [text|text|text|tagIDs|status repeatTagIDs]; simpl.
  - unfold AddComment. destruct (strlen (TrimString text) =? 0); simpl;
      [reflexivity | congruence].
  - unfold UpdateText. destruct (strlen (TrimString text) =? 0); simpl;
      [reflexivity | congruence].
  - unfold UpdateCompleteBy. destruct (strlen (TrimString text) =? 0); simpl;
      [reflexivity|].
    destruct (text =? "nil")%string; simpl; congruence.
  - congruence.
  - unfold UpdateStatus.
    destruct (len _ =? 0); simpl; [|congruence].
    destruct (negb _); simpl; congruence.
Qed.

(** X7: a call on a note that returns an error has changed nothing: the
    note is as it was. Only [AddComment], [UpdateText] and
    [UpdateCompleteBy] return errors, and they do so exactly when the text
    is empty once trimmed; [UpdateTags] and [UpdateStatus] never do. *)
Theorem note_call_error_changes_nothing now call note :
  (snd (callNote now call note) <> None -> fst (callNote now call note) = note)
  /\ (snd (callNote now call note) <> None
      <-> exists text,
            (call = CallAddComment text \/ call = CallUpdateText text
             \/ call = CallUpdateCompleteBy text)
            /\ TrimString text = "").
Proof.
  destruct call as [text|text|text|tagIDs|status repeatTagIDs]; simpl.
  - unfold AddComment. destruct (strlen (TrimString text) =? 0) eqn:E; simpl.
    + apply blank_dec in E. split; [reflexivity|].
      split; [intros _; exists text; auto | discriminate].
    + split; [congruence|]. split; [congruence|].
      intros (t & [[= <-]|[[=]|[=]]] & Ht). apply blank_dec in Ht. congruence.
  - unfold UpdateText. destruct (strlen (TrimString text) =? 0) eqn:E; simpl.
    + apply blank_dec in E. split; [reflexivity|].
      split; [intros _; exists text; auto | discriminate].
    + split; [congruence|]. split; [congruence|].
      intros (t & [[=]|[[= <-]|[=]]] & Ht). apply blank_dec in Ht. congruence.
  - unfold UpdateCompleteBy.
    destruct (strlen (TrimString text) =? 0) eqn:E; simpl.
    + apply blank_dec in E. split; [reflexivity|].
      split; [intros _; exists text; auto | discriminate].
    + assert (snd (if (text =? "nil")%string
                   then (withDueDate note 0 now, None)
                   else (withDueDate note (ParseOrZero layoutDMY text) now,
                         @None error)) = None)
        by (destruct (text =? "nil")%string; reflexivity).
      unfold withDueDate in H.
      split; [congruence|]. split; [congruence|].
      intros (t & [[=]|[[=]|[= <-]]] & Ht). apply blank_dec in Ht. congruence.
  - split; [congruence|]. split; [congruence|].
    intros (t & [[=]|[[=]|[=]]] & _).
  - assert (snd (UpdateStatus now note status repeatTagIDs) = None).
    { unfold UpdateStatus. destruct (negb _); [reflexivity|].
      destruct (negb _); reflexivity. }
    split; [congruence|]. split; [congruence|].
    intros (t & [[=]|[[=]|[=]]] & _).
Qed.

Lemma note_call_error_changes_nothing_witness :
  fst (callNote 1700000000 (CallAddComment "  ") (Sample.note [0] 5))
  = Sample.note [0] 5.
Proof.
  apply (note_call_error_changes_nothing 1700000000 (CallAddComment "  ")
           (Sample.note [0] 5)).
  vm_compute. discriminate.
Defined.

Lemma callNote_invariants now call note :
  CreatedAt (fst (callNote now call note)) = CreatedAt note
  /\ (exists added, Comments (fst (callNote now call note))
                    = (Comments note ++ added)%list)
  /\ (fst (callNote now call note) = note
      \/ UpdatedAt (fst (callNote now call note)) = now).
Proof.
  destruct call as [text|text|text|tagIDs|status repeatTagIDs]; simpl.
  - unfold AddComment. destruct (_ =? 0); simpl.
    + split; [reflexivity|]. split; [exists []; now rewrite app_nil_r | auto].
    + split; [reflexivity|]. split; [eexists; reflexivity | auto].
  - unfold UpdateText. destruct (_ =? 0); simpl;
      (split; [reflexivity|]; split; [exists []; now rewrite app_nil_r | auto]).
  - unfold UpdateCompleteBy. destruct (_ =? 0); [|destruct (_ =? _)%string];
      simpl;
      (split; [reflexivity|]; split; [exists []; now rewrite app_nil_r | auto]).
  - split; [reflexivity|]. split; [exists []; now rewrite app_nil_r | auto].
  - unfold UpdateStatus. destruct (negb _); [|destruct (negb _)]; simpl;
      (split; [reflexivity|]; split; [exists []; now rewrite app_nil_r | auto]).
Qed.

(** X8: whatever calls are made on a note, in whatever order and whether
    they succeed or not, the time of creation stays as it is and the
    comments are only added to at the end: the comments the note had are a
    prefix of the comments it has afterwards. *)
Theorem note_history_append_only calls note :
  CreatedAt (callsNote calls note) = CreatedAt note
  /\ exists added,
       Comments (callsNote calls note) = (Comments note ++ added)%list.
Proof.
  revert note. induction calls as [|[now call] calls IH]; intros note; simpl.
  - split; [reflexivity | exists []; now rewrite app_nil_r].
  - destruct (IH (fst (callNote now call note))) as (Hc & added & Ha).
    destruct (callNote_invariants now call note) as (Hc' & (added' & Ha') & _).
    split; [congruence|].
    exists (added' ++ added)%list. rewrite Ha, Ha'. now rewrite app_assoc.
Qed.

(** X9: a call changes the time of update only to the clock reading of the
    call, and only together with a change it makes: after any call the note
    is as it was, or its time of update is the clock's. So a note whose
    time of update is not after the clock keeps it so. *)
Theorem note_updated_with_the_clock now call note :
  (fst (callNote now call note) = note
   \/ UpdatedAt (fst (callNote now call note)) = now)
  /\ (UpdatedAt note <= now -> UpdatedAt (fst (callNote now call note)) <= now).
Proof.
  destruct (callNote_invariants now call note) as (_ & _ & H).
  split; [exact H|]. intros Hle. destruct H as [-> | ->]; lia.
Qed.

Lemma note_updated_with_the_clock_witness :
  UpdatedAt (fst (callNote 1700000000 (CallUpdateTags [1; 2])
                    (Sample.note [0] 5))) <= 1700000000.
Proof.
  apply (note_updated_with_the_clock 1700000000 (CallUpdateTags [1; 2])
           (Sample.note [0] 5)).
  vm_compute. discriminate.
Defined.

(** X10: [UpdateStatus] sets the status asked for, and the time of update
    to the clock's, exactly when no tag of the note is among [repeatTagIDs]
    and the status differs from the current one; it changes no other field
    and never returns an error. *)
Theorem UpdateStatus_changes now note status repeatTagIDs :
  snd (UpdateStatus now note status repeatTagIDs) = None
  /\ ((forall i, In i (TagIds note) -> ~ In i repeatTagIDs) ->
      status <> Status note ->
      fst (UpdateStatus now note status repeatTagIDs)
      = {| Text := Text note; Comments := Comments note; Status := status;
           TagIds := TagIds note; CompleteBy := CompleteBy note;
           CreatedAt := CreatedAt note; UpdatedAt := now |})
  /\ (Status (fst (UpdateStatus now note status repeatTagIDs)) <> Status note ->
      (forall i, In i (TagIds note) -> ~ In i repeatTagIDs)
      /\ Status (fst (UpdateStatus now note status repeatTagIDs)) = status).
Proof.
  unfold UpdateStatus.
  destruct (len (GetCommonMembersIntSlices (TagIds note) repeatTagIDs) =? 0)
    eqn:E; simpl.
  - apply len_zero in E.
    pose proof (proj1 (GetCommonMembersIntSlices_nil _ _) E) as Hd.
    destruct (String.eqb_spec (Status note) status) as [Es|Es]; simpl.
    + split; [reflexivity|]. split; [congruence | intros C; congruence].
    + split; [reflexivity|]. split; [reflexivity | auto].
  - split; [reflexivity|]. split.
    + intros Hd _. apply GetCommonMembersIntSlices_nil in Hd.
      rewrite Hd in E. discriminate.
    + intros C. congruence.
Qed.

Lemma UpdateStatus_changes_witness :
  fst (UpdateStatus 1700000000 (Sample.note [0] 5) "done" [4; 5])
  = {| Text := "Renew passport"; Comments := []; Status := "done";
       TagIds := [0]; CompleteBy := 5; CreatedAt := 1600000000;
       UpdatedAt := 1700000000 |}.
Proof.
  apply (UpdateStatus_changes 1700000000 (Sample.note [0] 5) "done" [4; 5]).
  - simpl. intros i [<-|[]] [H|[H|[]]]; discriminate.
  - discriminate.
Defined.

(* ================================================================= *)
(** ** Writing the data file *)

Section Persisting.

Variable MarshalIndent : ReminderData -> string + error.
Variable ToLower : string -> string.

Lemma UpdateDataFile_cases now reminderData msg w :
  exists w' err,
    UpdateDataFile MarshalIndent now reminderData msg w
    = (touched now reminderData, w', err)
    /\ ((err = None
         /\ exists json,
              MarshalIndent (touched now reminderData) = inl json
              /\ (DataFile reminderData ∉ denied w)
              /\ w' = {| files := <[DataFile reminderData := File json]> (files w);
                         denied := denied w |})
        \/ (err <> None /\ w' = w
            /\ ((exists e, MarshalIndent (touched now reminderData) = inr e)
                \/ DataFile reminderData ∈ denied w))).
Proof.
  unfold UpdateDataFile. fold (touched now reminderData).
  destruct (MarshalIndent (touched now reminderData)) as [json|e] eqn:E.
  - unfold WriteFile. cbn [DataFile touched].
    destruct (bool_decide (DataFile reminderData ∈ denied w)) eqn:D.
    + apply bool_decide_eq_true_1 in D. eexists _, _. split; [reflexivity|].
      right. split; [discriminate|]. auto.
    + apply bool_decide_eq_false_1 in D. eexists _, _. split; [reflexivity|].
      left. split; [reflexivity|]. exists json. auto.
  - eexists _, _. split; [reflexivity|]. right.
    split; [discriminate|]. split; [reflexivity|]. left. eauto.
Qed.

(** X11: [UpdateDataFile] sets the time of update of the aggregate to the
    clock's and changes nothing else of it, whatever becomes of the write.
    When the aggregate cannot be encoded, the error of the encoding is
    returned and nothing is written. When no error is returned, the
    aggregate was encoded and the data file reads back as that encoding. And
    when the aggregate can be encoded and the data file can be written, no
    error is returned. Nothing is said of the file system after a write that
    failed. *)
Theorem UpdateDataFile_spec now reminderData msg w :
  let result := UpdateDataFile MarshalIndent now reminderData msg w in
  fst (fst result) = touched now reminderData
  /\ (forall e, MarshalIndent (touched now reminderData) = inr e ->
                result = (touched now reminderData, w, Some e))
  /\ (snd result = None ->
      exists json,
        MarshalIndent (touched now reminderData) = inl json
        /\ ReadFile (snd (fst result)) (DataFile reminderData) = inl json)
  /\ (forall json, MarshalIndent (touched now reminderData) = inl json ->
                   DataFile reminderData ∉ denied w -> snd result = None).
Proof.
  cbv zeta. unfold UpdateDataFile. fold (touched now reminderData).
  destruct (MarshalIndent (touched now reminderData)) as [json|e] eqn:E.
  - unfold WriteFile. cbn [DataFile touched].
    destruct (bool_decide (DataFile reminderData ∈ denied w)) eqn:D;
      cbn [fst snd].
    + apply bool_decide_eq_true_1 in D.
      split; [reflexivity|]. split; [discriminate|].
      split; [discriminate|]. intros json' _ Hd. contradiction.
    + split; [reflexivity|]. split; [discriminate|]. split; [|reflexivity].
      intros _. exists json. split; [reflexivity|].
      unfold ReadFile. cbn [files]. now rewrite lookup_insert_eq.
  - cbn [fst snd]. split; [reflexivity|]. split.
    + now intros e' [= <-].
    + split; discriminate.
Qed.

(* ================================================================= *)
(** ** Calls on a note through the aggregate *)

Lemma callAggregate_eq now call reminderData ref w note :
  Notes reminderData !! ref = Some note ->
  callAggregate MarshalIndent now call reminderData ref w
  = Some (match callNote now (callOf reminderData call) note with
          | (note', Some err) => (storeNote reminderData ref note', w, Some err)
          | (note', None) =>
              UpdateDataFile MarshalIndent now
                (storeNote reminderData ref note') "" w
          end).
Proof.
  intros H.
  destruct call as [text|text|text|tagIDs|status repeatTagIDs]; simpl;
    unfold AddNoteComment, UpdateNoteText, UpdateNoteCompleteBy,
      UpdateNoteTags, UpdateNoteStatus, thenPersist;
    rewrite H.
  - destruct (AddComment now note text) as [? [?|]]; reflexivity.
  - destruct (UpdateText now note text) as [? [?|]]; reflexivity.
  - destruct (UpdateCompleteBy now note text) as [? [?|]]; reflexivity.
  - reflexivity.
  - destruct (UpdateStatus now note status _) as [? [?|]]; reflexivity.
Qed.

Lemma storeNote_same reminderData ref note :
  Notes reminderData !! ref = Some note ->
  storeNote reminderData ref note = reminderData.
Proof.
  intros H. unfold storeNote. destruct reminderData; simpl in *.
  f_equal. apply list_insert_id. exact H.
Qed.

(** X12: a call made through the aggregate on a note of the store runs the
    call on that note and leaves the other notes, the tags and the rest of
    the aggregate alone. When the call on the note returns an error, that
    error is returned, the aggregate is as it was and nothing is written;
    otherwise the aggregate with the changed note, and its time of update
    set to the clock's, is what [UpdateDataFile] is given, and the error
    returned is the one of the write. *)
Theorem aggregate_call_spec now call reminderData ref w note :
  Notes reminderData !! ref = Some note ->
  let result := callNote now (callOf reminderData call) note in
  (snd result <> None ->
   callAggregate MarshalIndent now call reminderData ref w
   = Some (reminderData, w, snd result))
  /\ (snd result = None ->
      callAggregate MarshalIndent now call reminderData ref w
      = Some (UpdateDataFile MarshalIndent now
                (storeNote reminderData ref (fst result)) "" w))
  /\ (forall rd' w' err,
        callAggregate MarshalIndent now call reminderData ref w
        = Some (rd', w', err) ->
        Notes rd' = <[ref := fst result]> (Notes reminderData)
        /\ Tags rd' = Tags reminderData
        /\ DataFile rd' = DataFile reminderData
        /\ LastBackupAt rd' = LastBackupAt reminderData).
Proof.
  intros H result. rewrite (callAggregate_eq now call reminderData ref w note H).
  fold result.
  pose proof (callNote_error_keeps now (callOf reminderData call) note)
    as Herr. fold result in Herr.
  destruct result as [note' [e|]] eqn:R; simpl in *.
  - split; [|split]; [| congruence |].
    + intros _. rewrite (Herr ltac:(discriminate)).
      now rewrite (storeNote_same _ _ _ H).
    + intros rd' w' err [= <- <- <-]. simpl. auto.
  - split; [congruence|]. split; [reflexivity|].
    intros rd' w' err E.
    destruct (UpdateDataFile_cases now (storeNote reminderData ref note') "" w)
      as (w1 & e1 & E1 & _).
    rewrite E1 in E. injection E as <- _ _. simpl. auto.
Qed.

(** The two cases in which [UpdateStatus] does nothing. *)
Lemma UpdateStatus_skipped now note status repeatTagIDs :
  (exists i, In i (TagIds note) /\ In i repeatTagIDs) \/ status = Status note ->
  UpdateStatus now note status repeatTagIDs = (note, None).
Proof.
  intros H. unfold UpdateStatus.
  destruct (len (GetCommonMembersIntSlices (TagIds note) repeatTagIDs) =? 0)
    eqn:E; [|reflexivity].
  simpl. apply len_zero in E. destruct H as [(i & H1 & H2)| ->].
  - destruct (proj1 (GetCommonMembersIntSlices_nil _ _) E i H1 H2).
  - rewrite String.eqb_refl. reflexivity.
Qed.

(** What a call through the aggregate leaves alone. *)
Lemma callAggregate_frame now call reminderData ref w note rd' w' err :
  Notes reminderData !! ref = Some note ->
  callAggregate MarshalIndent now call reminderData ref w = Some (rd', w', err) ->
  Notes rd'
  = <[ref := fst (callNote now (callOf reminderData call) note)]>
      (Notes reminderData)
  /\ Tags rd' = Tags reminderData
  /\ DataFile rd' = DataFile reminderData
  /\ LastBackupAt rd' = LastBackupAt reminderData.
Proof.
  intros H E. rewrite (callAggregate_eq now call reminderData ref w note H) in E.
  destruct (callNote now (callOf reminderData call) note) as [note' [e|]].
  - injection E as <- _ _. simpl. auto.
  - destruct (UpdateDataFile_cases now (storeNote reminderData ref note') "" w)
      as (w1 & e1 & E1 & _).
    rewrite E1 in E. injection E as <- _ _. simpl. auto.
Qed.

(** X13: a status update that is skipped, because the note carries a tag of
    the "repeat" group or has the status already, still writes the data
    file: the notes and the tags are as they were, the time of update of the
    aggregate is the clock's, and the data file holds the new encoding. *)
Theorem skipped_status_update_is_written now reminderData ref status w note json :
  Notes reminderData !! ref = Some note ->
  (exists i, In i (TagIds note)
             /\ In i (TagIdsForGroup reminderData "repeat"))
  \/ status = Status note ->
  MarshalIndent (touched now reminderData) = inl json ->
  DataFile reminderData ∉ denied w ->
  UpdateNoteStatus MarshalIndent now reminderData ref status w
  = Some (touched now reminderData,
          {| files := <[DataFile reminderData := File json]> (files w);
             denied := denied w |}, None).
Proof.
  intros Hn Hskip Hm Hd.
  unfold UpdateNoteStatus, thenPersist. rewrite Hn.
  rewrite (UpdateStatus_skipped now note status _ Hskip).
  rewrite (storeNote_same _ _ _ Hn).
  unfold UpdateDataFile. fold (touched now reminderData). rewrite Hm.
  unfold WriteFile. cbn [DataFile touched].
  rewrite (bool_decide_eq_false_2 _ Hd). reflexivity.
Qed.

End Persisting.

Lemma UpdateDataFile_spec_witness :
  ReadFile
    (snd (fst (UpdateDataFile Sample.marshal 1700000000 (Sample.data []) ""
                 Sample.world)))
    "/home/asha/reminder/data.json"
  = inl "data_file=/home/asha/reminder/data.json;last_backup_at=0".
Proof.
  destruct (UpdateDataFile_spec Sample.marshal 1700000000 (Sample.data []) ""
              Sample.world) as (_ & _ & H & _).
  destruct (H eq_refl) as (json & Hm & Hf).
  injection Hm as <-. exact Hf.
Defined.

Lemma aggregate_call_spec_witness :
  callAggregate Sample.marshal 1700000000 (CallUpdateText "   ")
    (Sample.data [Sample.note [0] 5]) 0%nat Sample.world
  = Some (Sample.data [Sample.note [0] 5], Sample.world,
          Some "Note's text is empty").
Proof.
  destruct (aggregate_call_spec Sample.marshal 1700000000 (CallUpdateText "   ")
              (Sample.data [Sample.note [0] 5]) 0%nat Sample.world
              (Sample.note [0] 5) eq_refl) as (H & _).
  apply H. vm_compute. discriminate.
Defined.

Lemma skipped_status_update_is_written_witness :
  UpdateNoteStatus Sample.marshal 1700000000
    (Sample.data [Sample.note [0; 4] 5]) 0%nat "done" Sample.world
  = Some (touched 1700000000 (Sample.data [Sample.note [0; 4] 5]),
          {| files := <["/home/asha/reminder/data.json" :=
                          File "data_file=/home/asha/reminder/data.json;last_backup_at=0"]>
                        (files Sample.world);
             denied := denied Sample.world |}, None).
Proof.
  apply (skipped_status_update_is_written Sample.marshal 1700000000
           (Sample.data [Sample.note [0; 4] 5]) 0%nat "done" Sample.world
           (Sample.note [0; 4] 5)
           "data_file=/home/asha/reminder/data.json;last_backup_at=0").
  - reflexivity.
  - left. exists 4. split; [simpl; auto | vm_compute; auto].
  - reflexivity.
  - vm_compute. set_solver.
Defined.


(* ================================================================= *)
(** ** The registry of tags *)

Section Registry.

Variable MarshalIndent : ReminderData -> string + error.
Variable ToLower : string -> string.

Lemma NewTag_success now (prompt : Prompt) tagID tag :
  NewTag ToLower now prompt tagID "" "" = (tag, None) ->
  Id tag = tagID
  /\ GoStrings.TrimSpace (Slug tag) <> ""
  /\ Slug tag = ToLower (GoStrings.TrimSpace (fst (prompt "tag_slug" "")))
  /\ Group tag = ToLower (fst (prompt "tag_group" ""))
  /\ TagCreatedAt tag = now.
Proof.
  unfold NewTag. simpl.
  destruct (prompt "tag_slug" "") as [slug [e|]]; simpl; [discriminate|].
  destruct (strlen _ =? 0) eqn:E; [discriminate|].
  destruct (prompt "tag_group" "") as [group [e|]]; simpl; [discriminate|].
  intros [= <-]. simpl. repeat split; try reflexivity.
  intros C. apply strlen_zero in C. congruence.
Qed.

Lemma isNewSlugLoop_true tags tag :
  isNewSlugLoop tags tag true = true
  <-> forall existingTag, In existingTag tags -> Slug existingTag <> Slug tag.
Proof.
  split.
  - intros H t Ht E.
    assert (F : isNewSlugLoop tags tag true = false)
      by (apply isNewSlugLoop_false; right; exists t; auto).
    congruence.
  - intros H. destruct (isNewSlugLoop tags tag true) eqn:E; [reflexivity|].
    apply isNewSlugLoop_false in E. destruct E as [E|(t & Ht & Es)];
      [discriminate | destruct (H t Ht Es)].
Qed.

(** What a registration does to the registry: nothing, or one tag more at
    the end, with the number of tags as its id and a slug that was free. *)
Lemma NewTagRegistration_tags now prompt reminderData w tagID err rd' w' :
  NewTagRegistration MarshalIndent ToLower now prompt reminderData w
  = (tagID, err, rd', w') ->
  Notes rd' = Notes reminderData /\ DataFile rd' = DataFile reminderData
  /\ DataUser rd' = DataUser reminderData
  /\ LastBackupAt rd' = LastBackupAt reminderData
  /\ ((Tags rd' = Tags reminderData /\ err <> None /\ w' = w)
      \/ exists tag,
           Tags rd' = (Tags reminderData ++ [tag])%list
           /\ NewTag ToLower now prompt (len (Tags reminderData)) "" ""
              = (tag, None)
           /\ tagID = len (Tags reminderData)
           /\ (forall existingTag, In existingTag (Tags reminderData) ->
                                   Slug existingTag <> Slug tag)
           /\ (rd', w', err)
              = UpdateDataFile MarshalIndent now
                  {| DataUser := DataUser reminderData;
                     Notes := Notes reminderData;
                     Tags := (Tags reminderData ++ [tag])%list;
                     DataFile := DataFile reminderData;
                     LastBackupAt := LastBackupAt reminderData;
                     DataUpdatedAt := DataUpdatedAt reminderData |} "" w).
Proof.
  unfold NewTagRegistration, nextPossibleTagId.
  destruct (NewTag ToLower now prompt (len (Tags reminderData)) "" "")
    as [tag [e|]] eqn:En.
  - intros [= <- <- <- <-]. repeat split. left. repeat split. discriminate.
  - unfold newTagAppend.
    destruct (isNewSlugLoop (Tags reminderData) tag true) eqn:El; simpl.
    + intros H.
      match type of H with
      | context [UpdateDataFile _ _ ?r _ _] =>
          destruct (UpdateDataFile_cases MarshalIndent now r "" w)
            as (w1 & e1 & E1 & _)
      end.
      rewrite E1 in H. injection H as <- <- <- <-.
      simpl. repeat split. right. exists tag.
      split; [reflexivity|]. split; [reflexivity|]. split; [reflexivity|].
      split; [apply isNewSlugLoop_true; exact El | symmetry; exact E1].
    + intros [= <- <- <- <-]. repeat split. left. repeat split. discriminate.
Qed.

Lemma registryOk_basic now : registryOk (BasicTags now).
Proof.
  unfold registryOk.
  assert (Ei : map Id (BasicTags now) = [0; 1; 2; 3; 4; 5; 6]) by reflexivity.
  assert (Es : map Slug (BasicTags now)
               = ["current"; "priority-urgent"; "priority-medium";
                  "priority-low"; "repeat-annually"; "repeat-monthly"; "tips"])
    by reflexivity.
  rewrite Ei, Es.
  split; [|split; [|split]].
  - repeat (constructor;
      [intros C; apply list_elem_of_In in C; simpl in C; intuition discriminate|]).
    constructor.
  - intros tag Hin. simpl in Hin.
    repeat (destruct Hin as [<-|Hin]; [unfold len; simpl; lia|]).
    destruct Hin.
  - repeat (constructor;
      [intros C; apply list_elem_of_In in C; simpl in C; intuition discriminate|]).
    constructor.
  - intros tag Hin. simpl in Hin.
    repeat (destruct Hin as [<-|Hin]; [vm_compute; discriminate|]).
    destruct Hin.
Qed.

Lemma len_app_one {A} (l : list A) (x : A) : len (l ++ [x]) = len l + 1.
Proof. unfold len. rewrite length_app. simpl. lia. Qed.

Lemma registryOk_append tags tag :
  registryOk tags -> Id tag = len tags ->
  (forall existingTag, In existingTag tags -> Slug existingTag <> Slug tag) ->
  GoStrings.TrimSpace (Slug tag) <> "" ->
  registryOk (tags ++ [tag]).
Proof.
  intros (Hid & Hb & Hs & Hn) Hi Hfree Hne. unfold registryOk.
  rewrite !map_app, len_app_one. simpl.
  split; [|split; [|split]].
  - apply NoDup_app. split; [exact Hid|]. split.
    + intros x Hx Hx'. apply list_elem_of_In in Hx. apply in_map_iff in Hx.
      destruct Hx as (t & <- & Ht). apply list_elem_of_In in Hx'.
      destruct Hx' as [E|[]]. specialize (Hb t Ht). lia.
    + repeat constructor. intros C. apply list_elem_of_In in C. destruct C.
  - intros t Ht. apply in_app_iff in Ht. destruct Ht as [Ht|[<-|[]]].
    + specialize (Hb t Ht). lia.
    + unfold len in *. lia.
  - apply NoDup_app. split; [exact Hs|]. split.
    + intros x Hx Hx'. apply list_elem_of_In in Hx. apply in_map_iff in Hx.
      destruct Hx as (t & <- & Ht). apply list_elem_of_In in Hx'.
      destruct Hx' as [E|[]]. exact (Hfree t Ht (eq_sym E)).
    + repeat constructor. intros C. apply list_elem_of_In in C. destruct C.
  - intros t Ht. apply in_app_iff in Ht. destruct Ht as [Ht|[<-|[]]]; auto.
Qed.

(** X14: a registration that returns no error has appended exactly one tag
    at the end of the registry, with the former number of tags as its id
    (which is the id returned), the slug the user answered, trimmed and put
    in lower case, which no tag had, and the group answered, in lower case;
    the tags that were there and the notes are as before, and the data file
    holds the new aggregate. *)
Theorem NewTagRegistration_success now (prompt : Prompt) reminderData w
  tagID rd' w' :
  NewTagRegistration MarshalIndent ToLower now prompt reminderData w
  = (tagID, None, rd', w') ->
  exists tag,
    Tags rd' = (Tags reminderData ++ [tag])%list
    /\ tagID = len (Tags reminderData) /\ Id tag = tagID
    /\ Slug tag = ToLower (GoStrings.TrimSpace (fst (prompt "tag_slug" "")))
    /\ Group tag = ToLower (fst (prompt "tag_group" ""))
    /\ (forall existingTag, In existingTag (Tags reminderData) ->
                            Slug existingTag <> Slug tag)
    /\ Notes rd' = Notes reminderData
    /\ exists json,
         MarshalIndent rd' = inl json
         /\ files w' !! DataFile reminderData = Some (File json).
Proof.
  intros H.
  destruct (NewTagRegistration_tags _ _ _ _ _ _ _ _ H)
    as (Hn & Hd & _ & _ & [(_ & C & _)|(tag & Ht & En & Hi & Hfree & Eu)]);
    [congruence|].
  destruct (NewTag_success _ _ _ _ En) as (Hid & _ & Hs & Hg & _).
  exists tag. repeat (split; [congruence || assumption|]).
  match type of Eu with
  | _ = UpdateDataFile _ _ ?r _ _ =>
      destruct (UpdateDataFile_cases MarshalIndent now r "" w)
        as (w1 & e1 & E1 & Hc);
      rewrite E1 in Eu
  end.
  injection Eu as -> -> <-.
  destruct Hc as [(_ & json & Hm & _ & ->)|(Hne & _)]; [|congruence].
  exists json. split; [exact Hm|]. apply lookup_insert_eq.
Qed.

Lemma RegisterBasicTags_cases now reminderData w :
  (Tags reminderData <> [] /\
   fst (RegisterBasicTags MarshalIndent now reminderData w) = (reminderData, w)
   /\ snd (RegisterBasicTags MarshalIndent now reminderData w) <> None)
  \/ (Tags reminderData = [] /\
      RegisterBasicTags MarshalIndent now reminderData w
      = UpdateDataFile MarshalIndent now
          {| DataUser := DataUser reminderData; Notes := Notes reminderData;
             Tags := BasicTags now; DataFile := DataFile reminderData;
             LastBackupAt := LastBackupAt reminderData;
             DataUpdatedAt := DataUpdatedAt reminderData |} "" w).
Proof.
  unfold RegisterBasicTags.
  destruct (len (Tags reminderData) =? 0) eqn:E; simpl.
  - right. apply len_zero in E. auto.
  - left. split; [|split; [reflexivity | discriminate]].
    intros C. apply len_zero in C. congruence.
Qed.

(** X15: [RegisterBasicTags] on a registry that holds a tag returns an error
    and changes nothing, in memory or on disk. On an empty registry it
    installs the seven basic tags in memory whether or not the write
    succeeds, so that a second call, at any time and on any file system, is
    refused. *)
Theorem RegisterBasicTags_once now reminderData w :
  (Tags reminderData <> [] ->
   fst (RegisterBasicTags MarshalIndent now reminderData w) = (reminderData, w)
   /\ snd (RegisterBasicTags MarshalIndent now reminderData w) <> None)
  /\ (Tags reminderData = [] ->
      let rd' := fst (fst (RegisterBasicTags MarshalIndent now reminderData w)) in
      Tags rd' = BasicTags now
      /\ Notes rd' = Notes reminderData
      /\ forall now2 w2,
           fst (RegisterBasicTags MarshalIndent now2 rd' w2) = (rd', w2)
           /\ snd (RegisterBasicTags MarshalIndent now2 rd' w2) <> None).
Proof.
  split.
  - intros Hne.
    destruct (RegisterBasicTags_cases now reminderData w) as [(_ & H)|(C & _)];
      [exact H | congruence].
  - intros He rd'.
    destruct (RegisterBasicTags_cases now reminderData w) as [(C & _)|(_ & E)];
      [congruence|].
    assert (Ht : Tags rd' = BasicTags now /\ Notes rd' = Notes reminderData).
    { subst rd'. rewrite E.
      match goal with
      | |- context [UpdateDataFile _ _ ?r _ _] =>
          destruct (UpdateDataFile_cases MarshalIndent now r "" w)
            as (w1 & e1 & E1 & _);
          rewrite E1
      end. split; reflexivity. }
    destruct Ht as (Ht & Hn). split; [exact Ht|]. split; [exact Hn|].
    intros now2 w2.
    destruct (RegisterBasicTags_cases now2 rd' w2) as [(_ & H)|(C & _)];
      [exact H|].
    rewrite Ht in C. discriminate.
Qed.

Lemma keeps_same (s s' : ReminderData * World) :
  Tags (fst s') = Tags (fst s) ->
  DataFile (fst s') = DataFile (fst s) ->
  DataUser (fst s') = DataUser (fst s) ->
  (List.length (Notes (fst s)) <= List.length (Notes (fst s')))%nat ->
  DataFile (fst s') = DataFile (fst s)
  /\ DataUser (fst s') = DataUser (fst s)
  /\ (List.length (Notes (fst s)) <= List.length (Notes (fst s')))%nat
  /\ (exists added, Tags (fst s') = (Tags (fst s) ++ added)%list)
  /\ (registryOk (Tags (fst s)) -> registryOk (Tags (fst s'))).
Proof.
  intros Ht Hd Hu Hn. split; [exact Hd|]. split; [exact Hu|].
  split; [exact Hn|]. split.
  - exists []. rewrite Ht. now rewrite app_nil_r.
  - rewrite Ht. auto.
Qed.

Lemma AggregateStep_keeps (s s' : ReminderData * World) :
  AggregateStep MarshalIndent ToLower s s' ->
  DataFile (fst s') = DataFile (fst s)
  /\ DataUser (fst s') = DataUser (fst s)
  /\ (List.length (Notes (fst s)) <= List.length (Notes (fst s')))%nat
  /\ (exists added, Tags (fst s') = (Tags (fst s) ++ added)%list)
  /\ (registryOk (Tags (fst s)) -> registryOk (Tags (fst s'))).
Proof.
  intros H. destruct H as
    [now rd w rd' w' err H
    |now prompt rd w tagID err rd' w' H
    |now prompt tagIDs rd w note err rd' w' H
    |now call ref rd w rd' w' err H
    |now gapSecs rd w dstFile err rd' w' H].
  - destruct (RegisterBasicTags_cases now rd w) as [(_ & E & _)|(He & E)];
      rewrite H in E; simpl in E.
    + injection E as -> ->. apply keeps_same; simpl; auto.
    + match type of E with
      | _ = UpdateDataFile _ _ ?r _ _ =>
          destruct (UpdateDataFile_cases MarshalIndent now r "" w)
            as (w1 & e1 & E1 & _); rewrite E1 in E
      end.
      injection E as -> _ _. simpl.
      split; [reflexivity|]. split; [reflexivity|]. split; [lia|]. split.
      * exists (BasicTags now). now rewrite He.
      * intros _. apply registryOk_basic.
  - destruct (NewTagRegistration_tags _ _ _ _ _ _ _ _ H)
      as (Hn & Hd & Hu & _ & [(Ht & _)|(tag & Ht & En & _ & Hfree & _)]).
    + apply keeps_same; simpl; auto. rewrite Hn. lia.
    + simpl. split; [exact Hd|]. split; [exact Hu|].
      split; [rewrite Hn; lia|]. split; [eauto|].
      intros Hok. rewrite Ht.
      destruct (NewTag_success _ _ _ _ En) as (Hid & Hne & _).
      now apply registryOk_append.
  - unfold NewNoteRegistration in H.
    destruct (NewNote now prompt tagIDs "") as [n [e|]].
    + injection H as _ _ <- _. apply keeps_same; simpl; auto.
    + unfold newNoteAppend in H.
      match type of H with
      | context [UpdateDataFile _ _ ?r _ _] =>
          destruct (UpdateDataFile_cases MarshalIndent now r "" w)
            as (w1 & e1 & E1 & _); rewrite E1 in H
      end.
      assert (rd' = touched now
                {| DataUser := DataUser rd; Notes := (Notes rd ++ [n])%list;
                   Tags := Tags rd; DataFile := DataFile rd;
                   LastBackupAt := LastBackupAt rd;
                   DataUpdatedAt := DataUpdatedAt rd |}) as ->
        by (destruct e1; congruence).
      apply keeps_same; simpl; auto. rewrite length_app. lia.
  - assert (exists note, Notes rd !! ref = Some note) as (note & Hn).
    { destruct (Notes rd !! ref) as [n|] eqn:E; [eauto|].
      destruct call; simpl in H;
        unfold AddNoteComment, UpdateNoteText, UpdateNoteCompleteBy,
          UpdateNoteTags, UpdateNoteStatus, thenPersist in H;
        rewrite E in H; discriminate. }
    destruct (callAggregate_frame MarshalIndent now call rd ref w note
                rd' w' err Hn H) as (Hnotes & Ht & Hd & _).
    apply keeps_same; simpl; auto.
    + rewrite (callAggregate_eq MarshalIndent now call rd ref w note Hn) in H.
      destruct (callNote now (callOf rd call) note) as [n' [e|]].
      * injection H as <- _ _. reflexivity.
      * destruct (UpdateDataFile_cases MarshalIndent now (storeNote rd ref n') "" w)
          as (w1 & e1 & E1 & _).
        rewrite E1 in H. injection H as <- _ _. reflexivity.
    + rewrite Hnotes, length_insert. lia.
  - unfold AutoBackup in H.
    destruct (Int64.sub now (LastBackupAt rd) <? gapSecs).
    + injection H as _ _ <- _. apply keeps_same; simpl; auto.
    + destruct (CreateBackup now rd w) as [[d e] w1].
      match type of H with
      | context [UpdateDataFile _ _ ?r _ _] =>
          destruct (UpdateDataFile_cases MarshalIndent now r "" w1)
            as (w2 & e2 & E2 & _); rewrite E2 in H
      end.
      injection H as _ _ <- _. apply keeps_same; simpl; auto.
Qed.

(** X16: over any sequence of the operations on the aggregate (seeding the
    basic tags, registering tags and notes, calls on notes, automatic
    backups; succeeding or failing), a registry in good order stays in good
    order: the ids are distinct and below the number of tags, so that the
    next id is never in use, and the slugs are distinct and not empty. Tags
    are only added, at the end; no note is removed; the path of the data
    file and the user do not change. An empty registry is in good order. *)
Theorem registry_stays_in_order (s s' : ReminderData * World) :
  rtc (AggregateStep MarshalIndent ToLower) s s' ->
  (registryOk (Tags (fst s)) -> registryOk (Tags (fst s')))
  /\ (Tags (fst s) = [] -> registryOk (Tags (fst s')))
  /\ (exists added, Tags (fst s') = (Tags (fst s) ++ added)%list)
  /\ (List.length (Notes (fst s)) <= List.length (Notes (fst s')))%nat
  /\ DataFile (fst s') = DataFile (fst s)
  /\ DataUser (fst s') = DataUser (fst s).
Proof.
  intros H.
  assert (G : (registryOk (Tags (fst s)) -> registryOk (Tags (fst s')))
    /\ (exists added, Tags (fst s') = (Tags (fst s) ++ added)%list)
    /\ (List.length (Notes (fst s)) <= List.length (Notes (fst s')))%nat
    /\ DataFile (fst s') = DataFile (fst s)
    /\ DataUser (fst s') = DataUser (fst s)).
  { induction H as [s|s1 s2 s3 Hstep _ IH].
    - split; [auto|]. split; [exists []; now rewrite app_nil_r|].
      split; [lia|]. split; reflexivity.
    - destruct (AggregateStep_keeps _ _ Hstep) as (Hd & Hu & Hn & (a1 & Ha) & Hok).
      destruct IH as (IHok & (a2 & IHa) & IHn & IHd & IHu).
      split; [auto|]. split; [|split; [lia | split; congruence]].
      exists (a1 ++ a2)%list. rewrite IHa, Ha. now rewrite app_assoc. }
  destruct G as (Gok & Ga & Gn & Gd & Gu).
  split; [exact Gok|].
  split; [|split; [exact Ga | split; [exact Gn | split; [exact Gd | exact Gu]]]].
  intros He. apply Gok. rewrite He.
  unfold registryOk. simpl.
  split; [constructor|]. split; [intros t []|]. split; [constructor | intros t []].
Qed.

End Registry.

Lemma NewTagRegistration_success_witness :
  exists tag,
    Tags (snd (fst (NewTagRegistration Sample.marshal Sample.toLower 1700000000
                      (Sample.answers " Work " "Office") (Sample.data [])
                      Sample.world)))
    = (Tags (Sample.data []) ++ [tag])%list
    /\ Id tag = 7 /\ Slug tag = "work" /\ Group tag = "office".
Proof.
  destruct (NewTagRegistration Sample.marshal Sample.toLower 1700000000
              (Sample.answers " Work " "Office") (Sample.data []) Sample.world)
    as [[[tagID err] rd'] w'] eqn:E.
  assert (err = None) as ->.
  { pose proof (f_equal (fun r => snd (fst (fst r))) E) as E'.
    vm_compute in E'. symmetry. exact E'. }
  destruct (NewTagRegistration_success Sample.marshal Sample.toLower 1700000000
              (Sample.answers " Work " "Office") (Sample.data []) Sample.world
              tagID rd' w' E)
    as (tag & Ht & Hi & Hid & Hs & Hg & _).
  exists tag. simpl. split; [exact Ht|]. split; [|split].
  - rewrite Hid, Hi. reflexivity.
  - rewrite Hs. reflexivity.
  - rewrite Hg. reflexivity.
Defined.

Lemma RegisterBasicTags_once_witness :
  fst (RegisterBasicTags Sample.marshal 1700000000 (Sample.data []) Sample.world)
  = (Sample.data [], Sample.world).
Proof.
  destruct (RegisterBasicTags_once Sample.marshal 1700000000 (Sample.data [])
              Sample.world) as (H & _).
  apply H. discriminate.
Defined.

Lemma registry_stays_in_order_witness :
  let blank := {| DataUser := Sample.user; Notes := []; Tags := [];
                  DataFile := "/home/asha/reminder/data.json";
                  LastBackupAt := 0; DataUpdatedAt := 0 |} in
  let r1 := RegisterBasicTags Sample.marshal 1700000000 blank Sample.world in
  let r2 := NewTagRegistration Sample.marshal Sample.toLower 1700000100
              (Sample.answers "Work" "") (fst (fst r1)) (snd (fst r1)) in
  registryOk (Tags (snd (fst r2))).
Proof.
  cbv zeta.
  set (blank := {| DataUser := Sample.user; Notes := []; Tags := [];
                   DataFile := "/home/asha/reminder/data.json";
                   LastBackupAt := 0; DataUpdatedAt := 0 |}).
  set (r1 := RegisterBasicTags Sample.marshal 1700000000 blank Sample.world).
  set (r2 := NewTagRegistration Sample.marshal Sample.toLower 1700000100
               (Sample.answers "Work" "") (fst (fst r1)) (snd (fst r1))).
  assert (P3 : forall (A B C : Type) (p : A * B * C),
             p = (fst (fst p), snd (fst p), snd p))
    by (intros A B C [[? ?] ?]; reflexivity).
  assert (P4 : forall (A B C D : Type) (p : A * B * C * D),
             p = (fst (fst (fst p)), snd (fst (fst p)), snd (fst p), snd p))
    by (intros A B C D [[[? ?] ?] ?]; reflexivity).
  destruct (registry_stays_in_order Sample.marshal Sample.toLower
              (blank, Sample.world) (snd (fst r2), snd r2)) as (_ & H & _).
  - eapply rtc_l.
    + apply (StepRegisterBasicTags _ _ 1700000000 blank Sample.world
               (fst (fst r1)) (snd (fst r1)) (snd r1)).
      apply P3.
    + eapply rtc_l; [|apply rtc_refl].
      apply (StepNewTagRegistration _ _ 1700000100 (Sample.answers "Work" "")
               (fst (fst r1)) (snd (fst r1)) (fst (fst (fst r2)))
               (snd (fst (fst r2))) (snd (fst r2)) (snd r2)).
      apply P4.
  - apply H. reflexivity.
Defined.

(* ================================================================= *)
(** ** Backups: names and files *)

Lemma append_inj_r (u : string) : forall s t : string,
  (s ++ u)%string = (t ++ u)%string -> s = t.
Proof.
  assert (L : forall s t : string,
    (s ++ u)%string = (t ++ u)%string -> String.length s = String.length t).
  { intros s t E. apply (f_equal String.length) in E.
    rewrite !length_append in E. lia. }
  induction s as [|a s IH]; intros [|b t] E.
  - reflexivity.
  - apply L in E. discriminate.
  - apply L in E. discriminate.
  - rewrite !append_String in E. injection E as -> E. f_equal. auto.
Qed.

Lemma readDigits_app s : forall acc t,
  readDigits acc (s ++ t) = readDigits (readDigits acc s) t.
Proof.
  induction s as [|c s IH]; intros acc t; [reflexivity|].
  rewrite append_String. simpl. apply IH.
Qed.

Lemma readDigits_utoa n : 0 <= n -> readDigits 0 (utoa n) = n.
Proof.
  intros H0. generalize H0. pattern n.
  apply Z_lt_induction; [clear n H0 | exact H0].
  intros n IH Hn.
  destruct (Z_le_gt_dec n 9) as [Hs|Hl].
  - rewrite utoa_digit by lia. simpl. rewrite digitVal_digitChar by lia. lia.
  - rewrite utoa_step by lia. rewrite readDigits_app.
    assert (Hq : 0 <= n / 10 < n).
    { split; [apply Z.div_pos; lia | apply Z.div_lt_upper_bound; lia]. }
    rewrite IH by lia.
    simpl. rewrite digitVal_digitChar by apply mod10_range.
    pose proof (Z.div_mod n 10 ltac:(lia)). lia.
Qed.

Lemma utoa_head_digit n :
  0 <= n -> exists c r, utoa n = String c r /\ isDigit c = true.
Proof.
  intros H.
  destruct (Z_le_gt_dec n 9); [|destruct (Z_le_gt_dec n 99)].
  - rewrite utoa_digit by lia. eexists _, _. split; [reflexivity|].
    apply digitChar_isDigit. lia.
  - rewrite utoa_two by lia. eexists _, _. split; [reflexivity|].
    apply digitChar_isDigit.
    split; [apply Z.div_pos; lia|].
    apply Z.lt_succ_r. apply Z.div_lt_upper_bound; lia.
  - destruct (utoa_long3 n ltac:(lia)) as (c1 & c2 & c3 & r & E & D & _).
    rewrite E. eauto.
Qed.

Lemma itoa_inj n1 n2 : itoa n1 = itoa n2 -> n1 = n2.
Proof.
  intros E.
  destruct (Z_lt_ge_dec n1 0) as [H1|H1]; destruct (Z_lt_ge_dec n2 0) as [H2|H2].
  - rewrite !itoa_neg_sign in E by lia. injection E as E.
    apply (f_equal (readDigits 0)) in E.
    rewrite !readDigits_utoa in E by lia. lia.
  - rewrite itoa_neg_sign in E by lia. rewrite itoa_nonneg in E by lia.
    destruct (utoa_head_digit n2 ltac:(lia)) as (c & r & Eu & D).
    rewrite Eu in E. injection E as <- _. discriminate.
  - rewrite (itoa_neg_sign n2) in E by lia. rewrite itoa_nonneg in E by lia.
    destruct (utoa_head_digit n1 ltac:(lia)) as (c & r & Eu & D).
    rewrite Eu in E. injection E as -> _. discriminate.
  - rewrite !itoa_nonneg in E by lia.
    apply (f_equal (readDigits 0)) in E.
    rewrite !readDigits_utoa in E by lia. exact E.
Qed.

Lemma Ext_suffix p : exists stem, p = (stem ++ Ext p)%string.
Proof.
  induction p as [|c p (stem & IH)].
  - exists "". reflexivity.
  - simpl. destruct (Ext p) as [|e es] eqn:E.
    + destruct (existsb _ _).
      * exists (String c p). now rewrite append_empty_r.
      * destruct (Ascii.eqb c ".").
        -- exists "". reflexivity.
        -- exists (String c p). now rewrite append_empty_r.
    + exists (String c stem). rewrite append_String. now rewrite <- IH.
Qed.

Lemma substring_app_prefix (stem ext : string) :
  String.substring 0 (String.length stem) (stem ++ ext) = stem.
Proof.
  induction stem as [|a stem IH].
  - simpl. destruct ext; reflexivity.
  - rewrite append_String. simpl. now rewrite IH.
Qed.

Lemma backupStem_Ext reminderData :
  (backupStem reminderData ++ Ext (DataFile reminderData))%string
  = DataFile reminderData.
Proof.
  unfold backupStem.
  destruct (Ext_suffix (DataFile reminderData)) as (stem & E).
  set (ext := Ext (DataFile reminderData)) in *.
  rewrite E at 1 2 3.
  rewrite length_append.
  replace (String.length stem + String.length ext - String.length ext)%nat
    with (String.length stem) by lia.
  rewrite substring_app_prefix. now rewrite <- E.
Qed.

(** X17: the backup of time [now] is the data file's name with
    "_backup_<now>" put before its extension, and the alias of the latest
    backup the same with "_backup_latest": the part before the extension and
    the extension make up the path of the data file again. The two names
    differ from each other and from the data file, and backups made at
    different clock readings have different names, so a backup overwrites
    neither the data file, nor the alias, nor an earlier backup. *)
Theorem backup_names now reminderData :
  (backupStem reminderData ++ Ext (DataFile reminderData))%string
  = DataFile reminderData
  /\ backupFile now reminderData
     = (backupStem reminderData ++ "_backup_" ++ itoa now
        ++ Ext (DataFile reminderData))%string
  /\ backupFile now reminderData <> DataFile reminderData
  /\ latestFile reminderData <> DataFile reminderData
  /\ backupFile now reminderData <> latestFile reminderData
  /\ (forall now2,
        backupFile now reminderData = backupFile now2 reminderData ->
        now = now2).
Proof.
  split; [apply backupStem_Ext|]. split; [reflexivity|].
  split; [apply backupFile_not_DataFile|].
  split; [apply latestFile_not_DataFile|].
  split; [apply backupFile_not_latestFile|].
  intros now2 E. unfold backupFile in E.
  apply append_inj_l in E. apply append_inj_l in E.
  apply append_inj_r in E. apply itoa_inj. exact E.
Qed.

Lemma backup_names_witness :
  backupFile 1700000000 (Sample.data []) <> backupFile 1700003600 (Sample.data []).
Proof.
  intros E.
  destruct (backup_names 1700000000 (Sample.data [])) as (_ & _ & _ & _ & _ & H).
  specialize (H 1700003600 E). discriminate H.
Defined.

Example backup_names_sample :
  backupFile 1700000000 (Sample.data [])
  = "/home/asha/reminder/data_backup_1700000000.json"
  /\ latestFile (Sample.data []) = "/home/asha/reminder/data_backup_latest.json".
Proof. split; reflexivity. Qed.

(** X18: [CreateBackup] writes at most two paths, the backup of time [now]
    and the alias of the latest backup: every other path, the data file
    among them, is as before, and so is what may be written. If the data
    file cannot be read, the error of the read is returned and nothing is
    written. If no error is returned, the backup holds the bytes the data
    file had and the alias points to the backup; if an error is returned the
    alias is as before. *)
Theorem CreateBackup_frame now reminderData w :
  let result := CreateBackup now reminderData w in
  fst (fst result) = backupFile now reminderData
  /\ denied (snd result) = denied w
  /\ (forall path,
        path <> backupFile now reminderData ->
        path <> latestFile reminderData ->
        files (snd result) !! path = files w !! path)
  /\ files (snd result) !! DataFile reminderData
     = files w !! DataFile reminderData
  /\ (forall e, ReadFile w (DataFile reminderData) = inr e ->
                snd (fst result) = Some e /\ snd result = w)
  /\ (snd (fst result) = None ->
      exists bytes,
        ReadFile w (DataFile reminderData) = inl bytes
        /\ files (snd result) !! backupFile now reminderData = Some (File bytes)
        /\ files (snd result) !! latestFile reminderData
           = Some (Symlink (backupFile now reminderData)))
  /\ (snd (fst result) <> None ->
      files (snd result) !! latestFile reminderData
      = files w !! latestFile reminderData).
Proof.
  pose proof (backupFile_not_DataFile now reminderData) as N1.
  pose proof (latestFile_not_DataFile reminderData) as N2.
  pose proof (backupFile_not_latestFile now reminderData) as N3.
  unfold CreateBackup. cbv zeta.
  fold (backupFile now reminderData). fold (latestFile reminderData).
  destruct (ReadFile w (DataFile reminderData)) as [bytes|e0]; simpl.
  2:{ repeat split; auto; try congruence. }
  unfold WriteFile.
  destruct (bool_decide (backupFile now reminderData ∈ denied w)); simpl.
  { repeat split; auto; try congruence; discriminate. }
  unfold SymlinkForce. cbn [denied files].
  destruct (bool_decide (latestFile reminderData ∈ denied w)); simpl.
  - split; [reflexivity|]. split; [reflexivity|]. split.
    { intros path P1 P2. apply lookup_insert_ne. congruence. }
    split; [apply lookup_insert_ne; congruence|].
    split; [discriminate|]. split; [discriminate|].
    intros _. apply lookup_insert_ne. congruence.
  - split; [reflexivity|]. split; [reflexivity|]. split.
    { intros path P1 P2. rewrite !lookup_insert_ne by congruence. reflexivity. }
    split; [rewrite !lookup_insert_ne by congruence; reflexivity|].
    split; [discriminate|]. split; [|congruence].
    intros _. exists bytes. split; [reflexivity|]. split.
    + rewrite lookup_insert_ne by congruence. apply lookup_insert_eq.
    + apply lookup_insert_eq.
Qed.

Lemma CreateBackup_frame_witness :
  snd (fst (CreateBackup 1700000000 (Sample.data [])
              {| files := ∅; denied := ∅ |}))
  = Some "no such file or directory"
  /\ snd (CreateBackup 1700000000 (Sample.data []) {| files := ∅; denied := ∅ |})
     = {| files := ∅; denied := ∅ |}.
Proof.
  destruct (CreateBackup_frame 1700000000 (Sample.data [])
              {| files := ∅; denied := ∅ |}) as (_ & _ & _ & _ & H & _).
  apply H. reflexivity.
Defined.

Section Throttle.

Variable MarshalIndent : ReminderData -> string + error.

Lemma AutoBackup_records now reminderData gapSecs w :
  gapSecs <= Int64.sub now (LastBackupAt reminderData) ->
  LastBackupAt (snd (fst (AutoBackup MarshalIndent now reminderData gapSecs w)))
  = now.
Proof.
  intros H. unfold AutoBackup.
  destruct (Z.ltb_spec (Int64.sub now (LastBackupAt reminderData)) gapSecs);
    [lia|].
  destruct (CreateBackup now reminderData w) as [[d e] w1].
  match goal with
  | |- context [UpdateDataFile _ _ ?r _ _] =>
      destruct (UpdateDataFile_cases MarshalIndent now r "" w1)
        as (w2 & e2 & E2 & _); rewrite E2
  end.
  reflexivity.
Qed.

(** X19: once [AutoBackup] has run at [now] and not skipped, a call at a
    later time less than [gapSecs] seconds after [now] is skipped: it
    returns no name and no error and changes neither the aggregate nor the
    file system. This holds whatever became of the first backup: also when
    it failed, the next one waits for the gap to pass. *)
Theorem AutoBackup_throttles now now2 reminderData gapSecs w :
  gapSecs <= Int64.sub now (LastBackupAt reminderData) ->
  now <= now2 -> now2 - now < gapSecs -> now2 - now <= Int64.max_int ->
  let first := AutoBackup MarshalIndent now reminderData gapSecs w in
  AutoBackup MarshalIndent now2 (snd (fst first)) gapSecs (snd first)
  = ("", None, snd (fst first), snd first).
Proof.
  intros Hdue Hle Hgap Hmax first.
  pose proof (AutoBackup_records now reminderData gapSecs w Hdue) as Hl.
  fold first in Hl. unfold AutoBackup at 1. rewrite Hl.
  unfold Int64.sub. rewrite wrap_id.
  - destruct (Z.ltb_spec (now2 - now) gapSecs); [reflexivity | lia].
  - unfold Int64.in_range, Int64.min_int. unfold Int64.max_int in *. lia.
Qed.

End Throttle.

Lemma AutoBackup_throttles_witness :
  let first := AutoBackup Sample.marshal 1700000000 (Sample.data []) 3600
                 Sample.worldNoBackup in
  AutoBackup Sample.marshal 1700003599 (snd (fst first)) 3600 (snd first)
  = ("", None, snd (fst first), snd first).
Proof.
  apply (AutoBackup_throttles Sample.marshal 1700000000 1700003599
           (Sample.data []) 3600 Sample.worldNoBackup).
  - vm_compute. discriminate.
  - lia.
  - lia.
  - vm_compute. discriminate.
Defined.

(* ================================================================= *)
(** ** New notes *)

Lemma NewNote_prompted now (prompt : Prompt) tagIDs :
  let result := NewNote now prompt tagIDs "" in
  TagIds (fst result) = tagIDs /\ Status (fst result) = "pending"
  /\ CompleteBy (fst result) = 0 /\ Comments (fst result) = []
  /\ CreatedAt (fst result) = now /\ UpdatedAt (fst result) = now
  /\ (snd result = None ->
      Text (fst result) = GoStrings.TrimSpace (fst (prompt "note_text" ""))
      /\ Text (fst result) <> "").
Proof.
  unfold NewNote. cbn [String.eqb].
  destruct (prompt "note_text" "") as [text [e|]]; cbn [fst snd].
  { repeat split; discriminate. }
  cbn [Text Comments Status TagIds CompleteBy CreatedAt UpdatedAt orb].
  destruct (Contains (GoStrings.TrimSpace text) "^C") eqn:C.
  - cbn [fst snd Text Comments Status TagIds CompleteBy CreatedAt UpdatedAt].
    repeat split. intros E. rewrite E in C. discriminate.
  - destruct (strlen _ =? 0) eqn:L;
      cbn [fst snd Text Comments Status TagIds CompleteBy CreatedAt UpdatedAt];
      repeat split; try discriminate.
    intros E. rewrite E in L. discriminate.
Qed.

Section NewNotes.

Variable MarshalIndent : ReminderData -> string + error.

(** X20: [NewNoteRegistration] asks for the text of the note. If that fails
    (the prompt fails, or the trimmed answer is empty), the error is
    returned and neither the aggregate nor the file system changes.
    Otherwise the note is put at the end of the notes, also when writing
    the data file fails afterwards: it is pending, has the given tag ids, no
    comment, no due date, the trimmed answer as its text, which is not
    empty, and the clock reading as its time of creation; the tags and the
    path of the data file are as before. Having no due date, the new note is
    not among the notes approaching their due date, at any time. If no
    error is returned, the data file holds the encoding of the new
    aggregate. *)
Theorem NewNoteRegistration_spec now (prompt : Prompt) reminderData tagIDs w :
  let result :=
    NewNoteRegistration MarshalIndent now prompt reminderData tagIDs w in
  let note := fst (fst (fst result)) in
  let err := snd (fst (fst result)) in
  let reminderData' := snd (fst result) in
  let w' := snd result in
  note = fst (NewNote now prompt tagIDs "")
  /\ Tags reminderData' = Tags reminderData
  /\ DataFile reminderData' = DataFile reminderData
  /\ (snd (NewNote now prompt tagIDs "") <> None ->
      err = snd (NewNote now prompt tagIDs "")
      /\ reminderData' = reminderData /\ w' = w)
  /\ (snd (NewNote now prompt tagIDs "") = None ->
      Notes reminderData' = (Notes reminderData ++ [note])%list
      /\ Status note = "pending" /\ TagIds note = tagIDs
      /\ Comments note = [] /\ CompleteBy note = 0 /\ CreatedAt note = now
      /\ Text note = GoStrings.TrimSpace (fst (prompt "note_text" ""))
      /\ Text note <> ""
      /\ (forall t, ~ In note (NotesApprachingDueDate t reminderData'))
      /\ (err = None ->
          exists json,
            MarshalIndent reminderData' = inl json
            /\ files w' !! DataFile reminderData = Some (File json))).
Proof.
  pose proof (NewNote_prompted now prompt tagIDs) as P. cbv zeta in P.
  unfold NewNoteRegistration.
  destruct (NewNote now prompt tagIDs "") as [note [e|]]; cbn [fst snd] in *.
  { repeat split; auto; try congruence. }
  destruct P as (Pt & Ps & Pc & Pm & Pa & Pu & Px).
  destruct (Px eq_refl) as (Px1 & Px2).
  unfold newNoteAppend.
  match goal with
  | |- context [UpdateDataFile _ _ ?r _ _] =>
      destruct (UpdateDataFile_cases MarshalIndent now r "" w)
        as (w2 & e2 & E2 & Hcases); rewrite E2
  end.
  assert (Hnever : forall t rd, ~ In note (NotesApprachingDueDate t rd)).
  { intros t rd H. apply NotesApprachingDueDate_In in H.
    destruct H as (_ & _ & H). unfold selectsNote in H. rewrite Pc in H.
    discriminate. }
  destruct Hcases as [(-> & json & Hm & Hd & ->)|(Hne & -> & _)].
  - cbn [fst snd touched Tags DataFile Notes].
    split; [reflexivity|]. split; [reflexivity|]. split; [reflexivity|].
    split; [congruence|]. intros _.
    repeat split; auto.
    intros _. exists json. split; [exact Hm|]. apply lookup_insert_eq.
  - destruct e2 as [e2|]; [|congruence].
    cbn [fst snd touched Tags DataFile Notes].
    split; [reflexivity|]. split; [reflexivity|]. split; [reflexivity|].
    split; [congruence|]. intros _.
    repeat split; auto. discriminate.
Qed.

End NewNotes.

Lemma NewNoteRegistration_spec_witness :
  Notes (snd (fst (NewNoteRegistration Sample.marshal 1700000000
                     (Sample.answers "" "  buy milk ") (Sample.data []) [0]
                     Sample.world)))
  = [ {| Text := "buy milk"; Comments := []; Status := "pending";
         TagIds := [0]; CompleteBy := 0;
         CreatedAt := 1700000000; UpdatedAt := 1700000000 |} ].
Proof.
  destruct (NewNoteRegistration_spec Sample.marshal 1700000000
              (Sample.answers "" "  buy milk ") (Sample.data []) [0]
              Sample.world) as (Hn & _ & _ & _ & H).
  destruct (H eq_refl) as (H1 & _). cbv zeta in H1. rewrite H1.
  reflexivity.
Defined.

(* ================================================================= *)
(** ** Due dates that cannot be read *)

(** X21: [UpdateCompleteBy] does not report a text that is not a date. A
    text that is not blank, is not "nil" and does not parse as a date is
    accepted without error, and the due date of the note becomes the zero
    time (1 January of year 1). From then on the note, if it is pending and
    carries no tag of the repeat group, is among the notes approaching their
    due date at every clock reading from seven days before the zero time
    on, so at every time since 1970; and its due date is displayed as
    "nil", as for a note without due date. *)
Theorem unreadable_due_date_is_always_due
  (Format : Time -> string -> string) now note text :
  TrimString text <> "" -> text <> "nil" -> Parse layoutDMY text = None ->
  let note' := fst (UpdateCompleteBy now note text) in
  snd (UpdateCompleteBy now note text) = None
  /\ CompleteBy note' = zeroTime
  /\ CompleteBy note' <> 0
  /\ UnixTimestampToShortTimeStr Format (CompleteBy note') = "nil"
  /\ (forall reminderData now2,
        In note' (Notes reminderData) -> Status note = "pending" ->
        hasRepeatTag reminderData note = false ->
        zeroTime - 7 * 24 * 60 * 60 <= now2 ->
        In note' (NotesApprachingDueDate now2 reminderData)).
Proof.
  intros Hb Hn Hp. unfold UpdateCompleteBy.
  destruct (strlen (TrimString text) =? 0) eqn:E0.
  { apply strlen_zero in E0. contradiction. }
  destruct (String.eqb_spec text "nil") as [E1|E1]; [contradiction|].
  unfold ParseOrZero. rewrite Hp. cbn [fst snd CompleteBy].
  split; [reflexivity|]. split; [reflexivity|].
  split; [vm_compute; discriminate|]. split; [reflexivity|].
  intros reminderData now2 Hin Hs Hr Hnow.
  apply NotesApprachingDueDate_In. split; [exact Hin|]. split; [exact Hs|].
  unfold selectsNote.
  replace (hasRepeatTag reminderData _) with (hasRepeatTag reminderData note)
    by reflexivity.
  rewrite Hr. cbn [CompleteBy].
  change (zeroTime =? 0) with false. cbn [negb andb].
  change (Int64.sub zeroTime (7 * 24 * 60 * 60)) with (-62136201600).
  change (zeroTime - 7 * 24 * 60 * 60) with (-62136201600) in Hnow.
  apply Z.leb_le. exact Hnow.
Qed.

Lemma unreadable_due_date_is_always_due_witness :
  let note' := fst (UpdateCompleteBy 1700000000 (Sample.note [0] 0) "31-02-2024") in
  snd (UpdateCompleteBy 1700000000 (Sample.note [0] 0) "31-02-2024") = None
  /\ In note' (NotesApprachingDueDate 1700000000 (Sample.data [note'])).
Proof.
  destruct (unreadable_due_date_is_always_due (fun _ _ => "")
              1700000000 (Sample.note [0] 0) "31-02-2024")
    as (H1 & _ & _ & _ & H2).
  - vm_compute. discriminate.
  - discriminate.
  - vm_compute. reflexivity.
  - split; [exact H1|]. apply H2.
    + left. reflexivity.
    + reflexivity.
    + vm_compute. reflexivity.
    + vm_compute. discriminate.
Defined.

(* ================================================================= *)
(** ** The check of the prompts and the checks of the mutators *)

(** X22: [ValidateNonEmptyString], the check of the prompts for the text of
    a note and for a comment, accepts exactly the inputs that are not blank,
    and these are exactly the texts [UpdateText], [AddComment] and
    [UpdateCompleteBy] take without error. The mutators check the trimmed
    text but store the text as given: the new text of the note, and the text
    of the comment added last, is the input with its white space. *)
Theorem ValidateNonEmptyString_spec now note input :
  (ValidateNonEmptyString input = None <-> TrimString input <> "")
  /\ (ValidateNonEmptyString input = None
      <-> snd (UpdateText now note input) = None)
  /\ (ValidateNonEmptyString input = None
      <-> snd (AddComment now note input) = None)
  /\ (ValidateNonEmptyString input = None
      <-> snd (UpdateCompleteBy now note input) = None)
  /\ (ValidateNonEmptyString input = None ->
      Text (fst (UpdateText now note input)) = input
      /\ Comments (fst (AddComment now note input))
         = (Comments note
            ++ [{| CommentText := input; CommentCreatedAt := now |}])%list).
Proof.
  unfold ValidateNonEmptyString, UpdateText, AddComment, UpdateCompleteBy.
  rewrite (Z.ltb_antisym (strlen (TrimString input)) 0).
  assert (L : (strlen (TrimString input) <=? 0)
              = (strlen (TrimString input) =? 0)).
  { unfold strlen. destruct (String.length _); reflexivity. }
  rewrite L.
  destruct (strlen (TrimString input) =? 0) eqn:E; cbn [negb fst snd].
  - apply strlen_zero in E.
    repeat split; try discriminate; try (intros; congruence).
  - assert (N : TrimString input <> "").
    { intros C. apply strlen_zero in C. congruence. }
    destruct (String.eqb input "nil"); cbn [fst snd Text Comments];
      repeat split; auto.
Qed.

Lemma ValidateNonEmptyString_spec_witness :
  Text (fst (UpdateText 1700000000 (Sample.note [] 0) " call the bank "))
  = " call the bank ".
Proof.
  destruct (ValidateNonEmptyString_spec 1700000000 (Sample.note [] 0)
              " call the bank ") as (_ & _ & _ & _ & H).
  apply H. reflexivity.
Defined.

(* ================================================================= *)
(** ** The shape of the selection *)

Section SelectionShape.

Variable now : Z.
Variable reminderData : ReminderData.

Lemma dueDateStep_app repeatTagIDs acc note :
  exists picked,
    dueDateStep now reminderData repeatTagIDs acc note = (acc ++ picked)%list
    /\ sublist picked [note; note].
Proof.
  unfold dueDateStep.
  assert (S0 : sublist [] [note; note]) by (apply sublist_nil_l).
  assert (S1 : sublist [note] [note; note])
    by (apply sublist_skip, sublist_cons, sublist_nil_l).
  assert (S2 : sublist [note; note] [note; note]) by reflexivity.
  destruct (len _ =? 0) eqn:E0.
  - assert (E1 : (0 <? len (GetCommonMembersIntSlices (TagIds note) repeatTagIDs))
                 = false) by (rewrite len_pos, E0; reflexivity).
    rewrite E1. cbn [andb].
    destruct (negb (CompleteBy note =? 0) && _).
    + exists [note]. auto.
    + exists []. rewrite app_nil_r. auto.
  - assert (E1 : (0 <? len (GetCommonMembersIntSlices (TagIds note) repeatTagIDs))
                 = true) by (rewrite len_pos, E0; reflexivity).
    rewrite E1. cbn [andb].
    destruct (negb (CompleteBy note =? 0)).
    2:{ exists []. rewrite app_nil_r. auto. }
    destruct (TagFromSlug reminderData "repeat-annually") as [ta|];
      destruct (TagFromSlug reminderData "repeat-monthly") as [tm|];
      repeat match goal with
        | |- context [if ?b then _ else _] => destruct b
        end;
      rewrite <- ?app_assoc;
      first [ exists [note; note]; split; [reflexivity | exact S2]
            | exists [note]; split; [reflexivity | exact S1]
            | exists []; split; [now rewrite app_nil_r | exact S0] ].
Qed.

Lemma dueDateLoop_app repeatTagIDs notes : forall acc,
  exists picked,
    fold_left (dueDateStep now reminderData repeatTagIDs) notes acc
    = (acc ++ picked)%list
    /\ sublist picked (flat_map (fun note => [note; note]) notes).
Proof.
  induction notes as [|note notes IH]; intros acc; simpl.
  - exists []. rewrite app_nil_r. split; [reflexivity | constructor].
  - destruct (dueDateStep_app repeatTagIDs acc note) as (p1 & E1 & S1).
    rewrite E1. destruct (IH (acc ++ p1)%list) as (p2 & E2 & S2).
    rewrite E2. exists (p1 ++ p2)%list. rewrite app_assoc.
    split; [reflexivity|].
    change (note :: note :: flat_map (fun n => [n; n]) notes)
      with ([note; note] ++ flat_map (fun n => [n; n]) notes)%list.
    apply sublist_app; assumption.
Qed.

(** X23: the notes approaching their due date are pending notes of the
    store, in the order of the store, each at most twice: the result is a
    subsequence of the list that repeats every pending note once. So a store
    without pending note gives the empty list, and the result is at most
    twice as long as the list of the pending notes. *)
Theorem NotesApprachingDueDate_shape :
  sublist (NotesApprachingDueDate now reminderData)
    (flat_map (fun note => [note; note])
       (WithStatus "pending" (Notes reminderData)))
  /\ (forall note, In note (NotesApprachingDueDate now reminderData) ->
        In note (Notes reminderData) /\ Status note = "pending")
  /\ (List.length (NotesApprachingDueDate now reminderData)
      <= 2 * List.length (WithStatus "pending" (Notes reminderData)))%nat
  /\ (WithStatus "pending" (Notes reminderData) = [] ->
      NotesApprachingDueDate now reminderData = []).
Proof.
  assert (S : sublist (NotesApprachingDueDate now reminderData)
                (flat_map (fun note => [note; note])
                   (WithStatus "pending" (Notes reminderData)))).
  { unfold NotesApprachingDueDate. cbv zeta.
    destruct (dueDateLoop_app (TagIdsForGroup reminderData "repeat")
                (WithStatus "pending" (Notes reminderData)) [])
      as (p & E & Sp).
    rewrite E. exact Sp. }
  split; [exact S|]. split; [|split].
  - intros note H. apply NotesApprachingDueDate_In in H. tauto.
  - apply sublist_length in S. etransitivity; [exact S|].
    clear S. induction (WithStatus "pending" (Notes reminderData)); simpl;
      [lia|]. simpl in IHl. lia.
  - intros E. rewrite E in S. simpl in S. apply sublist_nil_r in S. exact S.
Qed.

End SelectionShape.

(* ================================================================= *)
(** ** The pattern of dates *)

Section Patterns.

Import GoRegexp.

Lemma append_nil_inv (s1 s2 : string) :
  (s1 ++ s2)%string = "" -> s1 = "" /\ s2 = "".
Proof. destruct s1; [simpl; auto | discriminate]. Qed.

Lemma nullable_Matches re : nullable re = true <-> Matches re "".
Proof.
  split.
  - induction re; simpl; intros H; try discriminate.
    + constructor.
    + apply andb_true_iff in H. destruct H.
      change "" with ("" ++ "")%string. constructor; auto.
    + apply orb_true_iff in H. destruct H; [apply M_Left | apply M_Right]; auto.
    + constructor.
  - intros H. remember "" as s eqn:E.
    induction H; simpl; try discriminate; auto.
    + apply append_nil_inv in E. destruct E.
      rewrite IHMatches1, IHMatches2; auto.
    + rewrite IHMatches; auto.
    + rewrite IHMatches; auto. apply orb_true_r.
Qed.

Lemma derive_sound re : forall c s,
  Matches (derive c re) s -> Matches re (String c s).
Proof.
  induction re; intros a s H; simpl in H.
  - inversion H.
  - inversion H.
  - destruct (Ascii.eqb_spec a c); inversion H; subst. constructor.
  - destruct (inClass lo hi a) eqn:E; inversion H; subst. constructor; auto.
  - assert (G : forall s, Matches (Concat (derive a re1) re2) s ->
                          Matches (Concat re1 re2) (String a s)).
    { intros t Ht. inversion Ht; subst.
      change (String a (s1 ++ s2)) with (String a s1 ++ s2)%string.
      constructor; auto. }
    destruct (nullable re1) eqn:N; [|auto].
    inversion H; subst; [auto|].
    change (String a s) with ("" ++ String a s)%string.
    constructor; [apply nullable_Matches; auto | auto].
  - inversion H; subst; [apply M_Left | apply M_Right]; auto.
  - apply M_Some; auto.
Qed.

Lemma derive_complete re t :
  Matches re t -> forall c s, t = String c s -> Matches (derive c re) s.
Proof.
  induction 1; intros a t E; simpl.
  - discriminate.
  - injection E as <- <-. rewrite Ascii.eqb_refl. constructor.
  - injection E as <- <-. rewrite H. constructor.
  - destruct s1 as [|b s1].
    + change ("" ++ s2)%string with s2 in E. subst s2.
      assert (N : nullable r1 = true) by (apply nullable_Matches; auto).
      rewrite N. apply M_Right. auto.
    + rewrite append_String in E. injection E as <- <-.
      assert (G : Matches (Concat (derive b r1) r2) (s1 ++ s2))
        by (constructor; auto).
      destruct (nullable r1); [apply M_Left|]; exact G.
  - apply M_Left; auto.
  - apply M_Right; auto.
  - discriminate.
  - auto.
Qed.

(** The matcher decides the texts of the pattern. *)
Lemma MatchString_Matches s : forall re,
  MatchString re s = true <-> Matches re s.
Proof.
  induction s as [|c s IH]; intros re; simpl.
  - apply nullable_Matches.
  - rewrite IH. split.
    + apply derive_sound.
    + intros H. eapply derive_complete; eauto.
Qed.

Lemma digitChar_digitVal c : isDigit c = true -> digitChar (digitVal c) = c.
Proof.
  intros H. unfold digitChar, digitVal.
  replace (48 + (Z.of_N (N_of_ascii c) - 48)) with (Z.of_N (N_of_ascii c)) by lia.
  rewrite N2Z.id. apply ascii_N_embedding.
Qed.

Lemma inClass_digit lo hi c :
  isDigit lo = true -> isDigit hi = true -> inClass lo hi c = true ->
  isDigit c = true /\ digitVal lo <= digitVal c <= digitVal hi.
Proof.
  unfold isDigit, inClass, digitVal. cbv zeta.
  rewrite !andb_true_iff, !Z.leb_le, !N.leb_le. lia.
Qed.

Lemma itoa_digitVal c : isDigit c = true -> itoa (digitVal c) = String c "".
Proof.
  intros H. pose proof (digitVal_range c H).
  rewrite itoa_nonneg by lia. rewrite utoa_digit by lia.
  now rewrite digitChar_digitVal.
Qed.

Lemma itoa_two_digits c1 c2 :
  isDigit c1 = true -> isDigit c2 = true -> 1 <= digitVal c1 ->
  itoa (digitVal c1 * 10 + digitVal c2) = String c1 (String c2 "").
Proof.
  intros H1 H2 P. pose proof (digitVal_range c1 H1). pose proof (digitVal_range c2 H2).
  rewrite itoa_nonneg by lia. rewrite utoa_two by lia.
  replace ((digitVal c1 * 10 + digitVal c2) / 10) with (digitVal c1)
    by (apply Z.div_unique with (r := digitVal c2); lia).
  replace ((digitVal c1 * 10 + digitVal c2) mod 10) with (digitVal c2)
    by (apply Z.mod_unique with (q := digitVal c1); lia).
  now rewrite !digitChar_digitVal.
Qed.

Lemma itoa_four_digits c1 c2 c3 c4 :
  isDigit c1 = true -> isDigit c2 = true -> isDigit c3 = true ->
  isDigit c4 = true -> 1 <= digitVal c1 ->
  itoa (((digitVal c1 * 10 + digitVal c2) * 10 + digitVal c3) * 10 + digitVal c4)
  = String c1 (String c2 (String c3 (String c4 ""))).
Proof.
  intros H1 H2 H3 H4 P.
  pose proof (digitVal_range c1 H1). pose proof (digitVal_range c2 H2).
  pose proof (digitVal_range c3 H3). pose proof (digitVal_range c4 H4).
  set (d1 := digitVal c1) in *. set (d2 := digitVal c2) in *.
  set (d3 := digitVal c3) in *. set (d4 := digitVal c4) in *.
  rewrite itoa_nonneg by lia. rewrite utoa_four by lia.
  set (n := ((d1 * 10 + d2) * 10 + d3) * 10 + d4).
  assert (E4 : n mod 10 = d4)
    by (symmetry; apply Z.mod_unique with (q := (d1 * 10 + d2) * 10 + d3);
        unfold n; lia).
  assert (Q1 : n / 10 = (d1 * 10 + d2) * 10 + d3)
    by (symmetry; apply Z.div_unique with (r := d4); unfold n; lia).
  assert (Q2 : n / 100 = d1 * 10 + d2)
    by (symmetry; apply Z.div_unique with (r := d3 * 10 + d4); unfold n; lia).
  assert (Q3 : n / 1000 = d1)
    by (symmetry; apply Z.div_unique with (r := (d2 * 10 + d3) * 10 + d4);
        unfold n; lia).
  assert (E3 : n / 10 mod 10 = d3)
    by (rewrite Q1; symmetry; apply Z.mod_unique with (q := d1 * 10 + d2); lia).
  assert (E2 : n / 100 mod 10 = d2)
    by (rewrite Q2; symmetry; apply Z.mod_unique with (q := d1); lia).
  rewrite E4, E3, E2, Q3. unfold d1, d2, d3, d4.
  now rewrite !digitChar_digitVal.
Qed.

Lemma readsNum_one c :
  isDigit c = true -> readsNum (String c "") (digitVal c).
Proof. intros H rest. simpl. rewrite H. reflexivity. Qed.

Lemma readsNum_two c1 c2 :
  isDigit c1 = true -> isDigit c2 = true ->
  readsNum (String c1 (String c2 "")) (digitVal c1 * 10 + digitVal c2).
Proof. intros H1 H2 rest. simpl. rewrite H1, H2. reflexivity. Qed.

Lemma inClass_between lo hi c a b :
  isDigit lo = true -> isDigit hi = true ->
  digitVal lo = a -> digitVal hi = b -> inClass lo hi c = true ->
  isDigit c = true /\ a <= digitVal c <= b.
Proof. intros Hl Hh <- <-. apply inClass_digit; assumption. Qed.

Ltac inv_matches :=
  repeat match goal with
    | H : Matches (Concat _ _) _ |- _ => inversion H; subst; clear H
    | H : Matches (Alternate _ _) _ |- _ => inversion H; subst; clear H
    | H : Matches (Quest _) _ |- _ => inversion H; subst; clear H
    | H : Matches (Literal _) _ |- _ => inversion H; subst; clear H
    | H : Matches (CharClass _ _) _ |- _ => inversion H; subst; clear H
    | H : Matches EmptyMatch _ |- _ => inversion H; subst; clear H
    end.

Ltac class_facts :=
  repeat match goal with
    | H : inClass ?lo ?hi ?c = true |- _ =>
        let a := eval vm_compute in (digitVal lo) in
        let b := eval vm_compute in (digitVal hi) in
        let D := fresh "D" in
        let B := fresh "B" in
        destruct (inClass_between lo hi c a b eq_refl eq_refl eq_refl eq_refl H)
          as (D & B); clear H
    end.

Ltac norm_append :=
  repeat first [rewrite append_String | rewrite append_empty].


Lemma numTexts_one c :
  isDigit c = true -> In (String c "") (numTexts (digitVal c)).
Proof.
  intros H. pose proof (digitVal_range c H). unfold numTexts.
  destruct (Z.ltb_spec (digitVal c) 10); [|lia].
  rewrite itoa_digitVal by assumption. left. reflexivity.
Qed.

Lemma numTexts_zero c :
  isDigit c = true -> In (String "0" (String c "")) (numTexts (digitVal c)).
Proof.
  intros H. pose proof (digitVal_range c H). unfold numTexts.
  destruct (Z.ltb_spec (digitVal c) 10); [|lia].
  rewrite itoa_digitVal by assumption. right. left. reflexivity.
Qed.

Lemma numTexts_two c1 c2 :
  isDigit c1 = true -> isDigit c2 = true -> 1 <= digitVal c1 ->
  In (String c1 (String c2 "")) (numTexts (digitVal c1 * 10 + digitVal c2)).
Proof.
  intros H1 H2 P.
  pose proof (digitVal_range c1 H1). pose proof (digitVal_range c2 H2).
  unfold numTexts.
  destruct (Z.ltb_spec (digitVal c1 * 10 + digitVal c2) 10); [lia|].
  rewrite itoa_two_digits by assumption. left. reflexivity.
Qed.

Ltac digit_value a :=
  tryif is_var a then idtac
  else (let v := eval vm_compute in (digitVal a) in
        assert (digitVal a = v) by reflexivity).

Ltac read_number :=
  lazymatch goal with
  | |- exists n, _ /\ In (String ?a "") _ /\ _ =>
      exists (digitVal a); split; [lia|];
      split; [apply numTexts_one | apply readsNum_one]; assumption
  | |- exists n, _ /\ In (String "0" (String ?b "")) _ /\ _ =>
      exists (digitVal b); split; [lia|];
      split; [apply numTexts_zero; assumption|];
      change (digitVal b) with (digitVal "0" * 10 + digitVal b);
      apply readsNum_two; [reflexivity | assumption]
  | |- exists n, _ /\ In (String ?a (String ?b "")) _ /\ _ =>
      digit_value a; exists (digitVal a * 10 + digitVal b); split; [lia|];
      split; [apply numTexts_two | apply readsNum_two];
      first [assumption | reflexivity | lia]
  end.

Lemma dayPattern_sound ds :
  Matches dayPattern ds ->
  exists day, 1 <= day <= 31 /\ In ds (numTexts day) /\ readsNum ds day.
Proof.
  unfold dayPattern. intros H.
  inv_matches; norm_append; class_facts; read_number.
Qed.

Lemma monthPattern_sound ms :
  Matches monthPattern ms ->
  exists month, 1 <= month <= 12 /\ In ms (numTexts month) /\ readsNum ms month.
Proof.
  unfold monthPattern. intros H.
  inv_matches; norm_append; class_facts; read_number.
Qed.

Lemma yearPattern_sound ys :
  Matches yearPattern ys ->
  exists year,
    1900 <= year <= 2099 /\ ys = itoa year /\ getyear ys = Some (year, "").
Proof.
  unfold yearPattern. cbn [literal]. intros H.
  inv_matches; norm_append; class_facts;
    lazymatch goal with
    | |- exists year,
           _ /\ String ?a (String ?b (String ?c (String ?d ""))) = _ /\ _ =>
        digit_value a; digit_value b;
        exists (((digitVal a * 10 + digitVal b) * 10 + digitVal c) * 10
                + digitVal d);
        split; [lia|]; split;
        [ symmetry; apply itoa_four_digits;
          first [assumption | reflexivity | lia]
        | unfold getyear;
          repeat match goal with
            | E : isDigit _ = true |- _ => rewrite E; clear E
            end;
          reflexivity ]
    end.
Qed.

(** The parse of a date written with dashes, from what is read of its
    three parts. *)
Lemma Parse_DMY_parts ds ms ys day month year :
  readsNum ds day -> readsNum ms month -> getyear ys = Some (year, "") ->
  1 <= day -> 1 <= month <= 12 ->
  Parse layoutDMY (ds ++ String "-" (ms ++ String "-" ys))
  = if day <=? daysIn month year
    then Some (unixDate year month day) else None.
Proof.
  intros Hd Hm Hy Pd Pm.
  unfold Parse, layoutDMY. cbn [parseChunks skip].
  rewrite Hd. cbn [skip]. rewrite Ascii.eqb_refl.
  specialize (Hm ys). rewrite Hm.
  destruct (Z.leb_spec month 0); [lia|].
  destruct (Z.ltb_spec 12 month); [lia|].
  cbn [orb skip]. rewrite Ascii.eqb_refl. rewrite Hy.
  cbn [f_year f_month f_day].
  destruct (Z.ltb_spec month 0); [lia|].
  destruct (Z.ltb_spec day 0); [lia|].
  destruct (Z.ltb_spec day 1); [lia|]. cbn [orb].
  destruct (Z.ltb_spec (daysIn month year) day);
    destruct (Z.leb_spec day (daysIn month year)); try lia; reflexivity.
Qed.

(** The texts of the pattern: "nil", and the dates. *)
Lemma datePattern_sound s :
  Matches datePattern s ->
  s = "nil"
  \/ exists day month year ds ms,
       1 <= day <= 31 /\ 1 <= month <= 12 /\ 1900 <= year <= 2099
       /\ In ds (numTexts day) /\ In ms (numTexts month)
       /\ s = (ds ++ "-" ++ ms ++ "-" ++ itoa year)%string
       /\ Parse layoutDMY s
          = if day <=? daysIn month year
            then Some (unixDate year month day) else None.
Proof.
  unfold datePattern. cbn [literal]. intros H.
  inversion H as [| | | |r1 r2 s0 Hl|r1 r2 s0 Hr| |]; subst; clear H.
  - right. inv_matches.
    match goal with
    | Hd : Matches dayPattern ?ds, Hm : Matches monthPattern ?ms,
      Hy : Matches yearPattern ?ys |- _ =>
        destruct (dayPattern_sound _ Hd) as (day & Bd & Id & Rd);
        destruct (monthPattern_sound _ Hm) as (month & Bm & Im & Rm);
        destruct (yearPattern_sound _ Hy) as (year & By & Ey & Gy);
        exists day, month, year, ds, ms; subst ys
    end.
    repeat (split; [assumption|]).
    split; [reflexivity|].
    match goal with
    | |- Parse _ (?ds ++ _ ++ ?ms ++ _ ++ _)%string = _ =>
        change (Parse layoutDMY
                  (ds ++ String "-" (ms ++ String "-" (itoa year)))
                = (if day <=? daysIn month year
                   then Some (unixDate year month day) else None))
    end.
    apply Parse_DMY_parts; auto; lia.
  - left. inv_matches. reflexivity.
Qed.

Lemma dayPattern_complete day ds :
  1 <= day <= 31 -> In ds (numTexts day) -> Matches dayPattern ds.
Proof.
  intros B I.
  assert (A : forallb
                (fun k => forallb (MatchString dayPattern) (numTexts (Z.of_nat k)))
                (seq 1 31) = true) by (vm_compute; reflexivity).
  rewrite forallb_forall in A. specialize (A (Z.to_nat day)).
  rewrite Z2Nat.id in A by lia. rewrite forallb_forall in A.
  apply MatchString_Matches. apply A; [|exact I].
  apply in_seq. lia.
Qed.

Lemma monthPattern_complete month ms :
  1 <= month <= 12 -> In ms (numTexts month) -> Matches monthPattern ms.
Proof.
  intros B I.
  assert (A : forallb
                (fun k => forallb (MatchString monthPattern) (numTexts (Z.of_nat k)))
                (seq 1 12) = true) by (vm_compute; reflexivity).
  rewrite forallb_forall in A. specialize (A (Z.to_nat month)).
  rewrite Z2Nat.id in A by lia. rewrite forallb_forall in A.
  apply MatchString_Matches. apply A; [|exact I].
  apply in_seq. lia.
Qed.

Lemma yearPattern_complete year :
  1900 <= year <= 2099 -> Matches yearPattern (itoa year).
Proof.
  intros B.
  assert (A : forallb (fun k => MatchString yearPattern (itoa (Z.of_nat k)))
                (seq 1900 200) = true) by (vm_compute; reflexivity).
  rewrite forallb_forall in A. specialize (A (Z.to_nat year)).
  rewrite Z2Nat.id in A by lia.
  apply MatchString_Matches. apply A. apply in_seq. lia.
Qed.

Lemma datePattern_complete day month year ds ms :
  1 <= day <= 31 -> 1 <= month <= 12 -> 1900 <= year <= 2099 ->
  In ds (numTexts day) -> In ms (numTexts month) ->
  Matches datePattern (ds ++ "-" ++ ms ++ "-" ++ itoa year).
Proof.
  intros Bd Bm By Id Im. unfold datePattern. apply M_Left.
  apply M_Concat; [eapply dayPattern_complete; eauto|].
  apply M_Concat; [constructor|].
  apply M_Concat; [eapply monthPattern_complete; eauto|].
  apply M_Concat; [constructor|].
  apply yearPattern_complete; assumption.
Qed.

(** X24: [ValidateDateString] accepts exactly the inputs that, with the
    white space at their ends removed, are "nil" or a date written as day,
    month and year with dashes between them: the day from 1 to 31 and the
    month from 1 to 12, each in decimal, with or without a zero in front
    when it has one digit, and the year from 1900 to 2099. The day is not
    checked against the length of the month. *)
Theorem ValidateDateString_spec input :
  ValidateDateString input = None
  <-> (TrimString input = "nil"
       \/ exists day month year ds ms,
            1 <= day <= 31 /\ 1 <= month <= 12 /\ 1900 <= year <= 2099
            /\ In ds (numTexts day) /\ In ms (numTexts month)
            /\ TrimString input
               = (ds ++ "-" ++ ms ++ "-" ++ itoa year)%string).
Proof.
  unfold ValidateDateString. cbv zeta.
  destruct (MatchString datePattern (TrimString input)) eqn:E.
  - split; [intros _ | reflexivity].
    apply MatchString_Matches in E. apply datePattern_sound in E.
    destruct E as [E|(day & month & year & ds & ms & E)]; [left; exact E|].
    right. exists day, month, year, ds, ms. tauto.
  - split; [discriminate|]. intros H. exfalso.
    assert (M : Matches datePattern (TrimString input)).
    { destruct H as [->|(day & month & year & ds & ms & Bd & Bm & By & Id & Im & ->)].
      - apply MatchString_Matches. reflexivity.
      - apply (datePattern_complete day month year); assumption. }
    apply MatchString_Matches in M. congruence.
Qed.

(** *** Dates that parse have no white space at their ends *)

Lemma digit_byte c : isDigit c = true -> 48 <= GoStrings.byte c <= 57.
Proof.
  unfold isDigit, GoStrings.byte. cbv zeta.
  rewrite andb_true_iff, !Z.leb_le. tauto.
Qed.

Ltac decide_bytes :=
  repeat match goal with
    | |- context [?x =? ?y] => destruct (Z.eqb_spec x y); [lia|]
    | |- context [?x <=? ?y] => destruct (Z.leb_spec x y); try lia
    end.

Lemma asciiSpace_digit c : isDigit c = true -> GoStrings.asciiSpace c = false.
Proof.
  intros H. apply digit_byte in H. unfold GoStrings.asciiSpace. cbv zeta.
  decide_bytes; try reflexivity.
Qed.

Lemma TrimLeft_digit c r :
  isDigit c = true -> GoStrings.TrimLeft (String c r) = String c r.
Proof.
  intros H. pose proof (digit_byte c H) as B.
  cbn [GoStrings.TrimLeft]. rewrite asciiSpace_digit by assumption.
  destruct r as [|c1 [|c2 r2]]; try reflexivity.
  - destruct (Z.eqb_spec (GoStrings.byte c) 194); [lia | reflexivity].
  - destruct (Z.eqb_spec (GoStrings.byte c) 194); [lia|].
    destruct (Z.eqb_spec (GoStrings.byte c) 225); [lia|].
    destruct (Z.eqb_spec (GoStrings.byte c) 226); [lia|].
    destruct (Z.eqb_spec (GoStrings.byte c) 227); [lia|].
    reflexivity.
Qed.

Lemma TrimLeftRev_digit c r :
  isDigit c = true -> GoStrings.TrimLeftRev (String c r) = String c r.
Proof.
  intros H. pose proof (digit_byte c H) as B.
  cbn [GoStrings.TrimLeftRev]. rewrite asciiSpace_digit by assumption.
  assert (E1 : (GoStrings.byte c =? 133) || (GoStrings.byte c =? 160) = false)
    by (decide_bytes; try reflexivity).
  assert (E2 : (GoStrings.byte c =? 128) = false) by (decide_bytes; try reflexivity).
  assert (E3 : GoStrings.e280Space (GoStrings.byte c) = false).
  { unfold GoStrings.e280Space.
    destruct (Z.leb_spec 128 (GoStrings.byte c)); [lia|].
    decide_bytes; try reflexivity. }
  assert (E4 : (GoStrings.byte c =? 159) = false) by (decide_bytes; try reflexivity).
  destruct r as [|c1 [|c2 r2]]; try reflexivity.
  - rewrite E1, andb_false_r. reflexivity.
  - rewrite E1, E2, E3, E4, !andb_false_r. reflexivity.
Qed.

Lemma list_ascii_of_string_app (s t : string) :
  list_ascii_of_string (s ++ t)
  = (list_ascii_of_string s ++ list_ascii_of_string t)%list.
Proof.
  induction s as [|a s IH]; [reflexivity|].
  rewrite append_String. simpl. now rewrite IH.
Qed.

Lemma reverse_snoc s d :
  GoStrings.reverse (s ++ String d "") = String d (GoStrings.reverse s).
Proof.
  unfold GoStrings.reverse. rewrite list_ascii_of_string_app. simpl.
  rewrite rev_unit. reflexivity.
Qed.

Lemma reverse_involutive s : GoStrings.reverse (GoStrings.reverse s) = s.
Proof.
  unfold GoStrings.reverse.
  rewrite list_ascii_of_string_of_list_ascii, rev_involutive.
  apply string_of_list_ascii_of_string.
Qed.

Lemma TrimSpace_digit_ends c r before d :
  isDigit c = true -> isDigit d = true ->
  String c r = (before ++ String d "")%string ->
  GoStrings.TrimSpace (String c r) = String c r.
Proof.
  intros Hc Hd E. unfold GoStrings.TrimSpace.
  rewrite TrimLeft_digit by assumption.
  unfold GoStrings.TrimRight. rewrite E, reverse_snoc.
  rewrite TrimLeftRev_digit by assumption.
  rewrite <- reverse_snoc. apply reverse_involutive.
Qed.

Lemma append_assoc3 (s t u : string) :
  ((s ++ t) ++ u)%string = (s ++ (t ++ u))%string.
Proof.
  induction s as [|a s IH]; [reflexivity|].
  rewrite !append_String. now rewrite IH.
Qed.

Lemma getnum_inv s n rest :
  getnum s = Some (n, rest) ->
  exists c r read,
    s = String c r /\ isDigit c = true /\ s = (read ++ rest)%string.
Proof.
  unfold getnum. destruct s as [|c0 r0]; [discriminate|].
  destruct (isDigit c0) eqn:D0; [|discriminate].
  destruct r0 as [|c1 r1].
  - intros [= <- <-]. exists c0, "", (String c0 ""). auto.
  - destruct (isDigit c1).
    + intros [= <- <-]. exists c0, (String c1 r1), (String c0 (String c1 "")).
      auto.
    + intros [= <- <-]. exists c0, (String c1 r1), (String c0 ""). auto.
Qed.

Lemma getyear_inv s y rest :
  getyear s = Some (y, rest) ->
  exists read d, s = ((read ++ String d "") ++ rest)%string /\ isDigit d = true.
Proof.
  unfold getyear. destruct s as [|c0 [|c1 [|c2 [|c3 r]]]]; try discriminate.
  destruct (isDigit c0); [|discriminate]. destruct (isDigit c1); [|discriminate].
  destruct (isDigit c2); [|discriminate].
  destruct (isDigit c3) eqn:D3; [|discriminate].
  intros [= <- <-]. exists (String c0 (String c1 (String c2 ""))), c3. auto.
Qed.

(** A text that parses as a date starts and ends with a digit, so that
    trimming it changes nothing. *)
Lemma Parse_DMY_trimmed s t :
  Parse layoutDMY s = Some t -> TrimString s = s.
Proof.
  unfold Parse, layoutDMY. cbn [parseChunks]. cbn [skip]. intros H.
  destruct (getnum s) as [[day v1]|] eqn:G1; cbv beta iota in H;
    [|discriminate H].
  destruct v1 as [|a1 v2]; cbv beta iota in H; [discriminate H|].
  destruct (Ascii.eqb_spec a1 "-") as [->|]; cbv beta iota in H;
    [|discriminate H].
  destruct (getnum v2) as [[month v3]|] eqn:G2; cbv beta iota in H;
    [|discriminate H].
  destruct ((month <=? 0) || (12 <? month)); cbv beta iota in H;
    [discriminate H|].
  destruct v3 as [|a3 v4]; cbv beta iota in H; [discriminate H|].
  destruct (Ascii.eqb_spec a3 "-") as [->|]; cbv beta iota in H;
    [|discriminate H].
  destruct (getyear v4) as [[year v5]|] eqn:G3; cbv beta iota in H;
    [|discriminate H].
  destruct v5; [|discriminate H]. clear H.
  apply getnum_inv in G1. destruct G1 as (c & r & p1 & E1 & D1 & A1).
  apply getnum_inv in G2. destruct G2 as (c' & r' & p2 & _ & _ & A2).
  apply getyear_inv in G3. destruct G3 as (p3 & d & A3 & D3).
  rewrite append_empty_r in A3.
  assert (E : s = ((p1 ++ String "-" (p2 ++ String "-" p3)) ++ String d "")%string).
  { rewrite A1, A2, A3.
    rewrite append_assoc3. f_equal. rewrite append_String. f_equal.
    rewrite append_assoc3. f_equal. }
  unfold TrimString. rewrite E1 in *.
  eapply TrimSpace_digit_ends; eauto.
Qed.

Lemma date_text_not_empty (ds rest : string) day :
  In ds (numTexts day) -> (ds ++ rest)%string <> "".
Proof.
  intros I E. apply append_nil_inv in E. destruct E as [-> _].
  unfold numTexts in I.
  assert (N : itoa day <> "").
  { destruct (itoa_head day) as (c & r & E & _). congruence. }
  destruct (day <? 10); simpl in I; intuition (try discriminate; congruence).
Qed.

(** X25: for an input that [ValidateDateString] accepts,
    [UpdateCompleteBy] returns no error and changes the due date and the
    time of update only. The input "nil" clears the due date. An accepted
    date without white space at its ends sets the due date to the midnight
    (UTC) of that day when the month has the day, and to the zero time
    (1 January of year 1) when it has not, as for 31-02-2024. An accepted
    input with white space at its ends, which [UpdateCompleteBy] reads
    untrimmed, sets the zero time as well. *)
Theorem validated_due_date now note input :
  ValidateDateString input = None ->
  let result := UpdateCompleteBy now note input in
  snd result = None
  /\ fst result = withDueDate note (CompleteBy (fst result)) now
  /\ (input = "nil" -> CompleteBy (fst result) = 0)
  /\ (TrimString input <> input -> CompleteBy (fst result) = zeroTime)
  /\ (TrimString input = input -> input <> "nil" ->
      exists day month year ds ms,
        1 <= day <= 31 /\ 1 <= month <= 12 /\ 1900 <= year <= 2099
        /\ In ds (numTexts day) /\ In ms (numTexts month)
        /\ input = (ds ++ "-" ++ ms ++ "-" ++ itoa year)%string
        /\ CompleteBy (fst result)
           = if day <=? daysIn month year
             then unixDate year month day else zeroTime).
Proof.
  intros V. unfold ValidateDateString in V. cbv zeta in V.
  destruct (MatchString datePattern (TrimString input)) eqn:M; [|discriminate].
  apply MatchString_Matches in M. apply datePattern_sound in M.
  assert (N : TrimString input <> "").
  { destruct M as [M|(day & month & year & ds & ms & _ & _ & _ & Id & _ & E & _)].
    - rewrite M. discriminate.
    - rewrite E. eapply date_text_not_empty; eauto. }
  unfold UpdateCompleteBy.
  destruct (strlen (TrimString input) =? 0) eqn:L.
  { apply strlen_zero in L. contradiction. }
  destruct (String.eqb_spec input "nil") as [Enil|Enil].
  { cbn [fst snd CompleteBy]. subst input.
    repeat split; try reflexivity; contradiction. }
  cbn [fst snd CompleteBy].
  split; [reflexivity|]. split; [reflexivity|]. split; [contradiction|].
  split.
  - intros U. unfold ParseOrZero.
    destruct (Parse layoutDMY input) as [t|] eqn:P; [|reflexivity].
    apply Parse_DMY_trimmed in P. contradiction.
  - intros U _. rewrite U in M.
    destruct M as [M|(day & month & year & ds & ms & Bd & Bm & By & Id & Im & E & P)];
      [contradiction|].
    exists day, month, year, ds, ms.
    repeat (split; [assumption|]).
    unfold ParseOrZero. rewrite P.
    destruct (day <=? daysIn month year); reflexivity.
Qed.

End Patterns.

Example ValidateDateString_samples :
  map ValidateDateString
    ["10-03-2024"; "1-1-1999"; " 07-12-2024 "; "nil"; "31-02-2024";
     "00-01-2024"; "32-01-2024"; "10-13-2024"; "10-03-1899"; "10-03-24";
     "10/03/2024"; ""; "nil 10-03-2024"]
  = [None; None; None; None; None;
     Some "Invalid input"; Some "Invalid input"; Some "Invalid input";
     Some "Invalid input"; Some "Invalid input"; Some "Invalid input";
     Some "Invalid input"; Some "Invalid input"].
Proof. vm_compute. reflexivity. Qed.

Lemma validated_due_date_witness :
  CompleteBy (fst (UpdateCompleteBy 1700000000 (Sample.note [] 0) " 10-03-2024"))
  = zeroTime.
Proof.
  destruct (validated_due_date 1700000000 (Sample.note [] 0) " 10-03-2024")
    as (_ & _ & _ & H & _).
  - vm_compute. reflexivity.
  - apply H. vm_compute. discriminate.
Defined.

Example validated_due_date_samples :
  map (fun text =>
         CompleteBy (fst (UpdateCompleteBy 1700000000 (Sample.note [] 5) text)))
    ["10-03-2024"; "1-1-1970"; "31-02-2024"; "10-03-2024 "; "nil"]
  = [unixDate 2024 3 10; 0; zeroTime; zeroTime; 0].
Proof. vm_compute. reflexivity. Qed.

(* ================================================================= *)
(** ** The display texts of notes *)

Section DisplayTexts.

Variable Format : Time -> string -> string.
Variable ToUpper : string -> string.
Variable Sprintf : Z -> string -> Z -> string -> string -> string.

Lemma slice_initial s :
  (slice s 0 1 = None <-> s = "")
  /\ (forall initial, slice s 0 1 = Some initial ->
                      initial = String.substring 0 1 s).
Proof.
  unfold slice. destruct s as [|a s].
  - simpl. split; [tauto | discriminate].
  - assert (E : (0 <=? 0) && (0 <=? 1) && (1 <=? strlen (String a s)) = true).
    { unfold strlen. cbn [String.length].
      rewrite !andb_true_iff, !Z.leb_le. lia. }
    rewrite E. split; [split; discriminate|]. intros initial [= <-]. reflexivity.
Qed.

Lemma shownText_cases maxStrLen note :
  (shownText maxStrLen note = None
   <-> 0 < maxStrLen < 3 /\ maxStrLen < strlen (Text note))
  /\ (forall shown, shownText maxStrLen note = Some shown ->
        (maxStrLen <= 0 \/ strlen (Text note) <= maxStrLen ->
         shown = Text note)
        /\ (0 < maxStrLen < strlen (Text note) ->
            strlen shown = maxStrLen
            /\ exists head rest,
                 Text note = (head ++ rest)%string
                 /\ strlen head = maxStrLen - 3
                 /\ shown = (head ++ "...")%string)).
Proof.
  unfold shownText. cbv zeta.
  destruct (Z.ltb_spec 0 maxStrLen) as [P|P].
  2:{ split; [split; [discriminate | lia]|].
      intros shown [= <-]. split; [reflexivity | lia]. }
  destruct (Z.ltb_spec maxStrLen (strlen (Text note))) as [L|L].
  2:{ split; [split; [discriminate | lia]|].
      intros shown [= <-]. split; [reflexivity | lia]. }
  unfold slice.
  replace (0 <=? 0) with true by reflexivity. cbn [andb].
  destruct (Z.leb_spec 0 (maxStrLen - 3)) as [B|B]; cbn [andb].
  - destruct (Z.leb_spec (maxStrLen - 3) (strlen (Text note))) as [C|C]; [|lia].
    split; [split; [discriminate | lia]|].
    intros shown [= <-]. split; [lia|]. intros _.
    replace (maxStrLen - 3 - 0) with (maxStrLen - 3) by lia.
    change (Z.to_nat 0) with 0%nat.
    assert (Hn : (Z.to_nat (maxStrLen - 3) <= String.length (Text note))%nat)
      by (unfold strlen in C; lia).
    destruct (substring_prefix (Text note) _ Hn) as (rest & E).
    assert (Hl : strlen (String.substring 0 (Z.to_nat (maxStrLen - 3)) (Text note))
                 = maxStrLen - 3).
    { unfold strlen. rewrite length_substring by exact Hn. lia. }
    split.
    + unfold strlen in *. rewrite length_append. simpl String.length. lia.
    + eexists _, rest. split; [exact E|]. split; [exact Hl | reflexivity].
  - split; [split; [lia | reflexivity]|]. discriminate.
Qed.

Lemma externalTextsLoop_spec maxStrLen notes : forall allTexts,
  (externalTextsLoop Format ToUpper Sprintf notes maxStrLen allTexts = None
   <-> Exists (fun note => Status note = ""
                           \/ (0 < maxStrLen < 3
                               /\ maxStrLen < strlen (Text note))) notes)
  /\ (forall texts,
        externalTextsLoop Format ToUpper Sprintf notes maxStrLen allTexts
        = Some texts ->
        exists added,
          texts = (allTexts ++ added)%list
          /\ Forall2
               (fun note text =>
                  exists shown,
                    shownText maxStrLen note = Some shown
                    /\ text = Sprintf (- maxStrLen) shown (len (Comments note))
                                (ToUpper (String.substring 0 1 (Status note)))
                                (UnixTimestampToShortTimeStr Format
                                   (CompleteBy note)))
               notes added).
Proof.
  induction notes as [|note notes IH]; intros allTexts; cbn [externalTextsLoop].
  - split.
    + split; [discriminate|]. intros H. inversion H.
    + intros texts [= <-]. exists []. rewrite app_nil_r. split; [reflexivity|].
      constructor.
  - destruct (shownText_cases maxStrLen note) as (Sn & _).
    destruct (slice_initial (Status note)) as (Si & Ss).
    destruct (shownText maxStrLen note) as [shown|] eqn:Es.
    2:{ split; [|discriminate]. split; [|reflexivity].
        intros _. left. right. apply Sn. reflexivity. }
    destruct (slice (Status note) 0 1) as [initial|] eqn:Ei.
    2:{ split; [|discriminate]. split; [|reflexivity].
        intros _. left. left. apply Si. reflexivity. }
    pose proof (Ss initial eq_refl) as Einit. subst initial.
    match goal with
    | |- context [externalTextsLoop _ _ _ notes maxStrLen ?acc] =>
        destruct (IH acc) as (IHn & IHs)
    end.
    split.
    + rewrite IHn. split.
      * intros H. right. exact H.
      * intros H. inversion H as [? ? Hb|? ? Hb]; subst; [|exact Hb].
        destruct Hb as [Hb|Hb].
        -- apply Si in Hb. discriminate.
        -- apply Sn in Hb. discriminate.
    + intros texts Ht. destruct (IHs texts Ht) as (added & -> & F).
      eexists (_ :: added). rewrite <- app_assoc. split; [reflexivity|].
      constructor; [|exact F]. exists shown. split; [exact Es | reflexivity].
Qed.

(** X26: [ExternalTexts] panics exactly when some note has an empty status
    (its first byte is asked for), or when [maxStrLen] is 1 or 2 and some
    note has a text longer than that (the text is then cut at
    [maxStrLen - 3], a negative index). Otherwise it returns one line for
    each note, in order: the line is formatted from the text as shown, the
    number of comments, the first byte of the status in upper case and the
    short form of the due date. The text is shown as it is when [maxStrLen]
    is not positive or the text has at most [maxStrLen] bytes, and else as
    its first [maxStrLen - 3] bytes followed by three dots, [maxStrLen]
    bytes in all. *)
Theorem ExternalTexts_spec notes maxStrLen :
  (ExternalTexts Format ToUpper Sprintf notes maxStrLen = None
   <-> Exists (fun note => Status note = ""
                           \/ (0 < maxStrLen < 3
                               /\ maxStrLen < strlen (Text note))) notes)
  /\ (forall texts,
        ExternalTexts Format ToUpper Sprintf notes maxStrLen = Some texts ->
        Forall2
          (fun note text =>
             exists shown,
               text = Sprintf (- maxStrLen) shown (len (Comments note))
                        (ToUpper (String.substring 0 1 (Status note)))
                        (UnixTimestampToShortTimeStr Format (CompleteBy note))
               /\ (maxStrLen <= 0 \/ strlen (Text note) <= maxStrLen ->
                   shown = Text note)
               /\ (0 < maxStrLen < strlen (Text note) ->
                   strlen shown = maxStrLen
                   /\ exists head rest,
                        Text note = (head ++ rest)%string
                        /\ strlen head = maxStrLen - 3
                        /\ shown = (head ++ "...")%string))
          notes texts).
Proof.
  unfold ExternalTexts.
  destruct (externalTextsLoop_spec maxStrLen notes []) as (Hn & Hs).
  split; [exact Hn|].
  intros texts Ht. destruct (Hs texts Ht) as (added & -> & F).
  rewrite app_nil_l. clear Hn Hs Ht.
  induction F as [|note text notes' added' (shown & Es & Et) F IH];
    constructor; [|exact IH].
  exists shown. split; [exact Et|].
  apply shownText_cases. exact Es.
Qed.

End DisplayTexts.

Lemma ExternalTexts_spec_witness :
  ExternalTexts (fun _ _ => "") (fun s => s)
    (fun _ text _ _ _ => text) [Sample.note [] 0] 2 = None
  /\ ExternalTexts (fun _ _ => "") (fun s => s)
       (fun _ text _ _ _ => text) [Sample.note [] 0] 10 = Some ["Renew p..."].
Proof.
  split.
  - destruct (ExternalTexts_spec (fun _ _ => "") (fun s => s)
                (fun _ text _ _ _ => text) [Sample.note [] 0] 2) as (H & _).
    apply H. left. right. vm_compute. repeat split; discriminate.
  - reflexivity.
Defined.

(* ================================================================= *)
(** ** Due dates up to 1970 *)

Lemma numTexts_readsNum n text :
  1 <= n <= 99 -> In text (numTexts n) -> readsNum text n.
Proof.
  intros B I rest. unfold numTexts in I.
  assert (G : getnum (itoa n ++ String "-" rest) = Some (n, String "-" rest))
    by (apply getnum_itoa; [lia | reflexivity]).
  destruct (Z.ltb_spec n 10) as [L|L]; simpl in I.
  - destruct I as [<-|[<-|[]]]; [exact G|].
    rewrite itoa_nonneg, utoa_digit by lia.
    pose proof (readsNum_two "0" (digitChar n) eq_refl
                  (digitChar_isDigit n ltac:(lia)) rest) as R.
    rewrite digitVal_digitChar in R by lia. exact R.
  - destruct I as [<-|[]]. exact G.
Qed.

(** The due date [UpdateCompleteBy] sets for a day of the calendar written
    with dashes. *)
Lemma UpdateCompleteBy_date now note day month year ds ms :
  1 <= month <= 12 -> 1000 <= year <= 9999 ->
  1 <= day <= daysIn month year ->
  In ds (numTexts day) -> In ms (numTexts month) ->
  let text := (ds ++ "-" ++ ms ++ "-" ++ itoa year)%string in
  TrimString text = text
  /\ text <> "nil"
  /\ UpdateCompleteBy now note text
     = (withDueDate note (unixDate year month day) now, None).
Proof.
  intros Bm By Bd Id Im text.
  pose proof (daysIn_le_31 month year Bm) as B31.
  assert (P : Parse layoutDMY text = Some (unixDate year month day)).
  { unfold text.
    change (ds ++ "-" ++ ms ++ "-" ++ itoa year)%string
      with (ds ++ String "-" (ms ++ String "-" (itoa year)))%string.
    rewrite (Parse_DMY_parts ds ms (itoa year) day month year); try lia.
    - destruct (Z.leb_spec day (daysIn month year)); [reflexivity | lia].
    - apply numTexts_readsNum; [lia | assumption].
    - apply numTexts_readsNum; [lia | assumption].
    - rewrite <- (append_empty_r (itoa year)) at 1. apply getyear_itoa. lia. }
  pose proof (Parse_DMY_trimmed _ _ P) as T.
  assert (E : text <> "nil").
  { intros E. rewrite E in P.
    assert (Q : Parse layoutDMY "nil" = None) by reflexivity.
    congruence. }
  split; [exact T|]. split; [exact E|].
  unfold UpdateCompleteBy. rewrite T.
  destruct (strlen text =? 0) eqn:L.
  { apply strlen_zero in L. unfold text in L.
    exfalso. exact (date_text_not_empty ds _ day Id L). }
  destruct (String.eqb_spec text "nil") as [E'|E']; [contradiction|].
  unfold ParseOrZero, withDueDate. rewrite P. reflexivity.
Qed.

Ltac eval_daysBefore :=
  repeat match goal with
    | |- context [daysBefore ?k] =>
        let v := eval vm_compute in (daysBefore k) in
        change (daysBefore k) with v
    | H : context [daysBefore ?k] |- _ =>
        let v := eval vm_compute in (daysBefore k) in
        change (daysBefore k) with v in H
    end.

Lemma yearDay_range year month day :
  1 <= month <= 12 -> 1 <= day <= daysIn month year ->
  0 <= daysBefore (month - 1)
       + (if isLeap year && (3 <=? month) then 1 else 0) + (day - 1)
    <= (if isLeap year then 365 else 364).
Proof.
  intros Bm Bd. unfold daysIn in Bd.
  assert (E : month = 1 \/ month = 2 \/ month = 3 \/ month = 4 \/ month = 5
              \/ month = 6 \/ month = 7 \/ month = 8 \/ month = 9
              \/ month = 10 \/ month = 11 \/ month = 12) by lia.
  destruct (isLeap year);
    repeat (destruct E as [->|E]; [simpl in *; eval_daysBefore; lia|]);
    subst; simpl in *; eval_daysBefore; lia.
Qed.

Lemma unixDate_before_1970 year month day :
  1900 <= year <= 1969 -> 1 <= month <= 12 ->
  1 <= day <= daysIn month year ->
  -2208988800 <= unixDate year month day < 0.
Proof.
  intros By Bm Bd.
  pose proof (yearDay_range year month day Bm Bd) as R.
  assert (A : forallb (fun y =>
                (693595 <=? daysSinceYear1 (Z.of_nat y))
                && (daysSinceYear1 (Z.of_nat y)
                    + (if isLeap (Z.of_nat y) then 365 else 364) <? 719162))
                (seq 1900 70) = true) by (vm_compute; reflexivity).
  rewrite forallb_forall in A.
  specialize (A (Z.to_nat year) ltac:(apply in_seq; lia)).
  rewrite Z2Nat.id in A by lia. apply andb_true_iff in A.
  rewrite Z.leb_le, Z.ltb_lt in A.
  unfold unixDate, unixEpochDays, secondsPerDay. cbv zeta.
  destruct (isLeap year); destruct (3 <=? month); cbn [andb] in *; lia.
Qed.

(** X27: [ValidateDateString] accepts the days of the calendar from 1900
    on, but a due date before 1970 is a negative number. For a day of the
    years 1900 to 1969, written as the check accepts it, [UpdateCompleteBy]
    sets that negative due date without error; it is displayed as "nil", as
    if the note had no due date, while the note, if it is pending and
    carries no tag of the repeat group, is among the notes approaching their
    due date at every clock reading from 1970 on. *)
Theorem due_date_before_1970 (Format : Time -> string -> string)
  now note day month year ds ms :
  1900 <= year <= 1969 -> 1 <= month <= 12 ->
  1 <= day <= daysIn month year ->
  In ds (numTexts day) -> In ms (numTexts month) ->
  let text := (ds ++ "-" ++ ms ++ "-" ++ itoa year)%string in
  let note' := fst (UpdateCompleteBy now note text) in
  ValidateDateString text = None
  /\ snd (UpdateCompleteBy now note text) = None
  /\ CompleteBy note' = unixDate year month day
  /\ CompleteBy note' < 0
  /\ UnixTimestampToShortTimeStr Format (CompleteBy note') = "nil"
  /\ (forall reminderData now2,
        In note' (Notes reminderData) -> Status note = "pending" ->
        hasRepeatTag reminderData note = false -> 0 <= now2 ->
        In note' (NotesApprachingDueDate now2 reminderData)).
Proof.
  intros By Bm Bd Id Im text note'.
  pose proof (daysIn_le_31 month year Bm) as B31.
  destruct (UpdateCompleteBy_date now note day month year ds ms
              Bm ltac:(lia) Bd Id Im) as (T & N & U).
  fold text in T, N, U.
  pose proof (unixDate_before_1970 year month day By Bm Bd) as R.
  assert (C : CompleteBy note' = unixDate year month day)
    by (unfold note'; rewrite U; reflexivity).
  split.
  { unfold ValidateDateString. cbv zeta. rewrite T.
    assert (M : Matches datePattern text)
      by (apply (datePattern_complete day month year); assumption || lia).
    apply MatchString_Matches in M. rewrite M. reflexivity. }
  split; [rewrite U; reflexivity|].
  split; [exact C|]. split; [lia|]. split.
  { unfold UnixTimestampToShortTimeStr, UnixTimestampToTimeStr.
    destruct (Z.ltb_spec 0 (CompleteBy note')); [lia | reflexivity]. }
  intros reminderData now2 Hin Hs Hr Hnow.
  apply NotesApprachingDueDate_In. split; [exact Hin|].
  split; [unfold note'; rewrite U; exact Hs|].
  unfold selectsNote.
  replace (hasRepeatTag reminderData note')
    with (hasRepeatTag reminderData note)
    by (unfold note'; rewrite U; reflexivity).
  rewrite Hr, C.
  destruct (Z.eqb_spec (unixDate year month day) 0); [lia|]. cbn [negb andb].
  unfold Int64.sub. rewrite wrap_id.
  - apply Z.leb_le. lia.
  - unfold Int64.in_range, Int64.min_int, Int64.max_int. lia.
Qed.

Lemma due_date_before_1970_witness :
  let note' := fst (UpdateCompleteBy 1700000000 (Sample.note [0] 0) "24-12-1969") in
  CompleteBy note' = -691200
  /\ In note' (NotesApprachingDueDate 1700000000 (Sample.data [note'])).
Proof.
  destruct (due_date_before_1970 (fun _ _ => "") 1700000000 (Sample.note [0] 0)
              24 12 1969 "24" "12")
    as (_ & _ & H1 & _ & _ & H2).
  - lia.
  - lia.
  - vm_compute. split; discriminate.
  - left. reflexivity.
  - left. reflexivity.
  - split; [exact H1|]. apply H2.
    + left. reflexivity.
    + reflexivity.
    + vm_compute. reflexivity.
    + lia.
Defined.

(** The first day of 1970 is the due date 0, which stands for no due
    date: the validated text clears the due date, as "nil" does. *)
Example due_date_epoch_clears :
  ValidateDateString "01-01-1970" = None
  /\ UpdateCompleteBy 1700000000 (Sample.note [] 1710028800) "01-01-1970"
     = UpdateCompleteBy 1700000000 (Sample.note [] 1710028800) "nil".
Proof. split; vm_compute; reflexivity. Qed.

(* ================================================================= *)
(** ** The order of notes *)

(** X28: [Notes.Less], the order [sort.Sort] is given for notes, is defined
    exactly for the two indices within the slice, and on them it is a
    strict weak order, as sorting requires: no note is before itself, the
    order is transitive, and so is being unordered, which is having the same
    time of update. A note is before another exactly when it was updated
    later. *)
Theorem Less_strict_weak_order (c : list Note) :
  (forall i j, Less c i j = None
               <-> (List.length c <= i)%nat \/ (List.length c <= j)%nat)
  /\ (forall i j a b, c !! i = Some a -> c !! j = Some b ->
        Less c i j = Some (UpdatedAt b <? UpdatedAt a))
  /\ (forall i, (i < List.length c)%nat -> Less c i i = Some false)
  /\ (forall i j k, Less c i j = Some true -> Less c j k = Some true ->
                    Less c i k = Some true)
  /\ (forall i j k,
        Less c i j = Some false -> Less c j i = Some false ->
        Less c j k = Some false -> Less c k j = Some false ->
        Less c i k = Some false /\ Less c k i = Some false).
Proof.
  unfold Less. split; [|split; [|split; [|split]]].
  - intros i j. rewrite <- !lookup_ge_None.
    destruct (c !! i), (c !! j); split; try discriminate; intuition discriminate.
  - intros i j a b -> ->. reflexivity.
  - intros i Hi. apply lookup_lt_is_Some_2 in Hi. destruct Hi as (a & ->).
    now rewrite Z.ltb_irrefl.
  - intros i j k.
    destruct (c !! i) as [a|], (c !! j) as [b|], (c !! k) as [d|];
      try discriminate.
    intros [= H1] [= H2]. f_equal.
    apply Z.ltb_lt in H1. apply Z.ltb_lt in H2. apply Z.ltb_lt. lia.
  - intros i j k.
    destruct (c !! i) as [a|], (c !! j) as [b|], (c !! k) as [d|];
      try discriminate.
    intros [= H1] [= H2] [= H3] [= H4].
    apply Z.ltb_ge in H1. apply Z.ltb_ge in H2.
    apply Z.ltb_ge in H3. apply Z.ltb_ge in H4.
    split; f_equal; apply Z.ltb_ge; lia.
Qed.

Lemma Less_strict_weak_order_witness :
  Less [Sample.note [] 0; Sample.note [] 5] 0 2 = None.
Proof.
  destruct (Less_strict_weak_order [Sample.note [] 0; Sample.note [] 5])
    as (H & _).
  apply H. right. simpl. lia.
Defined.

(* ================================================================= *)
(** ** Status updates and the notes that are due *)

(** The selection reads the aggregate through its notes and tags only. *)
Lemma selectsNote_tags now reminderData reminderData' note :
  Tags reminderData' = Tags reminderData ->
  selectsNote now reminderData' note = selectsNote now reminderData note.
Proof.
  intros E. unfold selectsNote, hasRepeatTag, carriesSlug, TagFromSlug,
    TagIdsForGroup. rewrite E. reflexivity.
Qed.

Lemma UpdateStatus_plain now note status repeatTagIDs :
  GetCommonMembersIntSlices (TagIds note) repeatTagIDs = [] ->
  Status (fst (UpdateStatus now note status repeatTagIDs)) = status.
Proof.
  intros E. unfold UpdateStatus. rewrite E. cbn [len List.length Z.of_nat].
  cbn [Z.eqb negb].
  destruct (String.eqb_spec (Status note) status) as [Es|Es]; cbn [negb fst];
    [exact Es | reflexivity].
Qed.

Section StatusAndSelection.

Variable MarshalIndent : ReminderData -> string + error.

(** X29: [UpdateNoteStatus] and the notes approaching their due date. On a
    note that carries a tag of the "repeat" group the update changes no
    note, so that the notes approaching their due date are the same before
    and after, at every time: such a note cannot be marked as done. On a
    note without such a tag, an update to a status other than "pending"
    takes the note out: afterwards the notes approaching their due date are
    exactly the pending notes at the other positions of the store that were
    selected before. *)
Theorem status_update_and_due_notes now reminderData ref status w note
  reminderData' w' err :
  Notes reminderData !! ref = Some note ->
  UpdateNoteStatus MarshalIndent now reminderData ref status w
  = Some (reminderData', w', err) ->
  (hasRepeatTag reminderData note = true ->
   Notes reminderData' = Notes reminderData
   /\ forall t, NotesApprachingDueDate t reminderData'
                = NotesApprachingDueDate t reminderData)
  /\ (hasRepeatTag reminderData note = false -> status <> "pending" ->
      forall t n,
        In n (NotesApprachingDueDate t reminderData')
        <-> exists ref',
              ref' <> ref /\ Notes reminderData !! ref' = Some n
              /\ Status n = "pending"
              /\ selectsNote t reminderData n = true).
Proof.
  intros Hn H. unfold UpdateNoteStatus, thenPersist in H. rewrite Hn in H.
  set (reps := TagIdsForGroup reminderData "repeat") in *.
  assert (Hnone : snd (UpdateStatus now note status reps) = None).
  { unfold UpdateStatus. destruct (negb _); [reflexivity|].
    destruct (negb _); reflexivity. }
  destruct (UpdateStatus now note status reps) as [note' e] eqn:Eu.
  simpl in Hnone. subst e.
  destruct (UpdateDataFile_cases MarshalIndent now
              (storeNote reminderData ref note') "" w) as (w1 & e1 & E1 & _).
  rewrite E1 in H. injection H as <- _ _.
  split.
  - intros Hr.
    assert (En : note' = note).
    { pose proof (f_equal fst Eu) as F. simpl in F. rewrite <- F.
      unfold UpdateStatus. unfold hasRepeatTag in Hr. fold reps in Hr.
      rewrite len_pos in Hr. rewrite Hr. reflexivity. }
    subst note'. rewrite (storeNote_same _ _ _ Hn).
    split; reflexivity.
  - intros Hr Hs t n.
    assert (Es : Status note' = status).
    { pose proof (f_equal fst Eu) as F. simpl in F. rewrite <- F.
      apply UpdateStatus_plain.
      unfold hasRepeatTag in Hr. fold reps in Hr. rewrite len_pos in Hr.
      apply negb_false_iff in Hr. apply len_zero in Hr. exact Hr. }
    rewrite NotesApprachingDueDate_In.
    rewrite (selectsNote_tags t reminderData _ n) by reflexivity.
    cbn [touched storeNote Notes].
    rewrite <- list_elem_of_In, list_elem_of_lookup.
    split.
    + intros ((i & Hi) & Hp & Hsel).
      apply list_lookup_insert_Some in Hi.
      destruct Hi as [(_ & <- & _)|(Hne & Hi)]; [congruence|].
      exists i. auto.
    + intros (i & Hne & Hi & Hp & Hsel).
      split; [|auto]. exists i.
      rewrite list_lookup_insert_ne by auto. exact Hi.
Qed.

End StatusAndSelection.

Lemma status_update_and_due_notes_witness :
  NotesApprachingDueDate 1710028800
    (fst (fst (UpdateDataFile Sample.marshal 1700000000
                 (Sample.data [Sample.note [4] 1710028800;
                               Sample.note [0] 1710028800])
                 "" Sample.world)))
  = NotesApprachingDueDate 1710028800
      (Sample.data [Sample.note [4] 1710028800; Sample.note [0] 1710028800]).
Proof.
  set (rd := Sample.data [Sample.note [4] 1710028800;
                          Sample.note [0] 1710028800]).
  destruct (status_update_and_due_notes Sample.marshal 1700000000 rd 0%nat
              "done" Sample.world (Sample.note [4] 1710028800)
              (fst (fst (UpdateDataFile Sample.marshal 1700000000 rd ""
                           Sample.world)))
              (snd (fst (UpdateDataFile Sample.marshal 1700000000 rd ""
                           Sample.world)))
              (snd (UpdateDataFile Sample.marshal 1700000000 rd "" Sample.world)))
    as (H & _).
  - reflexivity.
  - reflexivity.
  - destruct (H eq_refl) as (_ & H2). apply H2.
Defined.
